(** * Organization lifecycle manager: a shallow embedding of [app/routes/orgs.py]

    The four request handlers of the router ([create_org], [get_org],
    [update_org], [delete_org]) are embedded as computations in a small
    state-and-exception monad over the document store.  A raised exception
    keeps every write that was committed before it: the handlers have no
    rollback, and the monad has none either. *)

From Stdlib Require Import List String Ascii Bool NArith ZArith Lia HexString.
Import ListNotations.
Local Open Scope string_scope.

(** ** Python strings: [str.strip] and [str.lower]

    A Python [str] is a sequence of Unicode code points.  A [string] here
    holds its UTF-8 encoding, one byte per character; two [str] are equal
    exactly when their encodings are, and the encoding of a concatenation is
    the concatenation of the encodings.  [strip] and [lower] decode their
    argument, act on the code points as CPython does, and encode the result.
    The tables are those of Unicode 14.0.0, as CPython 3.11 has them. *)
Module PyStr.

(** *** UTF-8 *)

(** A continuation byte. *)
Definition continues (b : N) : bool := ((128 <=? b) && (b <? 192))%N.

(** The code points of a string.  A byte that starts no well-formed sequence
    is read as U+FFFD. *)
Fixpoint decode (s : string) : list N :=
  match s with
  | EmptyString => []
  | String a0 s1 =>
      let b0 := N_of_ascii a0 in
      if (b0 <? 128)%N then b0 :: decode s1
      else
        match s1 with
        | EmptyString => [65533%N]
        | String a1 s2 =>
            let b1 := N_of_ascii a1 in
            if ((192 <=? b0) && (b0 <? 224) && continues b1)%N
            then ((b0 - 192) * 64 + (b1 - 128))%N :: decode s2
            else
              match s2 with
              | EmptyString => 65533%N :: decode s1
              | String a2 s3 =>
                  let b2 := N_of_ascii a2 in
                  if ((224 <=? b0) && (b0 <? 240) && continues b1
                      && continues b2)%N
                  then (((b0 - 224) * 64 + (b1 - 128)) * 64
                        + (b2 - 128))%N :: decode s3
                  else
                    match s3 with
                    | EmptyString => 65533%N :: decode s1
                    | String a3 s4 =>
                        let b3 := N_of_ascii a3 in
                        if ((240 <=? b0) && (b0 <? 248) && continues b1
                            && continues b2 && continues b3)%N
                        then ((((b0 - 240) * 64 + (b1 - 128)) * 64
                               + (b2 - 128)) * 64 + (b3 - 128))%N
                             :: decode s4
                        else 65533%N :: decode s1
                    end
              end
        end
  end.

(** The encoding of a sequence of code points, in one to four bytes each. *)
Fixpoint encode (l : list N) : string :=
  match l with
  | [] => EmptyString
  | c :: l' =>
      let tail (k : N) (s : string) : string :=
        String (ascii_of_N (128 + (c / k) mod 64)) s in
      if (c <? 128)%N then String (ascii_of_N c) (encode l')
      else if (c <? 2048)%N then
        String (ascii_of_N (192 + c / 64)) (tail 1%N (encode l'))
      else if (c <? 65536)%N then
        String (ascii_of_N (224 + c / 4096))
          (tail 64%N (tail 1%N (encode l')))
      else
        String (ascii_of_N (240 + (c / 262144) mod 8))
          (tail 4096%N (tail 64%N (tail 1%N (encode l'))))
  end.

(** *** The character database *)

Definition space_points : list N :=
  [
   0x9; 0xa; 0xb; 0xc; 0xd; 0x1c; 0x1d; 0x1e; 0x1f; 0x20; 0x85; 0xa0; 0x1680;
   0x2000; 0x2001; 0x2002; 0x2003; 0x2004; 0x2005; 0x2006; 0x2007; 0x2008;
   0x2009; 0x200a; 0x2028; 0x2029; 0x202f; 0x205f; 0x3000
  ]%N.

Definition lower_table : list (N * N * N * N) :=
  [
   (0x41,0x5a,1,0x61); (0xc0,0xd6,1,0xe0); (0xd8,0xde,1,0xf8);
   (0x100,0x12e,2,0x101); (0x132,0x136,2,0x133); (0x139,0x147,2,0x13a);
   (0x14a,0x176,2,0x14b); (0x178,0x178,1,0xff); (0x179,0x17d,2,0x17a);
   (0x181,0x181,1,0x253); (0x182,0x184,2,0x183); (0x186,0x186,1,0x254);
   (0x187,0x187,1,0x188); (0x189,0x18a,1,0x256); (0x18b,0x18b,1,0x18c);
   (0x18e,0x18e,1,0x1dd); (0x18f,0x18f,1,0x259); (0x190,0x190,1,0x25b);
   (0x191,0x191,1,0x192); (0x193,0x193,1,0x260); (0x194,0x194,1,0x263);
   (0x196,0x196,1,0x269); (0x197,0x197,1,0x268); (0x198,0x198,1,0x199);
   (0x19c,0x19c,1,0x26f); (0x19d,0x19d,1,0x272); (0x19f,0x19f,1,0x275);
   (0x1a0,0x1a4,2,0x1a1); (0x1a6,0x1a6,1,0x280); (0x1a7,0x1a7,1,0x1a8);
   (0x1a9,0x1a9,1,0x283); (0x1ac,0x1ac,1,0x1ad); (0x1ae,0x1ae,1,0x288);
   (0x1af,0x1af,1,0x1b0); (0x1b1,0x1b2,1,0x28a); (0x1b3,0x1b5,2,0x1b4);
   (0x1b7,0x1b7,1,0x292); (0x1b8,0x1b8,1,0x1b9); (0x1bc,0x1bc,1,0x1bd);
   (0x1c4,0x1c4,1,0x1c6); (0x1c5,0x1c5,1,0x1c6); (0x1c7,0x1c7,1,0x1c9);
   (0x1c8,0x1c8,1,0x1c9); (0x1ca,0x1ca,1,0x1cc); (0x1cb,0x1db,2,0x1cc);
   (0x1de,0x1ee,2,0x1df); (0x1f1,0x1f1,1,0x1f3); (0x1f2,0x1f4,2,0x1f3);
   (0x1f6,0x1f6,1,0x195); (0x1f7,0x1f7,1,0x1bf); (0x1f8,0x21e,2,0x1f9);
   (0x220,0x220,1,0x19e); (0x222,0x232,2,0x223); (0x23a,0x23a,1,0x2c65);
   (0x23b,0x23b,1,0x23c); (0x23d,0x23d,1,0x19a); (0x23e,0x23e,1,0x2c66);
   (0x241,0x241,1,0x242); (0x243,0x243,1,0x180); (0x244,0x244,1,0x289);
   (0x245,0x245,1,0x28c); (0x246,0x24e,2,0x247); (0x370,0x372,2,0x371);
   (0x376,0x376,1,0x377); (0x37f,0x37f,1,0x3f3); (0x386,0x386,1,0x3ac);
   (0x388,0x38a,1,0x3ad); (0x38c,0x38c,1,0x3cc); (0x38e,0x38f,1,0x3cd);
   (0x391,0x3a1,1,0x3b1); (0x3a3,0x3ab,1,0x3c3); (0x3cf,0x3cf,1,0x3d7);
   (0x3d8,0x3ee,2,0x3d9); (0x3f4,0x3f4,1,0x3b8); (0x3f7,0x3f7,1,0x3f8);
   (0x3f9,0x3f9,1,0x3f2); (0x3fa,0x3fa,1,0x3fb); (0x3fd,0x3ff,1,0x37b);
   (0x400,0x40f,1,0x450); (0x410,0x42f,1,0x430); (0x460,0x480,2,0x461);
   (0x48a,0x4be,2,0x48b); (0x4c0,0x4c0,1,0x4cf); (0x4c1,0x4cd,2,0x4c2);
   (0x4d0,0x52e,2,0x4d1); (0x531,0x556,1,0x561); (0x10a0,0x10c5,1,0x2d00);
   (0x10c7,0x10c7,1,0x2d27); (0x10cd,0x10cd,1,0x2d2d);
   (0x13a0,0x13ef,1,0xab70); (0x13f0,0x13f5,1,0x13f8);
   (0x1c90,0x1cba,1,0x10d0); (0x1cbd,0x1cbf,1,0x10fd);
   (0x1e00,0x1e94,2,0x1e01); (0x1e9e,0x1e9e,1,0xdf);
   (0x1ea0,0x1efe,2,0x1ea1); (0x1f08,0x1f0f,1,0x1f00);
   (0x1f18,0x1f1d,1,0x1f10); (0x1f28,0x1f2f,1,0x1f20);
   (0x1f38,0x1f3f,1,0x1f30); (0x1f48,0x1f4d,1,0x1f40);
   (0x1f59,0x1f5f,2,0x1f51); (0x1f68,0x1f6f,1,0x1f60);
   (0x1f88,0x1f8f,1,0x1f80); (0x1f98,0x1f9f,1,0x1f90);
   (0x1fa8,0x1faf,1,0x1fa0); (0x1fb8,0x1fb9,1,0x1fb0);
   (0x1fba,0x1fbb,1,0x1f70); (0x1fbc,0x1fbc,1,0x1fb3);
   (0x1fc8,0x1fcb,1,0x1f72); (0x1fcc,0x1fcc,1,0x1fc3);
   (0x1fd8,0x1fd9,1,0x1fd0); (0x1fda,0x1fdb,1,0x1f76);
   (0x1fe8,0x1fe9,1,0x1fe0); (0x1fea,0x1feb,1,0x1f7a);
   (0x1fec,0x1fec,1,0x1fe5); (0x1ff8,0x1ff9,1,0x1f78);
   (0x1ffa,0x1ffb,1,0x1f7c); (0x1ffc,0x1ffc,1,0x1ff3);
   (0x2126,0x2126,1,0x3c9); (0x212a,0x212a,1,0x6b); (0x212b,0x212b,1,0xe5);
   (0x2132,0x2132,1,0x214e); (0x2160,0x216f,1,0x2170);
   (0x2183,0x2183,1,0x2184); (0x24b6,0x24cf,1,0x24d0);
   (0x2c00,0x2c2f,1,0x2c30); (0x2c60,0x2c60,1,0x2c61);
   (0x2c62,0x2c62,1,0x26b); (0x2c63,0x2c63,1,0x1d7d);
   (0x2c64,0x2c64,1,0x27d); (0x2c67,0x2c6b,2,0x2c68);
   (0x2c6d,0x2c6d,1,0x251); (0x2c6e,0x2c6e,1,0x271); (0x2c6f,0x2c6f,1,0x250);
   (0x2c70,0x2c70,1,0x252); (0x2c72,0x2c72,1,0x2c73);
   (0x2c75,0x2c75,1,0x2c76); (0x2c7e,0x2c7f,1,0x23f);
   (0x2c80,0x2ce2,2,0x2c81); (0x2ceb,0x2ced,2,0x2cec);
   (0x2cf2,0x2cf2,1,0x2cf3); (0xa640,0xa66c,2,0xa641);
   (0xa680,0xa69a,2,0xa681); (0xa722,0xa72e,2,0xa723);
   (0xa732,0xa76e,2,0xa733); (0xa779,0xa77b,2,0xa77a);
   (0xa77d,0xa77d,1,0x1d79); (0xa77e,0xa786,2,0xa77f);
   (0xa78b,0xa78b,1,0xa78c); (0xa78d,0xa78d,1,0x265);
   (0xa790,0xa792,2,0xa791); (0xa796,0xa7a8,2,0xa797);
   (0xa7aa,0xa7aa,1,0x266); (0xa7ab,0xa7ab,1,0x25c); (0xa7ac,0xa7ac,1,0x261);
   (0xa7ad,0xa7ad,1,0x26c); (0xa7ae,0xa7ae,1,0x26a); (0xa7b0,0xa7b0,1,0x29e);
   (0xa7b1,0xa7b1,1,0x287); (0xa7b2,0xa7b2,1,0x29d);
   (0xa7b3,0xa7b3,1,0xab53); (0xa7b4,0xa7c2,2,0xa7b5);
   (0xa7c4,0xa7c4,1,0xa794); (0xa7c5,0xa7c5,1,0x282);
   (0xa7c6,0xa7c6,1,0x1d8e); (0xa7c7,0xa7c9,2,0xa7c8);
   (0xa7d0,0xa7d0,1,0xa7d1); (0xa7d6,0xa7d8,2,0xa7d7);
   (0xa7f5,0xa7f5,1,0xa7f6); (0xff21,0xff3a,1,0xff41);
   (0x10400,0x10427,1,0x10428); (0x104b0,0x104d3,1,0x104d8);
   (0x10570,0x1057a,1,0x10597); (0x1057c,0x1058a,1,0x105a3);
   (0x1058c,0x10592,1,0x105b3); (0x10594,0x10595,1,0x105bb);
   (0x10c80,0x10cb2,1,0x10cc0); (0x118a0,0x118bf,1,0x118c0);
   (0x16e40,0x16e5f,1,0x16e60); (0x1e900,0x1e921,1,0x1e922)
  ]%N.

Definition cased_table : list (N * N) :=
  [
   (0x41,0x5a); (0x61,0x7a); (0xaa,0xaa); (0xb5,0xb5); (0xba,0xba);
   (0xc0,0xd6); (0xd8,0xf6); (0xf8,0x1ba); (0x1bc,0x1bf); (0x1c4,0x293);
   (0x295,0x2b8); (0x2c0,0x2c1); (0x2e0,0x2e4); (0x345,0x345); (0x370,0x373);
   (0x376,0x377); (0x37a,0x37d); (0x37f,0x37f); (0x386,0x386); (0x388,0x38a);
   (0x38c,0x38c); (0x38e,0x3a1); (0x3a3,0x3f5); (0x3f7,0x481); (0x48a,0x52f);
   (0x531,0x556); (0x560,0x588); (0x10a0,0x10c5); (0x10c7,0x10c7);
   (0x10cd,0x10cd); (0x10d0,0x10fa); (0x10fd,0x10ff); (0x13a0,0x13f5);
   (0x13f8,0x13fd); (0x1c80,0x1c88); (0x1c90,0x1cba); (0x1cbd,0x1cbf);
   (0x1d00,0x1dbf); (0x1e00,0x1f15); (0x1f18,0x1f1d); (0x1f20,0x1f45);
   (0x1f48,0x1f4d); (0x1f50,0x1f57); (0x1f59,0x1f59); (0x1f5b,0x1f5b);
   (0x1f5d,0x1f5d); (0x1f5f,0x1f7d); (0x1f80,0x1fb4); (0x1fb6,0x1fbc);
   (0x1fbe,0x1fbe); (0x1fc2,0x1fc4); (0x1fc6,0x1fcc); (0x1fd0,0x1fd3);
   (0x1fd6,0x1fdb); (0x1fe0,0x1fec); (0x1ff2,0x1ff4); (0x1ff6,0x1ffc);
   (0x2071,0x2071); (0x207f,0x207f); (0x2090,0x209c); (0x2102,0x2102);
   (0x2107,0x2107); (0x210a,0x2113); (0x2115,0x2115); (0x2119,0x211d);
   (0x2124,0x2124); (0x2126,0x2126); (0x2128,0x2128); (0x212a,0x212d);
   (0x212f,0x2134); (0x2139,0x2139); (0x213c,0x213f); (0x2145,0x2149);
   (0x214e,0x214e); (0x2160,0x217f); (0x2183,0x2184); (0x24b6,0x24e9);
   (0x2c00,0x2ce4); (0x2ceb,0x2cee); (0x2cf2,0x2cf3); (0x2d00,0x2d25);
   (0x2d27,0x2d27); (0x2d2d,0x2d2d); (0xa640,0xa66d); (0xa680,0xa69d);
   (0xa722,0xa787); (0xa78b,0xa78e); (0xa790,0xa7ca); (0xa7d0,0xa7d1);
   (0xa7d3,0xa7d3); (0xa7d5,0xa7d9); (0xa7f5,0xa7f6); (0xa7f8,0xa7fa);
   (0xab30,0xab5a); (0xab5c,0xab68); (0xab70,0xabbf); (0xfb00,0xfb06);
   (0xfb13,0xfb17); (0xff21,0xff3a); (0xff41,0xff5a); (0x10400,0x1044f);
   (0x104b0,0x104d3); (0x104d8,0x104fb); (0x10570,0x1057a);
   (0x1057c,0x1058a); (0x1058c,0x10592); (0x10594,0x10595);
   (0x10597,0x105a1); (0x105a3,0x105b1); (0x105b3,0x105b9);
   (0x105bb,0x105bc); (0x10780,0x10780); (0x10783,0x10785);
   (0x10787,0x107b0); (0x107b2,0x107ba); (0x10c80,0x10cb2);
   (0x10cc0,0x10cf2); (0x118a0,0x118df); (0x16e40,0x16e7f);
   (0x1d400,0x1d454); (0x1d456,0x1d49c); (0x1d49e,0x1d49f);
   (0x1d4a2,0x1d4a2); (0x1d4a5,0x1d4a6); (0x1d4a9,0x1d4ac);
   (0x1d4ae,0x1d4b9); (0x1d4bb,0x1d4bb); (0x1d4bd,0x1d4c3);
   (0x1d4c5,0x1d505); (0x1d507,0x1d50a); (0x1d50d,0x1d514);
   (0x1d516,0x1d51c); (0x1d51e,0x1d539); (0x1d53b,0x1d53e);
   (0x1d540,0x1d544); (0x1d546,0x1d546); (0x1d54a,0x1d550);
   (0x1d552,0x1d6a5); (0x1d6a8,0x1d6c0); (0x1d6c2,0x1d6da);
   (0x1d6dc,0x1d6fa); (0x1d6fc,0x1d714); (0x1d716,0x1d734);
   (0x1d736,0x1d74e); (0x1d750,0x1d76e); (0x1d770,0x1d788);
   (0x1d78a,0x1d7a8); (0x1d7aa,0x1d7c2); (0x1d7c4,0x1d7cb);
   (0x1df00,0x1df09); (0x1df0b,0x1df1e); (0x1e900,0x1e943);
   (0x1f130,0x1f149); (0x1f150,0x1f169); (0x1f170,0x1f189)
  ]%N.

Definition case_ignorable_table : list (N * N) :=
  [
   (0x27,0x27); (0x2e,0x2e); (0x3a,0x3a); (0x5e,0x5e); (0x60,0x60);
   (0xa8,0xa8); (0xad,0xad); (0xaf,0xaf); (0xb4,0xb4); (0xb7,0xb8);
   (0x2b0,0x36f); (0x374,0x375); (0x37a,0x37a); (0x384,0x385); (0x387,0x387);
   (0x483,0x489); (0x559,0x559); (0x55f,0x55f); (0x591,0x5bd); (0x5bf,0x5bf);
   (0x5c1,0x5c2); (0x5c4,0x5c5); (0x5c7,0x5c7); (0x5f4,0x5f4); (0x600,0x605);
   (0x610,0x61a); (0x61c,0x61c); (0x640,0x640); (0x64b,0x65f); (0x670,0x670);
   (0x6d6,0x6dd); (0x6df,0x6e8); (0x6ea,0x6ed); (0x70f,0x70f); (0x711,0x711);
   (0x730,0x74a); (0x7a6,0x7b0); (0x7eb,0x7f5); (0x7fa,0x7fa); (0x7fd,0x7fd);
   (0x816,0x82d); (0x859,0x85b); (0x888,0x888); (0x890,0x891); (0x898,0x89f);
   (0x8c9,0x902); (0x93a,0x93a); (0x93c,0x93c); (0x941,0x948); (0x94d,0x94d);
   (0x951,0x957); (0x962,0x963); (0x971,0x971); (0x981,0x981); (0x9bc,0x9bc);
   (0x9c1,0x9c4); (0x9cd,0x9cd); (0x9e2,0x9e3); (0x9fe,0x9fe); (0xa01,0xa02);
   (0xa3c,0xa3c); (0xa41,0xa42); (0xa47,0xa48); (0xa4b,0xa4d); (0xa51,0xa51);
   (0xa70,0xa71); (0xa75,0xa75); (0xa81,0xa82); (0xabc,0xabc); (0xac1,0xac5);
   (0xac7,0xac8); (0xacd,0xacd); (0xae2,0xae3); (0xafa,0xaff); (0xb01,0xb01);
   (0xb3c,0xb3c); (0xb3f,0xb3f); (0xb41,0xb44); (0xb4d,0xb4d); (0xb55,0xb56);
   (0xb62,0xb63); (0xb82,0xb82); (0xbc0,0xbc0); (0xbcd,0xbcd); (0xc00,0xc00);
   (0xc04,0xc04); (0xc3c,0xc3c); (0xc3e,0xc40); (0xc46,0xc48); (0xc4a,0xc4d);
   (0xc55,0xc56); (0xc62,0xc63); (0xc81,0xc81); (0xcbc,0xcbc); (0xcbf,0xcbf);
   (0xcc6,0xcc6); (0xccc,0xccd); (0xce2,0xce3); (0xd00,0xd01); (0xd3b,0xd3c);
   (0xd41,0xd44); (0xd4d,0xd4d); (0xd62,0xd63); (0xd81,0xd81); (0xdca,0xdca);
   (0xdd2,0xdd4); (0xdd6,0xdd6); (0xe31,0xe31); (0xe34,0xe3a); (0xe46,0xe4e);
   (0xeb1,0xeb1); (0xeb4,0xebc); (0xec6,0xec6); (0xec8,0xecd); (0xf18,0xf19);
   (0xf35,0xf35); (0xf37,0xf37); (0xf39,0xf39); (0xf71,0xf7e); (0xf80,0xf84);
   (0xf86,0xf87); (0xf8d,0xf97); (0xf99,0xfbc); (0xfc6,0xfc6);
   (0x102d,0x1030); (0x1032,0x1037); (0x1039,0x103a); (0x103d,0x103e);
   (0x1058,0x1059); (0x105e,0x1060); (0x1071,0x1074); (0x1082,0x1082);
   (0x1085,0x1086); (0x108d,0x108d); (0x109d,0x109d); (0x10fc,0x10fc);
   (0x135d,0x135f); (0x1712,0x1714); (0x1732,0x1733); (0x1752,0x1753);
   (0x1772,0x1773); (0x17b4,0x17b5); (0x17b7,0x17bd); (0x17c6,0x17c6);
   (0x17c9,0x17d3); (0x17d7,0x17d7); (0x17dd,0x17dd); (0x180b,0x180f);
   (0x1843,0x1843); (0x1885,0x1886); (0x18a9,0x18a9); (0x1920,0x1922);
   (0x1927,0x1928); (0x1932,0x1932); (0x1939,0x193b); (0x1a17,0x1a18);
   (0x1a1b,0x1a1b); (0x1a56,0x1a56); (0x1a58,0x1a5e); (0x1a60,0x1a60);
   (0x1a62,0x1a62); (0x1a65,0x1a6c); (0x1a73,0x1a7c); (0x1a7f,0x1a7f);
   (0x1aa7,0x1aa7); (0x1ab0,0x1ace); (0x1b00,0x1b03); (0x1b34,0x1b34);
   (0x1b36,0x1b3a); (0x1b3c,0x1b3c); (0x1b42,0x1b42); (0x1b6b,0x1b73);
   (0x1b80,0x1b81); (0x1ba2,0x1ba5); (0x1ba8,0x1ba9); (0x1bab,0x1bad);
   (0x1be6,0x1be6); (0x1be8,0x1be9); (0x1bed,0x1bed); (0x1bef,0x1bf1);
   (0x1c2c,0x1c33); (0x1c36,0x1c37); (0x1c78,0x1c7d); (0x1cd0,0x1cd2);
   (0x1cd4,0x1ce0); (0x1ce2,0x1ce8); (0x1ced,0x1ced); (0x1cf4,0x1cf4);
   (0x1cf8,0x1cf9); (0x1d2c,0x1d6a); (0x1d78,0x1d78); (0x1d9b,0x1dff);
   (0x1fbd,0x1fbd); (0x1fbf,0x1fc1); (0x1fcd,0x1fcf); (0x1fdd,0x1fdf);
   (0x1fed,0x1fef); (0x1ffd,0x1ffe); (0x200b,0x200f); (0x2018,0x2019);
   (0x2024,0x2024); (0x2027,0x2027); (0x202a,0x202e); (0x2060,0x2064);
   (0x2066,0x206f); (0x2071,0x2071); (0x207f,0x207f); (0x2090,0x209c);
   (0x20d0,0x20f0); (0x2c7c,0x2c7d); (0x2cef,0x2cf1); (0x2d6f,0x2d6f);
   (0x2d7f,0x2d7f); (0x2de0,0x2dff); (0x2e2f,0x2e2f); (0x3005,0x3005);
   (0x302a,0x302d); (0x3031,0x3035); (0x303b,0x303b); (0x3099,0x309e);
   (0x30fc,0x30fe); (0xa015,0xa015); (0xa4f8,0xa4fd); (0xa60c,0xa60c);
   (0xa66f,0xa672); (0xa674,0xa67d); (0xa67f,0xa67f); (0xa69c,0xa69f);
   (0xa6f0,0xa6f1); (0xa700,0xa721); (0xa770,0xa770); (0xa788,0xa78a);
   (0xa7f2,0xa7f4); (0xa7f8,0xa7f9); (0xa802,0xa802); (0xa806,0xa806);
   (0xa80b,0xa80b); (0xa825,0xa826); (0xa82c,0xa82c); (0xa8c4,0xa8c5);
   (0xa8e0,0xa8f1); (0xa8ff,0xa8ff); (0xa926,0xa92d); (0xa947,0xa951);
   (0xa980,0xa982); (0xa9b3,0xa9b3); (0xa9b6,0xa9b9); (0xa9bc,0xa9bd);
   (0xa9cf,0xa9cf); (0xa9e5,0xa9e6); (0xaa29,0xaa2e); (0xaa31,0xaa32);
   (0xaa35,0xaa36); (0xaa43,0xaa43); (0xaa4c,0xaa4c); (0xaa70,0xaa70);
   (0xaa7c,0xaa7c); (0xaab0,0xaab0); (0xaab2,0xaab4); (0xaab7,0xaab8);
   (0xaabe,0xaabf); (0xaac1,0xaac1); (0xaadd,0xaadd); (0xaaec,0xaaed);
   (0xaaf3,0xaaf4); (0xaaf6,0xaaf6); (0xab5b,0xab5f); (0xab69,0xab6b);
   (0xabe5,0xabe5); (0xabe8,0xabe8); (0xabed,0xabed); (0xfb1e,0xfb1e);
   (0xfbb2,0xfbc2); (0xfe00,0xfe0f); (0xfe13,0xfe13); (0xfe20,0xfe2f);
   (0xfe52,0xfe52); (0xfe55,0xfe55); (0xfeff,0xfeff); (0xff07,0xff07);
   (0xff0e,0xff0e); (0xff1a,0xff1a); (0xff3e,0xff3e); (0xff40,0xff40);
   (0xff70,0xff70); (0xff9e,0xff9f); (0xffe3,0xffe3); (0xfff9,0xfffb);
   (0x101fd,0x101fd); (0x102e0,0x102e0); (0x10376,0x1037a);
   (0x10780,0x10785); (0x10787,0x107b0); (0x107b2,0x107ba);
   (0x10a01,0x10a03); (0x10a05,0x10a06); (0x10a0c,0x10a0f);
   (0x10a38,0x10a3a); (0x10a3f,0x10a3f); (0x10ae5,0x10ae6);
   (0x10d24,0x10d27); (0x10eab,0x10eac); (0x10f46,0x10f50);
   (0x10f82,0x10f85); (0x11001,0x11001); (0x11038,0x11046);
   (0x11070,0x11070); (0x11073,0x11074); (0x1107f,0x11081);
   (0x110b3,0x110b6); (0x110b9,0x110ba); (0x110bd,0x110bd);
   (0x110c2,0x110c2); (0x110cd,0x110cd); (0x11100,0x11102);
   (0x11127,0x1112b); (0x1112d,0x11134); (0x11173,0x11173);
   (0x11180,0x11181); (0x111b6,0x111be); (0x111c9,0x111cc);
   (0x111cf,0x111cf); (0x1122f,0x11231); (0x11234,0x11234);
   (0x11236,0x11237); (0x1123e,0x1123e); (0x112df,0x112df);
   (0x112e3,0x112ea); (0x11300,0x11301); (0x1133b,0x1133c);
   (0x11340,0x11340); (0x11366,0x1136c); (0x11370,0x11374);
   (0x11438,0x1143f); (0x11442,0x11444); (0x11446,0x11446);
   (0x1145e,0x1145e); (0x114b3,0x114b8); (0x114ba,0x114ba);
   (0x114bf,0x114c0); (0x114c2,0x114c3); (0x115b2,0x115b5);
   (0x115bc,0x115bd); (0x115bf,0x115c0); (0x115dc,0x115dd);
   (0x11633,0x1163a); (0x1163d,0x1163d); (0x1163f,0x11640);
   (0x116ab,0x116ab); (0x116ad,0x116ad); (0x116b0,0x116b5);
   (0x116b7,0x116b7); (0x1171d,0x1171f); (0x11722,0x11725);
   (0x11727,0x1172b); (0x1182f,0x11837); (0x11839,0x1183a);
   (0x1193b,0x1193c); (0x1193e,0x1193e); (0x11943,0x11943);
   (0x119d4,0x119d7); (0x119da,0x119db); (0x119e0,0x119e0);
   (0x11a01,0x11a0a); (0x11a33,0x11a38); (0x11a3b,0x11a3e);
   (0x11a47,0x11a47); (0x11a51,0x11a56); (0x11a59,0x11a5b);
   (0x11a8a,0x11a96); (0x11a98,0x11a99); (0x11c30,0x11c36);
   (0x11c38,0x11c3d); (0x11c3f,0x11c3f); (0x11c92,0x11ca7);
   (0x11caa,0x11cb0); (0x11cb2,0x11cb3); (0x11cb5,0x11cb6);
   (0x11d31,0x11d36); (0x11d3a,0x11d3a); (0x11d3c,0x11d3d);
   (0x11d3f,0x11d45); (0x11d47,0x11d47); (0x11d90,0x11d91);
   (0x11d95,0x11d95); (0x11d97,0x11d97); (0x11ef3,0x11ef4);
   (0x13430,0x13438); (0x16af0,0x16af4); (0x16b30,0x16b36);
   (0x16b40,0x16b43); (0x16f4f,0x16f4f); (0x16f8f,0x16f9f);
   (0x16fe0,0x16fe1); (0x16fe3,0x16fe4); (0x1aff0,0x1aff3);
   (0x1aff5,0x1affb); (0x1affd,0x1affe); (0x1bc9d,0x1bc9e);
   (0x1bca0,0x1bca3); (0x1cf00,0x1cf2d); (0x1cf30,0x1cf46);
   (0x1d167,0x1d169); (0x1d173,0x1d182); (0x1d185,0x1d18b);
   (0x1d1aa,0x1d1ad); (0x1d242,0x1d244); (0x1da00,0x1da36);
   (0x1da3b,0x1da6c); (0x1da75,0x1da75); (0x1da84,0x1da84);
   (0x1da9b,0x1da9f); (0x1daa1,0x1daaf); (0x1e000,0x1e006);
   (0x1e008,0x1e018); (0x1e01b,0x1e021); (0x1e023,0x1e024);
   (0x1e026,0x1e02a); (0x1e130,0x1e13d); (0x1e2ae,0x1e2ae);
   (0x1e2ec,0x1e2ef); (0x1e8d0,0x1e8d6); (0x1e944,0x1e94b);
   (0x1f3fb,0x1f3ff); (0xe0001,0xe0001); (0xe0020,0xe007f); (0xe0100,0xe01ef)
  ]%N.

(** [str.isspace] of one code point, which [str.strip] removes. *)
Definition isspace (c : N) : bool := existsb (N.eqb c) space_points.

Definition within (c : N) (r : N * N) : bool :=
  ((fst r <=? c) && (c <=? snd r))%N.

(** The property Cased, and the property Case_Ignorable. *)
Definition is_cased (c : N) : bool := existsb (within c) cased_table.

Definition is_case_ignorable (c : N) : bool :=
  existsb (within c) case_ignorable_table.

(** An entry [(first, last, step, image)] of [lower_table] maps [first],
    [first + step], ... up to [last] to [image], [image + step], ... *)
Definition maps (c : N) (r : N * N * N * N) : bool :=
  let '(first, last, step, _) := r in
  ((first <=? c) && (c <=? last) && ((c - first) mod step =? 0))%N.

Definition image (c : N) (r : N * N * N * N) : N :=
  let '(first, _, _, img) := r in (img + (c - first))%N.

(** The simple lower-case mapping of a code point. *)
Definition to_lower (c : N) : N :=
  match find (maps c) lower_table with
  | Some r => image c r
  | None => c
  end.

(** The full lower-case mapping: U+0130 alone becomes two code points. *)
Definition to_lower_full (c : N) : list N :=
  if (c =? 0x130)%N then [0x69; 0x307]%N else [to_lower c].

(** *** [str.lower] *)

Fixpoint skip_ignorable (l : list N) : list N :=
  match l with
  | [] => []
  | c :: l' => if is_case_ignorable c then skip_ignorable l' else l
  end.

(** Whether a capital sigma stands at the end of a word: the code points
    [before] it (the nearest first) reach a cased one through case-ignorable
    ones, and the code points [after] it do not. *)
Definition final_sigma (before after : list N) : bool :=
  match skip_ignorable before with
  | [] => false
  | c :: _ =>
      is_cased c
      && match skip_ignorable after with
         | [] => true
         | d :: _ => negb (is_cased d)
         end
  end.

(** The lowering of [l], which stands after [before] (the nearest first). *)
Fixpoint lower_from (before l : list N) : list N :=
  match l with
  | [] => []
  | c :: l' =>
      (if (c =? 0x3a3)%N
       then [if final_sigma before l' then 0x3c2%N else 0x3c3%N]
       else to_lower_full c)
      ++ lower_from (c :: before) l'
  end.

Definition lower_points (l : list N) : list N := lower_from [] l.

(** *** [str.strip] *)

Fixpoint lstrip (l : list N) : list N :=
  match l with
  | [] => []
  | c :: l' => if isspace c then lstrip l' else l
  end.

Fixpoint rstrip (l : list N) : list N :=
  match l with
  | [] => []
  | c :: l' =>
      match rstrip l' with
      | [] => if isspace c then [] else [c]
      | r => c :: r
      end
  end.

(** The white space of both ends is removed. *)
Definition strip_points (l : list N) : list N := rstrip (lstrip l).

(** *** On strings *)

(** [s.strip()]. *)
Definition strip (s : string) : string := encode (strip_points (decode s)).

(** [s.lower()]. *)
Definition lower (s : string) : string := encode (lower_points (decode s)).

(** [s.strip().lower()], the key under which every handler looks a name up. *)
Definition normalize (s : string) : string := lower (strip s).

(** Python truthiness of an optional string field: [None] and [""] are falsy. *)
Definition truthy (o : option string) : bool :=
  match o with
  | Some (String _ _) => true
  | _ => false
  end.

(** *** Notions for reasoning about [strip] and [lower] *)

(** A code point that four bytes can carry. *)
Definition valid (c : N) : Prop := (c < 2097152)%N.

(** The code points that an entry maps. *)
Definition points (r : N * N * N * N) : list N :=
  let '(first, last, step, _) := r in
  map (fun k => (first + N.of_nat k * step)%N)
    (seq 0 (S (N.to_nat ((last - first) / step)))).

(** A code point as [str.lower] leaves it: it is no capital sigma and is its
    own lower case. *)
Definition settled (d : N) : bool :=
  negb (d =? 0x3a3)%N && negb (d =? 0x130)%N
  && match find (maps d) lower_table with Some _ => false | None => true end.

Definition sound_entry (r : N * N * N * N) : bool :=
  forallb (fun c => settled (image c r) && negb (isspace (image c r))
                    && (image c r <? 2097152)%N)
    (points r).

Definition stable (d : N) : Prop :=
  (d =? 0x3a3)%N = false /\ to_lower_full d = [d].

(** The piece of [str.lower] for one code point. *)
Definition piece (c : N) (before after : list N) : list N :=
  if (c =? 0x3a3)%N
  then [if final_sigma before after then 0x3c2%N else 0x3c3%N]
  else to_lower_full c.

Definition normalize_points (l : list N) : list N :=
  lower_points (strip_points l).

End PyStr.

Arguments PyStr.isspace : simpl never.
Arguments PyStr.to_lower_full : simpl never.
Arguments PyStr.final_sigma : simpl never.

(** ** Collaborators

    [bson.ObjectId] is a third-party type.  The handlers use it three ways:
    the store hands out a new identifier at each [insert_one], [str] prints
    one, and [ObjectId(s)] reads one back, raising [InvalidId] on a string
    that is not the print of an identifier.  [new_oid l] is the identifier
    given to a document inserted into a collection whose identifiers are
    [l]. *)
Class Bson := {
  oid : Type;
  oid_eqb : oid -> oid -> bool;
  oid_eqb_eq : forall x y, oid_eqb x y = true <-> x = y;
  str_oid : oid -> string;
  ObjectId : string -> option oid;
  ObjectId_str : forall o, ObjectId (str_oid o) = Some o;
  new_oid : list oid -> oid;
  new_oid_fresh : forall l, ~ In (new_oid l) l
}.

(** The modules [app.utils] and [app.db] are imported by the router and are
    taken as parameters: the credential store's [hash_password] and the
    three operations of the collection provisioner, which act on the store's
    namespace of tenant collections.  Their calls, like those of the store,
    are taken to return: a failure of the backing store is not modelled. *)
Class Collaborators := {
  hash_password : string -> string;
  tenants : Type;
  create_org_collection : string -> tenants -> tenants;
  drop_org_collection : string -> tenants -> tenants;
  rename_and_sync_collection : string -> string -> tenants -> tenants
}.

(** ** Documents, payloads and responses *)

(** A document of [db.admins]. *)
Module Admin.
Record doc `{Bson} := {
  _id : oid;
  email : string;
  password : string;
  role : string;
  organization : string
}.
End Admin.

(** A document of [db.organizations]; [admin_id] holds [str(res.inserted_id)]. *)
Module Org.
Record doc `{Bson} := {
  _id : oid;
  organization_name : string;
  collection_name : string;
  admin_id : string;
  created_at : N
}.
End Org.

(** The request body of [POST /org/create]. *)
Module OrgCreate.
Record t := {
  organization_name : string;
  email : string;
  password : string
}.
End OrgCreate.

(** Modelled from the spec: the request body of [PUT /org/update], declared in
    [app.models], which is not among the sources.  The interface table gives
    its three fields as optional, so each may be [None]. *)
Module OrgUpdate.
Record t := {
  organization_name : option string;
  email : option string;
  password : option string
}.
End OrgUpdate.

(** What the Auth collaborator resolves the caller's token into. *)
Module CurrentAdmin.
Record t := {
  admin_id : string;
  org_id : string
}.
End CurrentAdmin.

(** The dictionary returned by [create_org]. *)
Module OrgOut.
Record t := {
  organization_name : string;
  collection_name : string;
  admin_id : string
}.
End OrgOut.

(** An organization document after [org["_id"] = str(org["_id"])], as [get_org]
    and [update_org] return it. *)
Module OrgView.
Record t := {
  _id : string;
  organization_name : string;
  collection_name : string;
  admin_id : string;
  created_at : N
}.
End OrgView.

(** The body of a successful [delete_org]: [{"status": "deleted"}]. *)
Module Deleted.
Record t := { status : string }.
End Deleted.

(** Exceptions that leave a handler; [HTTPException] carries the response
    status, the other three become a 500. *)
Inductive exn :=
| HTTPException (status_code : nat) (detail : string)
| AttributeError
| InvalidId
| TypeError.

(** ** Updating the first match of a collection *)

Fixpoint update_first {A : Type} (p : A -> bool) (f : A -> A) (l : list A)
  : list A :=
  match l with
  | [] => []
  | x :: l' => if p x then f x :: l' else x :: update_first p f l'
  end.

Fixpoint delete_first {A : Type} (p : A -> bool) (l : list A) : list A :=
  match l with
  | [] => []
  | x :: l' => if p x then l' else x :: delete_first p l'
  end.

Section Router.

Context {bson : Bson} {collab : Collaborators}.

(** ** The document store *)

(** A write issued to the store.  The store keeps them in a log, oldest
    first, so that the order of a handler's side effects can be stated. *)
Inductive write :=
| CreateCollection (org_name : string)
| DropCollection (org_name : string)
| RenameAndSync (old_name new_name : string)
| InsertAdmin (d : Admin.doc)
| InsertOrg (d : Org.doc)
| SetOrgNames (id : oid) (organization_name collection_name : string)
| SetAdminOrganization (id : oid) (organization : string)
| SetAdminEmail (id : oid) (email : string)
| SetAdminPassword (id : oid) (password : string)
| DeleteAdmin (id : oid)
| DeleteOrg (organization_name : string).

(** [db.organizations] and [db.admins] in their natural order, the tenant
    collections, and the log of writes. *)
Record store := {
  organizations : list Org.doc;
  admins : list Admin.doc;
  collections : tenants;
  log : list write
}.

(** ** State and exceptions *)

Definition M (A : Type) : Type := store -> (exn + A) * store.

Definition ret {A} (a : A) : M A := fun s => (inr a, s).

Definition raise {A} (e : exn) : M A := fun s => (inl e, s).

Definition bind {A B} (m : M A) (k : A -> M B) : M B :=
  fun s =>
    match m s with
    | (inl e, s') => (inl e, s')
    | (inr a, s') => k a s'
    end.

Notation "x <- m ;; k" := (bind m (fun x => k))
  (at level 61, m at next level, right associativity).
Notation "m ;;; k" := (bind m (fun _ => k))
  (at level 61, right associativity).

Definition when (b : bool) (m : M unit) : M unit :=
  if b then m else ret tt.

(** ** Store primitives *)

Definition name_is (n : string) (d : Org.doc) : bool :=
  String.eqb (Org.organization_name d) n.

Definition org_id_is (i : oid) (d : Org.doc) : bool := oid_eqb (Org._id d) i.

Definition admin_id_is (i : oid) (d : Admin.doc) : bool :=
  oid_eqb (Admin._id d) i.

(** [db.organizations.find_one({"organization_name": n})]. *)
Definition find_org (n : string) : M (option Org.doc) :=
  fun s => (inr (find (name_is n) (organizations s)), s).

(** [db.admins.insert_one(doc)]: the store gives the document a new [_id]
    and returns it as [res.inserted_id]. *)
Definition insert_admin (email password role organization : string) : M oid :=
  fun s =>
    let i := new_oid (map Admin._id (admins s)) in
    let d := Admin.Build_doc _ i email password role organization in
    (inr i, {| organizations := organizations s;
               admins := admins s ++ [d];
               collections := collections s;
               log := log s ++ [InsertAdmin d] |}).

(** A [datetime] is its count of microseconds.  The store keeps a [datetime]
    to the millisecond: what it holds, and gives back, is the value that was
    written cut to the millisecond. *)
Definition to_milliseconds (t : N) : N := (t / 1000 * 1000)%N.

(** An organization document as the store holds it. *)
Definition as_stored (d : Org.doc) : Org.doc :=
  Org.Build_doc _ (Org._id d) (Org.organization_name d)
    (Org.collection_name d) (Org.admin_id d)
    (to_milliseconds (Org.created_at d)).

(** [db.organizations.insert_one(doc)].  The write carries the document as
    the handler built it; the collection receives it as the store holds
    it. *)
Definition insert_org (organization_name collection_name admin_id : string)
  (created_at : N) : M oid :=
  fun s =>
    let i := new_oid (map Org._id (organizations s)) in
    let d := Org.Build_doc _ i organization_name collection_name admin_id
               created_at in
    (inr i, {| organizations := organizations s ++ [as_stored d];
               admins := admins s;
               collections := collections s;
               log := log s ++ [InsertOrg d] |}).

Definition set_org_names (n c : string) (d : Org.doc) : Org.doc :=
  Org.Build_doc _ (Org._id d) n c (Org.admin_id d) (Org.created_at d).

Definition set_admin_organization (n : string) (d : Admin.doc) : Admin.doc :=
  Admin.Build_doc _ (Admin._id d) (Admin.email d) (Admin.password d)
    (Admin.role d) n.

Definition set_admin_email (e : string) (d : Admin.doc) : Admin.doc :=
  Admin.Build_doc _ (Admin._id d) e (Admin.password d) (Admin.role d)
    (Admin.organization d).

Definition set_admin_password (h : string) (d : Admin.doc) : Admin.doc :=
  Admin.Build_doc _ (Admin._id d) (Admin.email d) h (Admin.role d)
    (Admin.organization d).

(** [db.organizations.update_one({"_id": i}, {"$set": {...}})]. *)
Definition update_org_names (i : oid) (n c : string) : M unit :=
  fun s =>
    (inr tt, {| organizations :=
                  update_first (org_id_is i) (set_org_names n c)
                    (organizations s);
                admins := admins s;
                collections := collections s;
                log := log s ++ [SetOrgNames i n c] |}).

(** [db.admins.update_one({"_id": i}, {"$set": ...})], for the field that
    [w] names. *)
Definition update_admin (i : oid) (f : Admin.doc -> Admin.doc) (w : write)
  : M unit :=
  fun s =>
    (inr tt, {| organizations := organizations s;
                admins := update_first (admin_id_is i) f (admins s);
                collections := collections s;
                log := log s ++ [w] |}).

(** [db.admins.delete_one({"_id": i})]. *)
Definition delete_admin (i : oid) : M unit :=
  fun s =>
    (inr tt, {| organizations := organizations s;
                admins := delete_first (admin_id_is i) (admins s);
                collections := collections s;
                log := log s ++ [DeleteAdmin i] |}).

(** [db.organizations.delete_one({"organization_name": n})]. *)
Definition delete_org_named (n : string) : M unit :=
  fun s =>
    (inr tt, {| organizations := delete_first (name_is n) (organizations s);
                admins := admins s;
                collections := collections s;
                log := log s ++ [DeleteOrg n] |}).

(** A call of the collection provisioner. *)
Definition provision (f : tenants -> tenants) (w : write) : M unit :=
  fun s =>
    (inr tt, {| organizations := organizations s;
                admins := admins s;
                collections := f (collections s);
                log := log s ++ [w] |}).

(** [ObjectId(s)], which raises [InvalidId]. *)
Definition to_oid (s : string) : M oid :=
  match ObjectId s with
  | Some i => ret i
  | None => raise InvalidId
  end.

(** [org["_id"] = str(org["_id"])]; [admin_id] is a string already. *)
Definition view (d : Org.doc) : OrgView.t :=
  {| OrgView._id := str_oid (Org._id d);
     OrgView.organization_name := Org.organization_name d;
     OrgView.collection_name := Org.collection_name d;
     OrgView.admin_id := Org.admin_id d;
     OrgView.created_at := Org.created_at d |}.

(** ** The handlers *)

Import PyStr.

(** [POST /org/create].  [utcnow] is the reading of [datetime.utcnow()], in
    microseconds. *)
Definition create_org (utcnow : N) (payload : OrgCreate.t) : M OrgOut.t :=
  let org_name := normalize (OrgCreate.organization_name payload) in
  existing <- find_org org_name ;;
  match existing with
  | Some _ => raise (HTTPException 400 "Organization already exists")
  | None =>
      let collection_name := "org_" ++ org_name in
      provision (create_org_collection org_name) (CreateCollection org_name) ;;;
      inserted_id <- insert_admin (OrgCreate.email payload)
                       (hash_password (OrgCreate.password payload))
                       "admin" org_name ;;
      insert_org org_name collection_name (str_oid inserted_id) utcnow ;;;
      ret {| OrgOut.organization_name := org_name;
             OrgOut.collection_name := collection_name;
             OrgOut.admin_id := str_oid inserted_id |}
  end.

(** [GET /org/get]. *)
Definition get_org (organization_name : string) : M OrgView.t :=
  org <- find_org (normalize organization_name) ;;
  match org with
  | None => raise (HTTPException 404 "Organization not found")
  | Some org => ret (view org)
  end.

(** The value of an optional field where the handler has tested it. *)
Definition field (o : option string) : string :=
  match o with
  | Some v => v
  | None => ""
  end.

(** Step 3 of [update_org], the rename; it returns the name under which the
    record is read back. *)
Definition rename_org (org : Org.doc) (target_org_name new_org_name : string)
  (current_admin : CurrentAdmin.t) : M string :=
  if negb (String.eqb new_org_name target_org_name) then
    existing <- find_org new_org_name ;;
    match existing with
    | Some _ =>
        raise (HTTPException 400 "New organization name already exists")
    | None =>
        let new_collection_name := "org_" ++ new_org_name in
        update_org_names (Org._id org) new_org_name new_collection_name ;;;
        i <- to_oid (CurrentAdmin.admin_id current_admin) ;;
        update_admin i (set_admin_organization new_org_name)
          (SetAdminOrganization i new_org_name) ;;;
        provision (rename_and_sync_collection target_org_name new_org_name)
          (RenameAndSync target_org_name new_org_name) ;;;
        ret new_org_name
    end
  else ret target_org_name.

(** Step 4 of [update_org], the admin's e-mail and password. *)
Definition update_credentials (payload : OrgUpdate.t)
  (current_admin : CurrentAdmin.t) : M unit :=
  when (truthy (OrgUpdate.email payload)
        || truthy (OrgUpdate.password payload))
    (when (truthy (OrgUpdate.email payload))
       (i <- to_oid (CurrentAdmin.admin_id current_admin) ;;
        update_admin i (set_admin_email (field (OrgUpdate.email payload)))
          (SetAdminEmail i (field (OrgUpdate.email payload)))) ;;;
     when (truthy (OrgUpdate.password payload))
       (i <- to_oid (CurrentAdmin.admin_id current_admin) ;;
        update_admin i
          (set_admin_password
             (hash_password (field (OrgUpdate.password payload))))
          (SetAdminPassword i
             (hash_password (field (OrgUpdate.password payload)))))).

(** [PUT /org/update].  [payload.organization_name.strip()] is an attribute
    access on the field: on [None] it raises [AttributeError]. *)
Definition update_org (payload : OrgUpdate.t) (current_admin : CurrentAdmin.t)
  : M OrgView.t :=
  let target_org_name := CurrentAdmin.org_id current_admin in
  org <- find_org target_org_name ;;
  match org with
  | None => raise (HTTPException 404 "Organization not found")
  | Some org =>
      match OrgUpdate.organization_name payload with
      | None => raise AttributeError
      | Some organization_name =>
          let new_org_name := normalize organization_name in
          target_org_name <- rename_org org target_org_name new_org_name
                               current_admin ;;
          update_credentials payload current_admin ;;;
          updated_org <- find_org target_org_name ;;
          match updated_org with
          | None => raise TypeError
          | Some updated_org => ret (view updated_org)
          end
      end
  end.

(** [DELETE /org/delete]. *)
Definition delete_org (organization_name : string)
  (current_admin : CurrentAdmin.t) : M Deleted.t :=
  if negb (String.eqb (CurrentAdmin.org_id current_admin)
             (normalize organization_name))
  then raise (HTTPException 403
                "You are not authorized to delete this organization")
  else
    let org_name := normalize organization_name in
    org <- find_org org_name ;;
    match org with
    | None => raise (HTTPException 404 "Organization not found")
    | Some org =>
        provision (drop_org_collection org_name) (DropCollection org_name) ;;;
        i <- to_oid (Org.admin_id org) ;;
        delete_admin i ;;;
        delete_org_named org_name ;;;
        ret {| Deleted.status := "deleted" |}
    end.

(** ** Requests and the states they reach *)

Inductive request :=
| Create (utcnow : N) (payload : OrgCreate.t)
| Get (organization_name : string)
| Update (payload : OrgUpdate.t) (current_admin : CurrentAdmin.t)
| Delete (organization_name : string) (current_admin : CurrentAdmin.t).

(** The store after a request was served, whatever the response. *)
Definition serve (s : store) (r : request) : store :=
  match r with
  | Create utcnow payload => snd (create_org utcnow payload s)
  | Get n => snd (get_org n s)
  | Update payload a => snd (update_org payload a s)
  | Delete n a => snd (delete_org n a s)
  end.

(** A store with no organization and no admin. *)
Definition blank (t : tenants) : store :=
  {| organizations := []; admins := []; collections := t; log := [] |}.

(** The stores that a sequence of requests builds from a blank one. *)
Definition reachable (s : store) : Prop :=
  exists t rs, s = fold_left serve rs (blank t).

(** ** The credential step, as one rewrite of the caller's admin document *)

(** What step 4 of [update_org] makes of the admin document it matches. *)
Definition credentials_of (payload : OrgUpdate.t) (d : Admin.doc) : Admin.doc :=
  let d1 := if truthy (OrgUpdate.email payload)
            then set_admin_email (field (OrgUpdate.email payload)) d else d in
  if truthy (OrgUpdate.password payload)
  then set_admin_password
         (hash_password (field (OrgUpdate.password payload))) d1
  else d1.

(** The writes that step 4 issues for the admin [i], in order. *)
Definition credential_writes (payload : OrgUpdate.t) (i : oid) : list write :=
  (if truthy (OrgUpdate.email payload)
   then [SetAdminEmail i (field (OrgUpdate.email payload))] else [])
  ++ (if truthy (OrgUpdate.password payload)
      then [SetAdminPassword i
              (hash_password (field (OrgUpdate.password payload)))]
      else []).

(** ** The invariant of the store *)

(** [collection_name] is the derived form of [organization_name]. *)
Definition derived_name (d : Org.doc) : Prop :=
  Org.collection_name d = "org_" ++ Org.organization_name d.

Definition normal_name (d : Org.doc) : Prop :=
  normalize (Org.organization_name d) = Org.organization_name d.

(** [admin_id] is the print of the [_id] of a stored admin. *)
Definition admin_ref (ids : list oid) (d : Org.doc) : Prop :=
  exists i, Org.admin_id d = str_oid i /\ In i ids.

(** Identifiers are unique in each collection, as the store has it; names are
    unique, normalized, and give the collection name; and each organization
    refers to an admin of its own. *)
Record consistent (s : store) : Prop := {
  unique_org_ids : NoDup (map Org._id (organizations s));
  unique_admin_ids : NoDup (map Admin._id (admins s));
  unique_names : NoDup (map Org.organization_name (organizations s));
  normal_names : Forall normal_name (organizations s);
  derived_names : Forall derived_name (organizations s);
  admin_refs : Forall (admin_ref (map Admin._id (admins s))) (organizations s);
  unique_admin_refs : NoDup (map Org.admin_id (organizations s))
}.


(** ** Further notions for stating what the handlers keep *)

(** A name made of white space only. *)
Definition blank_name (n : string) : Prop :=
  forall c, In c (decode n) -> isspace c = true.

(** An admin document as create writes it: role ["admin"], and a password
    that came out of [hash_password]. *)
Definition proper_admin (a : Admin.doc) : Prop :=
  Admin.role a = "admin" /\ exists p, Admin.password a = hash_password p.

(** The admin that [db.admins.find_one({"_id": ObjectId(d["admin_id"])})]
    finds for an organization [d]. *)
Definition admin_of (s : store) (d : Org.doc) : option Admin.doc :=
  match ObjectId (Org.admin_id d) with
  | Some i => find (admin_id_is i) (admins s)
  | None => None
  end.

(** Every organization's admin names it in its [organization] field. *)
Definition back_referenced (s : store) : Prop :=
  forall d a,
    In d (organizations s) -> admin_of s d = Some a ->
    Admin.organization a = Org.organization_name d.

(** The caller of an update is the admin of the organization that its
    [org_id] names, when there is one. *)
Definition own_admin (s : store) (r : request) : Prop :=
  match r with
  | Update _ current_admin =>
      forall org,
        find (name_is (CurrentAdmin.org_id current_admin)) (organizations s)
        = Some org ->
        CurrentAdmin.admin_id current_admin = Org.admin_id org
  | _ => True
  end.

(** A sequence of requests, served from [s], whose updates all come from the
    admin of the organization they update. *)
Fixpoint own_admins (s : store) (rs : list request) : Prop :=
  match rs with
  | [] => True
  | r :: rs' => own_admin s r /\ own_admins (serve s r) rs'
  end.

End Router.

(** ** A model of the collaborators, for running the handlers *)
Module Sample.

(** Identifiers are numbers, printed in hexadecimal; [ObjectId] accepts the
    strings that are such a print, and a new identifier is above all the
    identifiers of the collection. *)
Definition ObjectId (s : string) : option N :=
  if String.eqb (HexString.of_N (HexString.to_N s)) s
  then Some (HexString.to_N s) else None.

Definition new_oid (l : list N) : N := N.succ (fold_right N.max 0%N l).

Lemma read_print (o : N) : ObjectId (HexString.of_N o) = Some o.
Proof.
  unfold ObjectId. rewrite HexString.to_N_of_N, String.eqb_refl. reflexivity.
Qed.

Lemma new_oid_above (l : list N) : ~ In (new_oid l) l.
Proof.
  assert (B : forall x, In x l -> (x <= fold_right N.max 0 l)%N).
  { induction l as [|y l IH]; cbn; [tauto|].
    intros x [->|H]; [lia | specialize (IH x H); lia]. }
  intros H. apply B in H. unfold new_oid in H. lia.
Qed.

Definition bson : Bson :=
  Build_Bson N N.eqb N.eqb_eq HexString.of_N ObjectId read_print
    new_oid new_oid_above.

(** The tenant collections: each under its name, with its documents. *)
Definition namespace : Type := list (string * list string).

Definition named (c : string) (e : string * list string) : bool :=
  String.eqb (fst e) c.

(** Modelled from the spec: [create_org_collection] of [app.db], which is not
    among the sources.  The provisioner's [create(name)] acts on the
    collection keyed by ["org_" + name]. *)
Definition create_org_collection (n : string) (t : namespace) : namespace :=
  if existsb (named ("org_" ++ n)) t then t
  else (t ++ [(("org_" ++ n)%string, [])])%list.

(** Modelled from the spec: [drop_org_collection] of [app.db], the
    provisioner's [drop(name)]. *)
Definition drop_org_collection (n : string) (t : namespace) : namespace :=
  filter (fun e => negb (named ("org_" ++ n) e)) t.

(** Modelled from the spec: [rename_and_sync_collection] of [app.db], the
    provisioner's [rename_and_sync(old_name, new_name)]: the data is copied
    under the new derived name, and the old collection is not dropped. *)
Definition rename_and_sync_collection (old_name new_name : string)
  (t : namespace) : namespace :=
  let data := match find (named ("org_" ++ old_name)) t with
              | Some e => snd e
              | None => []
              end in
  (filter (fun e => negb (named ("org_" ++ new_name) e)) t
     ++ [(("org_" ++ new_name)%string, data)])%list.

(** Modelled from the spec: [hash_password] of [app.utils], the credential
    store's [hash(plaintext)].  Only its being a function of the plaintext
    matters to the router; this one marks the plaintext. *)
Definition hash_password (plaintext : string) : string := "$2b$" ++ plaintext.

Definition collab : Collaborators :=
  Build_Collaborators hash_password namespace create_org_collection
    drop_org_collection rename_and_sync_collection.

Definition create_org := @create_org bson collab.
Definition get_org := @get_org bson collab.
Definition update_org := @update_org bson collab.
Definition delete_org := @delete_org bson collab.
Definition blank : store := @blank bson collab [].

(** The store after [create("  Acme ", "a@x.com", "pw1")] on a blank one. *)
Definition acme : store :=
  snd (create_org 7 (OrgCreate.Build_t "  Acme " "a@x.com" "pw1") blank).

(** The caller that the Auth collaborator resolves Acme's admin into. *)
Definition acme_admin : CurrentAdmin.t :=
  {| CurrentAdmin.admin_id := "0x1"; CurrentAdmin.org_id := "acme" |}.

(** The organization document of [acme]: the reading 7 microseconds, kept
    to the millisecond. *)
Definition acme_org : @Org.doc bson :=
  @Org.Build_doc bson 1%N "acme" "org_acme" "0x1" 0%N.

(** The request that builds [acme]. *)
Definition acme_request : request :=
  Create 7 (OrgCreate.Build_t "  Acme " "a@x.com" "pw1").

(** A rename of Acme to ["acme2"], an update of its admin's password under
    the name it has, and a password update that leaves the name out. *)
Definition to_acme2 : OrgUpdate.t :=
  {| OrgUpdate.organization_name := Some " Acme2 ";
     OrgUpdate.email := None;
     OrgUpdate.password := None |}.

Definition new_password : OrgUpdate.t :=
  {| OrgUpdate.organization_name := Some "ACME";
     OrgUpdate.email := None;
     OrgUpdate.password := Some "newpw" |}.

Definition password_only : OrgUpdate.t :=
  {| OrgUpdate.organization_name := None;
     OrgUpdate.email := None;
     OrgUpdate.password := Some "newpw" |}.

(** Acme's admin after the rename to ["acme2"], a caller whose admin
    identifier is not the print of one, and a caller of no stored
    organization. *)
Definition acme2_admin : CurrentAdmin.t :=
  {| CurrentAdmin.admin_id := "0x1"; CurrentAdmin.org_id := "acme2" |}.

Definition odd_admin : CurrentAdmin.t :=
  {| CurrentAdmin.admin_id := "zz"; CurrentAdmin.org_id := "acme" |}.

Definition ghost_admin : CurrentAdmin.t :=
  {| CurrentAdmin.admin_id := "0x9"; CurrentAdmin.org_id := "ghost" |}.

(** The rename back to ["acme"], and an update that changes nothing. *)
Definition to_acme : OrgUpdate.t :=
  {| OrgUpdate.organization_name := Some "ACME";
     OrgUpdate.email := None;
     OrgUpdate.password := None |}.

Definition nothing_new : OrgUpdate.t :=
  {| OrgUpdate.organization_name := Some " Acme";
     OrgUpdate.email := Some "";
     OrgUpdate.password := None |}.

(** The store after [create("Globex", "g@x.com", "pw3")] on [acme], and
    Globex's document in it. *)
Definition globex_request : request :=
  Create 9 (OrgCreate.Build_t "Globex" "g@x.com" "pw3").

Definition two : store := @serve bson collab acme globex_request.

Definition globex_org : @Org.doc bson :=
  @Org.Build_doc bson 2%N "globex" "org_globex" "0x2" 0%N.

End Sample.

(** * Properties *)

Section Properties.

Context {bson : Bson} {collab : Collaborators}.

Import PyStr.

(** ** Normalization *)

Ltac div_lia := zify; Z.to_euclidean_division_equations; lia.

Ltac tests :=
  unfold continues;
  repeat match goal with
         | |- context [(?a <? ?b)%N] => destruct (N.ltb_spec a b); try lia
         | |- context [(?a <=? ?b)%N] => destruct (N.leb_spec a b); try lia
         end;
  cbn [andb].

Lemma decode_one (b0 : N) (s : string) :
  (b0 < 128)%N -> decode (String (ascii_of_N b0) s) = b0 :: decode s.
Proof.
  intros H. cbn [decode]. rewrite N_ascii_embedding by lia. now tests.
Qed.

Lemma decode_two (b0 b1 : N) (s : string) :
  (192 <= b0 < 224)%N -> (128 <= b1 < 192)%N ->
  decode (String (ascii_of_N b0) (String (ascii_of_N b1) s))
  = ((b0 - 192) * 64 + (b1 - 128))%N :: decode s.
Proof.
  intros H0 H1. cbn [decode]. rewrite !N_ascii_embedding by lia. now tests.
Qed.

Lemma decode_three (b0 b1 b2 : N) (s : string) :
  (224 <= b0 < 240)%N -> (128 <= b1 < 192)%N -> (128 <= b2 < 192)%N ->
  decode (String (ascii_of_N b0)
            (String (ascii_of_N b1) (String (ascii_of_N b2) s)))
  = (((b0 - 224) * 64 + (b1 - 128)) * 64 + (b2 - 128))%N :: decode s.
Proof.
  intros H0 H1 H2. cbn [decode]. rewrite !N_ascii_embedding by lia.
  now tests.
Qed.

Lemma decode_four (b0 b1 b2 b3 : N) (s : string) :
  (240 <= b0 < 248)%N -> (128 <= b1 < 192)%N -> (128 <= b2 < 192)%N ->
  (128 <= b3 < 192)%N ->
  decode (String (ascii_of_N b0)
            (String (ascii_of_N b1)
               (String (ascii_of_N b2) (String (ascii_of_N b3) s))))
  = ((((b0 - 240) * 64 + (b1 - 128)) * 64 + (b2 - 128)) * 64
     + (b3 - 128))%N :: decode s.
Proof.
  intros H0 H1 H2 H3. cbn [decode]. rewrite !N_ascii_embedding by lia.
  now tests.
Qed.

(** Decoding undoes encoding. *)
Lemma decode_encode (l : list N) : Forall valid l -> decode (encode l) = l.
Proof.
  unfold valid. induction 1 as [|c l V _ IH]; [reflexivity|].
  cbn [encode].
  destruct (N.ltb_spec c 128); [|destruct (N.ltb_spec c 2048);
                                  [|destruct (N.ltb_spec c 65536)]].
  - rewrite decode_one, IH by lia. reflexivity.
  - rewrite decode_two, IH by div_lia. f_equal. div_lia.
  - rewrite decode_three, IH by div_lia. f_equal. div_lia.
  - rewrite decode_four, IH by div_lia. f_equal. div_lia.
Qed.

Lemma encode_empty (l : list N) : encode l = "" -> l = [].
Proof.
  destruct l as [|c l]; [reflexivity|]. cbn [encode].
  destruct (c <? 128)%N; [discriminate|].
  destruct (c <? 2048)%N; [discriminate|].
  destruct (c <? 65536)%N; discriminate.
Qed.

Lemma decode_valid (s : string) : Forall valid (decode s).
Proof.
  assert (G : forall n s, String.length s <= n -> Forall valid (decode s)).
  { unfold valid.
    induction n as [|n IH]; intros [|a0 s1] L; try constructor;
      cbn [String.length] in L; [lia|].
    assert (R1 : Forall valid (decode s1)) by (apply IH; lia).
    cbn [decode].
    destruct (N.ltb_spec (N_of_ascii a0) 128);
      [constructor; [unfold valid; lia|exact R1]|].
    destruct s1 as [|a1 s2]; [repeat constructor|].
    cbn [String.length] in L.
    assert (R2 : Forall valid (decode s2)) by (apply IH; lia).
    destruct (_ && _ && continues _)%bool eqn:E2.
    { constructor; [|exact R2]. unfold continues, valid in *.
      rewrite !andb_true_iff, ?N.leb_le, ?N.ltb_lt in E2. lia. }
    destruct s2 as [|a2 s3]; [constructor; [reflexivity | exact R1]|].
    cbn [String.length] in L.
    assert (R3 : Forall valid (decode s3)) by (apply IH; lia).
    destruct (_ && _ && continues _ && continues _)%bool eqn:E3.
    { constructor; [|exact R3]. unfold continues, valid in *.
      rewrite !andb_true_iff, ?N.leb_le, ?N.ltb_lt in E3. lia. }
    destruct s3 as [|a3 s4]; [constructor; [reflexivity | exact R1]|].
    cbn [String.length] in L.
    assert (R4 : Forall valid (decode s4)) by (apply IH; lia).
    destruct (_ && _ && continues _ && continues _ && continues _)%bool
      eqn:E4; [|constructor; [reflexivity | exact R1]].
    constructor; [|exact R4]. unfold continues, valid in *.
    rewrite !andb_true_iff, ?N.leb_le, ?N.ltb_lt in E4. lia. }
  now apply (G (String.length s)).
Qed.

(** *** The white space of the ends *)

Lemma lstrip_idem (l : list N) : lstrip (lstrip l) = lstrip l.
Proof.
  induction l as [|c l IH]; cbn; [reflexivity|].
  destruct (isspace c) eqn:Ec; [exact IH | cbn; now rewrite Ec].
Qed.

Lemma rstrip_idem (l : list N) : rstrip (rstrip l) = rstrip l.
Proof.
  induction l as [|c l IH]; cbn; [reflexivity|].
  destruct (rstrip l) as [|d r] eqn:E.
  - destruct (isspace c) eqn:Ec; cbn; [reflexivity | now rewrite Ec].
  - change (rstrip (c :: d :: r) = c :: d :: r).
    cbn [rstrip]. cbn [rstrip] in IH. now rewrite IH.
Qed.

Lemma lstrip_shorter (l : list N) : List.length (lstrip l) <= List.length l.
Proof.
  induction l as [|c l IH]; cbn; [lia|]. destruct (isspace c); cbn; lia.
Qed.

(** A sequence with no white space in front keeps none when its end is cut. *)
Lemma lstrip_rstrip_fixed (l : list N) :
  lstrip l = l -> lstrip (rstrip l) = rstrip l.
Proof.
  destruct l as [|c l]; cbn; [reflexivity|].
  destruct (isspace c) eqn:Ec.
  - intros H. exfalso. pose proof (lstrip_shorter l) as L.
    rewrite H in L. cbn in L. lia.
  - intros _. destruct (rstrip l); cbn; now rewrite Ec.
Qed.

Lemma strip_points_idem (l : list N) :
  strip_points (strip_points l) = strip_points l.
Proof.
  unfold strip_points.
  rewrite (lstrip_rstrip_fixed (lstrip l)) by apply lstrip_idem.
  apply rstrip_idem.
Qed.

Lemma strip_points_fixed (l : list N) :
  lstrip l = l -> rstrip l = l -> strip_points l = l.
Proof. unfold strip_points. now intros -> ->. Qed.

Lemma strip_points_edges (l : list N) :
  lstrip (strip_points l) = strip_points l
  /\ rstrip (strip_points l) = strip_points l.
Proof.
  unfold strip_points. split.
  - apply lstrip_rstrip_fixed, lstrip_idem.
  - apply rstrip_idem.
Qed.

Lemma Forall_lstrip (P : N -> Prop) (l : list N) :
  Forall P l -> Forall P (lstrip l).
Proof.
  induction 1 as [|c l Pc Pl IH]; cbn; [constructor|].
  destruct (isspace c); [exact IH | now constructor].
Qed.

Lemma Forall_rstrip (P : N -> Prop) (l : list N) :
  Forall P l -> Forall P (rstrip l).
Proof.
  induction 1 as [|c l Pc Pl IH]; cbn; [constructor|].
  destruct (rstrip l); [destruct (isspace c); repeat constructor; exact Pc|].
  now constructor.
Qed.

Lemma Forall_strip_points (P : N -> Prop) (l : list N) :
  Forall P l -> Forall P (strip_points l).
Proof. intros H. now apply Forall_rstrip, Forall_lstrip. Qed.

(** A sequence of no white space is its own [rstrip]. *)
Lemma rstrip_solid (l : list N) :
  Forall (fun c => isspace c = false) l -> rstrip l = l.
Proof.
  induction 1 as [|c l Pc Pl IH]; cbn; [reflexivity|].
  rewrite IH, Pc. now destruct l.
Qed.

Lemma rstrip_app (a b : list N) :
  rstrip b = b -> b <> [] -> rstrip (a ++ b)%list = (a ++ b)%list.
Proof.
  intros H N. induction a as [|c a IH]; cbn; [exact H|].
  rewrite IH. destruct (a ++ b)%list eqn:E; [|reflexivity].
  apply app_eq_nil in E. now destruct E.
Qed.

(** *** The lower-case table *)

Lemma lower_table_sound : forallb sound_entry lower_table = true.
Proof. vm_compute. reflexivity. Qed.

Lemma maps_points (c : N) (r : N * N * N * N) :
  maps c r = true -> In c (points r).
Proof.
  destruct r as [[[first last] step] img]. unfold maps, points.
  rewrite !andb_true_iff, !N.leb_le, N.eqb_eq. intros [[H1 H2] H3].
  apply in_map_iff. exists (N.to_nat ((c - first) / step)). split.
  - rewrite N2Nat.id.
    pose proof (N.Div0.div_mod (c - first) step) as D. rewrite H3 in D.
    clear H3. generalize dependent ((c - first) / step)%N. intros q D. nia.
  - apply in_seq. split; [apply Nat.le_0_l|].
    assert ((c - first) / step <= (last - first) / step)%N as Q
      by (apply N.Div0.div_le_mono; lia).
    clear H3. generalize dependent ((c - first) / step)%N.
    generalize dependent ((last - first) / step)%N. intros; lia.
Qed.

Lemma settled_stable (d : N) : settled d = true -> stable d.
Proof.
  unfold settled, stable, to_lower_full, to_lower.
  rewrite !andb_true_iff, !negb_true_iff. intros [[H1 H2] H3].
  rewrite H1, H2. split; [reflexivity|].
  now destruct (find (maps d) lower_table).
Qed.

(** What [to_lower] makes of a code point that is no capital sigma and not
    U+0130. *)
Lemma to_lower_sound (c : N) :
  (c =? 0x3a3)%N = false -> (c =? 0x130)%N = false ->
  stable (to_lower c)
  /\ (isspace c = false -> isspace (to_lower c) = false)
  /\ (valid c -> valid (to_lower c)).
Proof.
  intros S3 S1. unfold to_lower.
  destruct (find (maps c) lower_table) as [r|] eqn:F.
  - apply find_some in F. destruct F as [I M].
    pose proof lower_table_sound as T. rewrite forallb_forall in T.
    specialize (T r I). unfold sound_entry in T. rewrite forallb_forall in T.
    specialize (T c (maps_points c r M)).
    rewrite !andb_true_iff, negb_true_iff, N.ltb_lt in T.
    destruct T as [[T1 T2] T3].
    split; [now apply settled_stable|]. split; [now intros _ | now intros _].
  - split; [|now split].
    unfold stable, to_lower_full, to_lower. now rewrite S3, S1, F.
Qed.

Lemma piece_sound (c : N) (before after : list N) :
  Forall stable (piece c before after)
  /\ piece c before after <> []
  /\ (isspace c = false ->
      Forall (fun d => isspace d = false) (piece c before after))
  /\ (valid c -> Forall valid (piece c before after)).
Proof.
  unfold piece. destruct (c =? 0x3a3)%N eqn:S3.
  - destruct (final_sigma before after);
      (split; [repeat constructor|]); (split; [discriminate|]);
      split; intros _; repeat constructor.
  - unfold to_lower_full. destruct (c =? 0x130)%N eqn:S1.
    + split; [repeat constructor|]. split; [discriminate|].
      split; intros _; repeat constructor.
    + destruct (to_lower_sound c S3 S1) as [T1 [T2 T3]].
      split; [constructor; [exact T1 | constructor]|].
      split; [discriminate|].
      split; intros H; (constructor; [auto | constructor]).
Qed.

Lemma lower_from_cons (c : N) (before l : list N) :
  lower_from before (c :: l)
  = (piece c before l ++ lower_from (c :: before) l)%list.
Proof. reflexivity. Qed.

Lemma lower_from_stable (before l : list N) :
  Forall stable l -> lower_from before l = l.
Proof.
  intros H. revert before.
  induction H as [|d l [S3 Sd] _ IH]; intros before; [reflexivity|].
  rewrite lower_from_cons. unfold piece. now rewrite S3, Sd, IH.
Qed.

Lemma lower_from_sound (before l : list N) :
  Forall stable (lower_from before l)
  /\ (Forall valid l -> Forall valid (lower_from before l))
  /\ (lower_from before l = [] -> l = []).
Proof.
  revert before. induction l as [|c l IH]; intros before;
    [repeat split; constructor|].
  rewrite lower_from_cons.
  destruct (piece_sound c before l) as [P1 [P2 [_ P4]]].
  destruct (IH (c :: before)) as [I1 [I2 _]].
  split; [now apply Forall_app|]. split.
  - intros V. inversion V; subst. apply Forall_app. auto.
  - intros E. apply app_eq_nil in E. now destruct E.
Qed.

(** Lowering puts no white space at an end that has none. *)
Lemma lower_from_edges (before l : list N) :
  lstrip l = l -> rstrip l = l ->
  lstrip (lower_from before l) = lower_from before l
  /\ rstrip (lower_from before l) = lower_from before l.
Proof.
  intros Hl Hr. split.
  - destruct l as [|c l]; [reflexivity|]. cbn in Hl.
    destruct (isspace c) eqn:Ec.
    { exfalso. pose proof (lstrip_shorter l) as L. rewrite Hl in L.
      cbn in L. lia. }
    rewrite lower_from_cons.
    destruct (piece_sound c before l) as [_ [P2 [P3 _]]].
    specialize (P3 Ec). destruct (piece c before l) as [|d p]; [easy|].
    inversion P3; subst. cbn. now rewrite H1.
  - clear Hl. revert before Hr.
    induction l as [|c l IH]; intros before Hr; [reflexivity|].
    rewrite lower_from_cons. cbn in Hr.
    destruct (piece_sound c before l) as [_ [P2 [P3 _]]].
    destruct (rstrip l) as [|d r] eqn:E.
    + destruct (isspace c) eqn:Ec; [discriminate|].
      injection Hr as <-. cbn. rewrite app_nil_r.
      now apply rstrip_solid, P3.
    + injection Hr as Hr. rewrite Hr in E.
      apply rstrip_app; [now apply IH|].
      intros Q. apply lower_from_sound in Q. now subst l.
Qed.

(** *** [strip] and [lower] on strings *)

Lemma normalize_points_fixed (l : list N) :
  strip_points (normalize_points l) = normalize_points l
  /\ lower_points (normalize_points l) = normalize_points l.
Proof.
  unfold normalize_points, lower_points.
  destruct (strip_points_edges l) as [E1 E2].
  destruct (lower_from_edges [] (strip_points l) E1 E2) as [L1 L2].
  split; [now apply strip_points_fixed|].
  apply lower_from_stable, lower_from_sound.
Qed.

Lemma normalize_points_valid (l : list N) :
  Forall valid l -> Forall valid (normalize_points l).
Proof.
  intros V. unfold normalize_points, lower_points.
  now apply lower_from_sound, Forall_strip_points.
Qed.

Lemma normalize_decoded (s : string) :
  normalize s = encode (normalize_points (decode s)).
Proof.
  unfold normalize, lower, strip, normalize_points.
  rewrite decode_encode; [reflexivity|].
  apply Forall_strip_points, decode_valid.
Qed.

Lemma decode_normalize (s : string) :
  decode (normalize s) = normalize_points (decode s).
Proof.
  rewrite normalize_decoded. apply decode_encode, normalize_points_valid,
    decode_valid.
Qed.

Lemma normalize_idem (s : string) : normalize (normalize s) = normalize s.
Proof.
  rewrite (normalize_decoded (normalize s)), decode_normalize.
  unfold normalize_points at 1.
  destruct (normalize_points_fixed (decode s)) as [-> ->].
  symmetry. apply normalize_decoded.
Qed.

Lemma normal_strip (n : string) : normalize n = n -> strip n = n.
Proof.
  intros E. rewrite <- E at 1. unfold strip. rewrite decode_normalize.
  destruct (normalize_points_fixed (decode n)) as [-> _].
  now rewrite <- normalize_decoded.
Qed.

Lemma normal_lower (n : string) : normalize n = n -> lower n = n.
Proof.
  intros E. rewrite <- E at 1. unfold lower. rewrite decode_normalize.
  destruct (normalize_points_fixed (decode n)) as [_ ->].
  now rewrite <- normalize_decoded.
Qed.

(** ** Lists, first matches *)

Lemma oid_eqb_refl (i : oid) : oid_eqb i i = true.
Proof. now apply oid_eqb_eq. Qed.

Lemma oid_eqb_neq (i j : oid) : i <> j -> oid_eqb i j = false.
Proof.
  intros H. destruct (oid_eqb i j) eqn:E; [|reflexivity].
  apply oid_eqb_eq in E. contradiction.
Qed.

Lemma str_oid_inj (i j : oid) : str_oid i = str_oid j -> i = j.
Proof.
  intros H. apply (f_equal ObjectId) in H.
  rewrite !ObjectId_str in H. now injection H.
Qed.

Lemma find_name_some n l d :
  find (name_is n) l = Some d -> In d l /\ Org.organization_name d = n.
Proof.
  intros H. apply find_some in H. destruct H as [H1 H2].
  split; [exact H1 | now apply String.eqb_eq].
Qed.

Lemma find_name_none n l :
  find (name_is n) l = None -> ~ In n (map Org.organization_name l).
Proof.
  intros H I. apply in_map_iff in I. destruct I as [d [E I]].
  apply (find_none _ _ H) in I. unfold name_is in I.
  rewrite E, String.eqb_refl in I. discriminate.
Qed.

Lemma find_name_in n l :
  In n (map Org.organization_name l) -> exists d, find (name_is n) l = Some d.
Proof.
  intros I. destruct (find (name_is n) l) eqn:E; [eauto|].
  now apply find_name_none in E.
Qed.

(** ** What the first-match updates keep *)

Section FirstMatch.

Context {A : Type} (p : A -> bool) (f : A -> A).

Lemma map_update_first {K : Type} (k : A -> K) (l : list A) :
  (forall x, k (f x) = k x) -> map k (update_first p f l) = map k l.
Proof.
  intros H. induction l as [|x l IH]; cbn; [reflexivity|].
  destruct (p x); cbn; [now rewrite H | now rewrite IH].
Qed.

Lemma in_update_first (l : list A) (x : A) :
  In x (update_first p f l) ->
  In x l \/ exists y, In y l /\ p y = true /\ x = f y.
Proof.
  induction l as [|y l IH]; cbn; [tauto|].
  destruct (p y) eqn:E; cbn.
  - intros [<-|H]; [right; exists y; auto | auto].
  - intros [<-|H]; [auto|].
    destruct (IH H) as [I|[z [I [P F]]]]; [auto|].
    right. exists z. auto.
Qed.

Lemma Forall_update_first (P : A -> Prop) (l : list A) :
  Forall P l -> (forall x, In x l -> p x = true -> P (f x)) ->
  Forall P (update_first p f l).
Proof.
  intros H G. apply Forall_forall. intros x I.
  apply in_update_first in I. destruct I as [I|[y [I [E ->]]]].
  - rewrite Forall_forall in H. now apply H.
  - now apply G.
Qed.

Lemma find_update_first (l : list A) :
  (forall x, p (f x) = p x) ->
  find p (update_first p f l) = option_map f (find p l).
Proof.
  intros H. induction l as [|x l IH]; cbn; [reflexivity|].
  destruct (p x) eqn:E; cbn.
  - now rewrite H, E.
  - now rewrite E.
Qed.

End FirstMatch.

Section FirstDeleted.

Context {A : Type} (p : A -> bool).

Lemma in_delete_first (l : list A) (x : A) :
  In x (delete_first p l) -> In x l.
Proof.
  induction l as [|y l IH]; cbn; [tauto|].
  destruct (p y); cbn; [auto|]. intros [<-|H]; auto.
Qed.

Lemma in_map_delete_first {K : Type} (k : A -> K) (l : list A) (y : K) :
  In y (map k (delete_first p l)) -> In y (map k l).
Proof.
  rewrite !in_map_iff. intros [x [E I]]. exists x.
  split; [exact E | now apply in_delete_first].
Qed.

Lemma NoDup_map_delete_first {K : Type} (k : A -> K) (l : list A) :
  NoDup (map k l) -> NoDup (map k (delete_first p l)).
Proof.
  induction l as [|x l IH]; cbn; [auto|].
  intros H. inversion H as [|? ? N D]; subst.
  destruct (p x); cbn; [exact D|].
  constructor; [|now apply IH].
  intros I. apply N. now apply in_map_delete_first in I.
Qed.

Lemma delete_first_keeps (l : list A) (x : A) :
  In x l -> p x = false -> In x (delete_first p l).
Proof.
  induction l as [|y l IH]; cbn; [tauto|].
  intros [->|I] E.
  - rewrite E. now left.
  - destruct (p y); [exact I | right; now apply IH].
Qed.

Lemma Forall_delete_first (P : A -> Prop) (l : list A) :
  Forall P l -> Forall P (delete_first p l).
Proof.
  rewrite !Forall_forall. intros H x I. apply H.
  now apply in_delete_first.
Qed.

End FirstDeleted.

Lemma NoDup_map_eq {A K : Type} (k : A -> K) (l : list A) (x y : A) :
  NoDup (map k l) -> In x l -> In y l -> k x = k y -> x = y.
Proof.
  induction l as [|z l IH]; cbn; [tauto|].
  intros H. inversion H as [|? ? N D]; subst.
  intros [->|Ix] [->|Iy] E; auto.
  - exfalso. apply N. rewrite E. now apply in_map.
  - exfalso. apply N. rewrite <- E. now apply in_map.
Qed.

(** The first match of a unique key is the document that carries it. *)
Lemma find_unique {A : Type} (p : A -> bool) (l : list A) (d : A) :
  In d l -> p d = true -> (forall x, In x l -> p x = true -> x = d) ->
  find p l = Some d.
Proof.
  intros I E U. destruct (find p l) as [x|] eqn:F.
  - apply find_some in F. destruct F as [Ix Px]. f_equal. now apply U.
  - apply (find_none _ _ F) in I. congruence.
Qed.

(** ** Renaming the document of a given identifier *)

Lemma in_rename (l : list Org.doc) (d x : Org.doc) (n c : string) :
  NoDup (map Org._id l) -> In d l ->
  In x (update_first (org_id_is (Org._id d)) (set_org_names n c) l) ->
  x = set_org_names n c d \/ (In x l /\ Org._id x <> Org._id d).
Proof.
  intros H. induction l as [|y l IH]; cbn; [tauto|].
  inversion H as [|? ? N D]; subst. intros Id.
  unfold org_id_is at 1. destruct (oid_eqb (Org._id y) (Org._id d)) eqn:E.
  - apply oid_eqb_eq in E.
    assert (y = d) as ->.
    { destruct Id as [|Id]; [assumption|]. exfalso. apply N. rewrite E.
      now apply in_map. }
    cbn. intros [<-|I]; [now left|]. right. split; [now right|].
    intros Q. apply N. rewrite <- Q. now apply in_map.
  - assert (Org._id y <> Org._id d) as Q.
    { intros Q. rewrite Q, oid_eqb_refl in E. discriminate. }
    destruct Id as [->|Id]; [congruence|].
    cbn. intros [<-|I]; [right; split; [now left | exact Q]|].
    destruct (IH D Id I) as [->|[I' Q']]; [now left|].
    right. split; [now right | exact Q'].
Qed.

Lemma rename_in (l : list Org.doc) (d : Org.doc) (n c : string) :
  NoDup (map Org._id l) -> In d l ->
  In (set_org_names n c d)
    (update_first (org_id_is (Org._id d)) (set_org_names n c) l).
Proof.
  intros H. induction l as [|y l IH]; cbn; [tauto|].
  inversion H as [|? ? N D]; subst. intros Id.
  unfold org_id_is at 1. destruct (oid_eqb (Org._id y) (Org._id d)) eqn:E.
  - apply oid_eqb_eq in E.
    assert (y = d) as ->; [|now left].
    destruct Id as [|Id]; [assumption|]. exfalso. apply N. rewrite E.
    now apply in_map.
  - destruct Id as [->|Id]; [rewrite oid_eqb_refl in E; discriminate|].
    right. now apply IH.
Qed.

(** ** Running the handlers *)

Ltac run :=
  unfold create_org, get_org, update_org, delete_org, rename_org,
    update_credentials, when, to_oid, bind, find_org, insert_admin,
    insert_org, update_org_names, update_admin, delete_admin,
    delete_org_named, provision, raise, ret in *;
  cbn [fst snd] in *.

(** ** The invariant is kept *)

Lemma NoDup_snoc {A : Type} (l : list A) (x : A) :
  NoDup l -> ~ In x l -> NoDup (l ++ [x]).
Proof.
  intros D N. apply NoDup_app; [exact D | repeat constructor; auto |].
  intros y I [<-|[]]. now apply N.
Qed.

(** The invariant reads the organizations and the identifiers of the admins,
    nothing else. *)
Lemma consistent_frame (s s' : store) :
  organizations s' = organizations s ->
  map Admin._id (admins s') = map Admin._id (admins s) ->
  consistent s -> consistent s'.
Proof.
  intros O I [H1 H2 H3 H4 H5 H6 H7].
  split; rewrite ?O, ?I; assumption.
Qed.

Lemma admin_id_is_kept (i : oid) (f : Admin.doc -> Admin.doc) :
  (forall d, Admin._id (f d) = Admin._id d) ->
  forall l, map Admin._id (update_first (admin_id_is i) f l)
            = map Admin._id l.
Proof. intros H l. now apply map_update_first. Qed.

Lemma get_org_reads (n : string) (s : store) : snd (get_org n s) = s.
Proof. run. now destruct (find _ (organizations s)). Qed.

Lemma create_org_consistent (utcnow : N) (payload : OrgCreate.t) (s : store) :
  consistent s -> consistent (snd (create_org utcnow payload s)).
Proof.
  intros C. run.
  destruct (find _ (organizations s)) eqn:F; cbn; [exact C|].
  apply find_name_none in F.
  destruct C as [H1 H2 H3 H4 H5 H6 H7].
  split; cbn; rewrite ?map_app; cbn.
  - apply NoDup_snoc; [exact H1 | apply new_oid_fresh].
  - apply NoDup_snoc; [exact H2 | apply new_oid_fresh].
  - now apply NoDup_snoc.
  - apply Forall_app. split; [exact H4|].
    repeat constructor. unfold normal_name. cbn. apply normalize_idem.
  - apply Forall_app. split; [exact H5|].
    repeat constructor.
  - apply Forall_app. split.
    + eapply Forall_impl; [|exact H6].
      intros d [i [E I]]. exists i. split; [exact E|].
      apply in_or_app. now left.
    + repeat constructor. eexists. split; [reflexivity|].
      apply in_or_app. right. now left.
  - apply NoDup_snoc; [exact H7|].
    intros I. apply in_map_iff in I. destruct I as [d [E I]].
    rewrite Forall_forall in H6. destruct (H6 d I) as [j [Ej Ij]].
    rewrite Ej in E. apply str_oid_inj in E. subst j.
    now apply new_oid_fresh in Ij.
Qed.

(** The outcomes of the rename step. *)
Lemma rename_org_cases (org : Org.doc) (target new : string)
  (current_admin : CurrentAdmin.t) (s : store) :
  let renamed :=
    update_first (org_id_is (Org._id org))
      (set_org_names new ("org_" ++ new)) (organizations s) in
  rename_org org target new current_admin s = (inr target, s)
  /\ new = target
  \/
  new <> target /\
  ((exists d, find (name_is new) (organizations s) = Some d)
   /\ rename_org org target new current_admin s
      = (inl (HTTPException 400 "New organization name already exists"), s)
   \/
   find (name_is new) (organizations s) = None
   /\ (ObjectId (CurrentAdmin.admin_id current_admin) = None
       /\ rename_org org target new current_admin s
          = (inl InvalidId,
             {| organizations := renamed;
                admins := admins s;
                collections := collections s;
                log := log s
                       ++ [SetOrgNames (Org._id org) new ("org_" ++ new)] |})
       \/
       exists i,
         ObjectId (CurrentAdmin.admin_id current_admin) = Some i
         /\ rename_org org target new current_admin s
            = (inr new,
               {| organizations := renamed;
                  admins := update_first (admin_id_is i)
                              (set_admin_organization new) (admins s);
                  collections :=
                    rename_and_sync_collection target new (collections s);
                  log := ((log s
                           ++ [SetOrgNames (Org._id org) new ("org_" ++ new)])
                          ++ [SetAdminOrganization i new])
                         ++ [RenameAndSync target new] |}))).
Proof.
  intros renamed. subst renamed. run.
  destruct (String.eqb_spec new target) as [E|E]; cbn.
  - left. split; [reflexivity | exact E].
  - right. split; [exact E|].
    destruct (find (name_is new) (organizations s)) as [d|] eqn:F; cbn.
    + left. split; [now exists d | reflexivity].
    + right. split; [reflexivity|].
      destruct (ObjectId (CurrentAdmin.admin_id current_admin)) as [i|]; cbn.
      * right. exists i. split; reflexivity.
      * left. split; reflexivity.
Qed.

Lemma update_first_ext {A : Type} (p : A -> bool) (f g : A -> A) (l : list A) :
  (forall x, f x = g x) -> update_first p f l = update_first p g l.
Proof.
  intros H. induction l as [|x l IH]; cbn; [reflexivity|].
  now rewrite H, IH.
Qed.

Lemma update_first_twice {A : Type} (p : A -> bool) (f g : A -> A)
  (l : list A) :
  (forall x, p (f x) = p x) ->
  update_first p g (update_first p f l) = update_first p (fun x => g (f x)) l.
Proof.
  intros H. induction l as [|x l IH]; cbn; [reflexivity|].
  destruct (p x) eqn:E; cbn.
  - now rewrite H, E.
  - now rewrite E, IH.
Qed.

(** The outcomes of the credential step: nothing to do, a stop before the
    first write, or a rewrite of the caller's admin document. *)
Lemma update_credentials_cases (payload : OrgUpdate.t)
  (current_admin : CurrentAdmin.t) (s : store) :
  truthy (OrgUpdate.email payload) || truthy (OrgUpdate.password payload)
  = false
  /\ update_credentials payload current_admin s = (inr tt, s)
  \/
  truthy (OrgUpdate.email payload) || truthy (OrgUpdate.password payload)
  = true
  /\ (ObjectId (CurrentAdmin.admin_id current_admin) = None
      /\ update_credentials payload current_admin s = (inl InvalidId, s)
      \/
      exists i,
        ObjectId (CurrentAdmin.admin_id current_admin) = Some i
        /\ update_credentials payload current_admin s
           = (inr tt,
              {| organizations := organizations s;
                 admins := update_first (admin_id_is i)
                             (credentials_of payload) (admins s);
                 collections := collections s;
                 log := log s ++ credential_writes payload i |})).
Proof.
  unfold credentials_of, credential_writes. run.
  destruct (truthy (OrgUpdate.email payload)) eqn:E;
    destruct (truthy (OrgUpdate.password payload)) eqn:P; cbn;
    try (left; split; reflexivity); right; (split; [reflexivity|]);
    destruct (ObjectId (CurrentAdmin.admin_id current_admin)) as [i|]; cbn;
    try (left; split; reflexivity); right; exists i; (split; [reflexivity|]);
    try reflexivity.
  rewrite update_first_twice, <- app_assoc by reflexivity. reflexivity.
Qed.

Lemma NoDup_names_renamed (p : Org.doc -> bool) (n c : string)
  (l : list Org.doc) :
  NoDup (map Org.organization_name l) ->
  ~ In n (map Org.organization_name l) ->
  NoDup (map Org.organization_name (update_first p (set_org_names n c) l)).
Proof.
  induction l as [|y l IH]; cbn; [auto|].
  intros D N. inversion D as [|? ? Ny Dl]; subst.
  destruct (p y); cbn.
  - constructor; [tauto | exact Dl].
  - constructor; [|apply IH; tauto].
    intros I. apply in_map_iff in I. destruct I as [x [E I]].
    apply in_update_first in I. destruct I as [I|[z [_ [_ ->]]]].
    + apply Ny. rewrite <- E. now apply in_map.
    + cbn in E. apply N. left. now symmetry.
Qed.

Lemma renamed_consistent (p : Org.doc -> bool) (n : string) (s s' : store) :
  organizations s'
  = update_first p (set_org_names n ("org_" ++ n)) (organizations s) ->
  map Admin._id (admins s') = map Admin._id (admins s) ->
  ~ In n (map Org.organization_name (organizations s)) ->
  normalize n = n ->
  consistent s -> consistent s'.
Proof.
  intros O I N E [H1 H2 H3 H4 H5 H6 H7].
  split; rewrite ?O, ?I.
  - rewrite map_update_first by reflexivity. exact H1.
  - exact H2.
  - now apply NoDup_names_renamed.
  - apply Forall_update_first; [exact H4|]. intros x _ _. exact E.
  - apply Forall_update_first; [exact H5|]. intros x _ _. reflexivity.
  - apply Forall_update_first; [exact H6|]. intros x Ix _.
    rewrite Forall_forall in H6. exact (H6 x Ix).
  - rewrite map_update_first by reflexivity. exact H7.
Qed.

Lemma rename_org_consistent (org : Org.doc) (target raw : string)
  (current_admin : CurrentAdmin.t) (s : store) :
  consistent s ->
  consistent (snd (rename_org org target (normalize raw) current_admin s)).
Proof.
  intros C.
  destruct (rename_org_cases org target (normalize raw) current_admin s)
    as [[-> _]|[_ [[_ ->]|[F [[_ ->]|[i [_ ->]]]]]]]; cbn [snd];
    try exact C; apply find_name_none in F;
    (eapply renamed_consistent;
     [reflexivity | | exact F | apply normalize_idem | exact C]); cbn.
  - reflexivity.
  - now apply admin_id_is_kept.
Qed.

Lemma update_credentials_consistent (payload : OrgUpdate.t)
  (current_admin : CurrentAdmin.t) (s : store) :
  consistent s ->
  consistent (snd (update_credentials payload current_admin s)).
Proof.
  intros C.
  destruct (update_credentials_cases payload current_admin s)
    as [[_ ->]|[_ [[_ ->]|[i [_ ->]]]]]; cbn [snd]; try exact C.
  apply (consistent_frame s); [reflexivity | | exact C]. cbn.
  apply admin_id_is_kept. intros d. unfold credentials_of.
  destruct (truthy (OrgUpdate.email payload));
    destruct (truthy (OrgUpdate.password payload)); reflexivity.
Qed.

(** [update_org] as the sequence of its steps. *)
Lemma update_org_steps (payload : OrgUpdate.t) (current_admin : CurrentAdmin.t)
  (s : store) :
  update_org payload current_admin s
  = match find (name_is (CurrentAdmin.org_id current_admin))
            (organizations s) with
    | None => (inl (HTTPException 404 "Organization not found"), s)
    | Some org =>
        match OrgUpdate.organization_name payload with
        | None => (inl AttributeError, s)
        | Some raw =>
            match rename_org org (CurrentAdmin.org_id current_admin)
                    (normalize raw) current_admin s with
            | (inl e, s1) => (inl e, s1)
            | (inr target, s1) =>
                match update_credentials payload current_admin s1 with
                | (inl e, s2) => (inl e, s2)
                | (inr _, s2) =>
                    match find (name_is target) (organizations s2) with
                    | None => (inl TypeError, s2)
                    | Some updated_org => (inr (view updated_org), s2)
                    end
                end
            end
        end
    end.
Proof.
  unfold update_org, bind, find_org, raise, ret.
  destruct (find _ (organizations s)) as [org|]; [|reflexivity].
  destruct (OrgUpdate.organization_name payload) as [raw|]; [|reflexivity].
  destruct (rename_org _ _ _ _ s) as [[e|target] s1]; [reflexivity|].
  destruct (update_credentials _ _ s1) as [[e|u] s2]; [reflexivity|].
  now destruct (find _ (organizations s2)).
Qed.

Lemma update_org_consistent (payload : OrgUpdate.t)
  (current_admin : CurrentAdmin.t) (s : store) :
  consistent s -> consistent (snd (update_org payload current_admin s)).
Proof.
  intros C. rewrite update_org_steps.
  destruct (find _ (organizations s)) as [org|]; [|exact C].
  destruct (OrgUpdate.organization_name payload) as [raw|]; [|exact C].
  pose proof (rename_org_consistent org (CurrentAdmin.org_id current_admin)
                raw current_admin s C) as C1.
  destruct (rename_org _ _ _ _ s) as [[e|target] s1]; [exact C1|].
  cbn [snd] in C1.
  pose proof (update_credentials_consistent payload current_admin s1 C1)
    as C2.
  destruct (update_credentials _ _ s1) as [[e|u] s2]; [exact C2|].
  now destruct (find _ (organizations s2)).
Qed.

(** [delete_org] as the sequence of its steps. *)
Lemma delete_org_steps (organization_name : string)
  (current_admin : CurrentAdmin.t) (s : store) :
  delete_org organization_name current_admin s
  = let org_name := normalize organization_name in
    if negb (String.eqb (CurrentAdmin.org_id current_admin) org_name)
    then (inl (HTTPException 403
                 "You are not authorized to delete this organization"), s)
    else
      match find (name_is org_name) (organizations s) with
      | None => (inl (HTTPException 404 "Organization not found"), s)
      | Some org =>
          let dropped := drop_org_collection org_name (collections s) in
          match ObjectId (Org.admin_id org) with
          | None =>
              (inl InvalidId,
               {| organizations := organizations s;
                  admins := admins s;
                  collections := dropped;
                  log := log s ++ [DropCollection org_name] |})
          | Some i =>
              (inr {| Deleted.status := "deleted" |},
               {| organizations :=
                    delete_first (name_is org_name) (organizations s);
                  admins := delete_first (admin_id_is i) (admins s);
                  collections := dropped;
                  log := ((log s ++ [DropCollection org_name])
                          ++ [DeleteAdmin i]) ++ [DeleteOrg org_name] |})
          end
      end.
Proof.
  run. destruct (negb _); [reflexivity|].
  destruct (find _ (organizations s)) as [org|]; [|reflexivity]. cbn.
  now destruct (ObjectId (Org.admin_id org)).
Qed.

Lemma deleted_name_gone (n : string) (l : list Org.doc) :
  NoDup (map Org.organization_name l) ->
  ~ In n (map Org.organization_name (delete_first (name_is n) l)).
Proof.
  induction l as [|y l IH]; cbn; [tauto|].
  intros D. inversion D as [|? ? Ny Dl]; subst.
  unfold name_is at 1. destruct (String.eqb_spec (Org.organization_name y) n).
  - now subst n.
  - cbn. intros [E|I]; [contradiction | now apply IH].
Qed.

(** In a consistent store the admin reference of an organization reads back
    as the identifier of a stored admin. *)
Lemma consistent_admin_ref (s : store) (d : Org.doc) :
  consistent s -> In d (organizations s) ->
  exists i, Org.admin_id d = str_oid i
            /\ ObjectId (Org.admin_id d) = Some i
            /\ In i (map Admin._id (admins s)).
Proof.
  intros C I. pose proof (admin_refs s C) as R.
  rewrite Forall_forall in R. destruct (R d I) as [i [E J]].
  exists i. repeat split; [exact E | | exact J].
  rewrite E. apply ObjectId_str.
Qed.

Lemma delete_org_consistent (organization_name : string)
  (current_admin : CurrentAdmin.t) (s : store) :
  consistent s ->
  consistent (snd (delete_org organization_name current_admin s)).
Proof.
  intros C. rewrite delete_org_steps. cbv zeta.
  destruct (negb _); [exact C|].
  destruct (find _ (organizations s)) as [org|] eqn:F; [|exact C].
  apply find_name_some in F. destruct F as [Iorg Norg].
  destruct (consistent_admin_ref s org C Iorg) as [i [E [P J]]].
  rewrite P. cbn [snd].
  pose proof C as [H1 H2 H3 H4 H5 H6 H7].
  split; cbn.
  - now apply NoDup_map_delete_first.
  - now apply NoDup_map_delete_first.
  - now apply NoDup_map_delete_first.
  - now apply Forall_delete_first.
  - now apply Forall_delete_first.
  - apply Forall_forall. intros x Ix.
    assert (Org.organization_name x <> normalize organization_name) as Nx.
    { intros Q. apply (deleted_name_gone (normalize organization_name)
                         (organizations s) H3).
      apply in_map_iff. exists x. split; [exact Q | exact Ix]. }
    apply in_delete_first in Ix.
    destruct (consistent_admin_ref s x C Ix) as [j [Ej [_ Jj]]].
    exists j. split; [exact Ej|].
    assert (j <> i) as Q.
    { intros ->. apply Nx. rewrite <- Norg. f_equal.
      apply (NoDup_map_eq Org.admin_id (organizations s)); auto.
      congruence. }
    apply in_map_iff in Jj. destruct Jj as [a [<- Ia]].
    apply in_map. apply delete_first_keeps; [exact Ia|].
    unfold admin_id_is. now apply oid_eqb_neq.
  - now apply NoDup_map_delete_first.
Qed.

Lemma blank_consistent (t : tenants) : consistent (blank t).
Proof. split; cbn; constructor. Qed.

Lemma serve_consistent (s : store) (r : request) :
  consistent s -> consistent (serve s r).
Proof.
  intros C. destruct r; cbn [serve].
  - now apply create_org_consistent.
  - now rewrite get_org_reads.
  - now apply update_org_consistent.
  - now apply delete_org_consistent.
Qed.

Lemma reachable_consistent (s : store) : reachable s -> consistent s.
Proof.
  intros [t [rs ->]].
  assert (G : forall s0, consistent s0 -> consistent (fold_left serve rs s0)).
  { induction rs as [|r rs IH]; cbn; [auto|].
    intros s0 C. apply IH. now apply serve_consistent. }
  apply G, blank_consistent.
Qed.

Lemma reachable_serve (s : store) (r : request) :
  reachable s -> reachable (serve s r).
Proof.
  intros [t [rs ->]]. exists t, (rs ++ [r])%list.
  now rewrite fold_left_app.
Qed.

(** C2: a delete whose caller administers another name than the normalized
    target is refused with 403 in every store, whether or not the target
    exists, and the store is left as it was: the check comes first. *)
Theorem delete_org_forbidden (organization_name : string)
  (current_admin : CurrentAdmin.t) (s : store) :
  CurrentAdmin.org_id current_admin <> normalize organization_name ->
  delete_org organization_name current_admin s
  = (inl (HTTPException 403
            "You are not authorized to delete this organization"), s).
Proof.
  intros H. run.
  destruct (String.eqb_spec (CurrentAdmin.org_id current_admin)
              (normalize organization_name)) as [E|_]; [contradiction|].
  reflexivity.
Qed.

(** C3: where an organization is stored under the name that the payload's
    name normalizes to, create fails with 400 "Organization already exists";
    and of two creates in a row with names that normalize alike, the second
    fails so. *)
Theorem create_org_conflict :
  (forall utcnow payload s,
      In (normalize (OrgCreate.organization_name payload))
        (map Org.organization_name (organizations s)) ->
      fst (create_org utcnow payload s)
      = inl (HTTPException 400 "Organization already exists"))
  /\
  (forall utcnow1 utcnow2 payload1 payload2 s,
      normalize (OrgCreate.organization_name payload1)
      = normalize (OrgCreate.organization_name payload2) ->
      fst (create_org utcnow2 payload2 (snd (create_org utcnow1 payload1 s)))
      = inl (HTTPException 400 "Organization already exists")).
Proof.
  assert (first : forall utcnow payload s,
      In (normalize (OrgCreate.organization_name payload))
        (map Org.organization_name (organizations s)) ->
      fst (create_org utcnow payload s)
      = inl (HTTPException 400 "Organization already exists")).
  { intros utcnow payload s H. apply find_name_in in H. destruct H as [d H].
    run. now rewrite H. }
  split; [exact first|].
  intros utcnow1 utcnow2 payload1 payload2 s E. apply first. rewrite <- E.
  run.
  destruct (find (name_is (normalize (OrgCreate.organization_name payload1)))
              (organizations s)) as [d|] eqn:F; cbn.
  - apply find_name_some in F. destruct F as [I N].
    rewrite <- N. now apply in_map.
  - rewrite map_app, in_app_iff. right. cbn. now left.
Qed.

(** [strip().lower()] on names beyond ASCII: the white space of U+2003,
    U+3000, U+001C, U+0085 and U+00A0 is stripped, U+0130 lowers to two code
    points, U+1E9E to U+00DF, U+10400 to U+10428, and a capital sigma to the
    final sigma at the end of a word and to the small sigma elsewhere. *)
Example normalize_beyond_ascii :
  normalize (encode [0x2003; 0x130; 0x3000]%N) = encode [0x69; 0x307]%N
  /\ normalize (encode [0x1c; 0x41; 0x85]%N) = "a"
  /\ normalize (encode [0x1e9e]%N) = encode [0xdf]%N
  /\ normalize (encode [0x10400; 0xa0]%N) = encode [0x10428]%N
  /\ normalize (encode [0x3a3]%N) = encode [0x3c3]%N
  /\ normalize (encode [0x391; 0x3a3]%N) = encode [0x3b1; 0x3c2]%N
  /\ normalize (encode [0x391; 0x3a3; 0x391]%N)
     = encode [0x3b1; 0x3c3; 0x3b1]%N
  /\ normalize (encode [0x391; 0x27; 0x3a3; 0x2e; 0x20]%N)
     = encode [0x3b1; 0x27; 0x3c2; 0x2e]%N.
Proof. repeat split; vm_compute; reflexivity. Qed.

(** C5: normalization is idempotent, on every string and, read on code
    points, on every sequence of them: the normalized form of the name of
    code points [l] is [l] stripped of the white space of its ends and then
    lowered, and stripping and lowering that again gives it back;
    ["  Acme "], ["ACME"] and ["acme"] all normalize to ["acme"]; and names
    that normalize alike are the same key to every handler: get and delete
    called with either, and create and update given either as the payload's
    name, do the same to every store and answer the same. *)
Theorem handlers_use_normalized_name :
  (forall n, normalize (normalize n) = normalize n)
  /\ (forall l, Forall valid l ->
        decode (normalize (encode l)) = lower_points (strip_points l)
        /\ lower_points (strip_points (lower_points (strip_points l)))
           = lower_points (strip_points l))
  /\ (normalize "  Acme " = "acme" /\ normalize "ACME" = "acme"
      /\ normalize "acme" = "acme")
  /\
  (forall n1 n2, normalize n1 = normalize n2 ->
     (forall s, get_org n1 s = get_org n2 s)
     /\ (forall utcnow email password s,
            create_org utcnow (OrgCreate.Build_t n1 email password) s
            = create_org utcnow (OrgCreate.Build_t n2 email password) s)
     /\ (forall email password current_admin s,
            update_org (OrgUpdate.Build_t (Some n1) email password)
              current_admin s
            = update_org (OrgUpdate.Build_t (Some n2) email password)
                current_admin s)
     /\ (forall current_admin s,
            delete_org n1 current_admin s = delete_org n2 current_admin s)).
Proof.
  split; [exact normalize_idem|].
  split.
  { intros l V. split.
    - rewrite decode_normalize, decode_encode by exact V. reflexivity.
    - destruct (normalize_points_fixed l) as [E1 E2].
      unfold normalize_points in E1, E2. now rewrite E1, E2. }
  split; [repeat split|].
  intros n1 n2 E. repeat split; intros; run;
    cbn [OrgCreate.organization_name OrgUpdate.organization_name];
    now rewrite E.
Qed.

(** [update_org] reads [payload.organization_name.strip()] with no test for
    [None]: with the name left out and the caller's organization in the store,
    the call ends in [AttributeError] and writes nothing. *)
Lemma update_org_name_omitted (payload : OrgUpdate.t)
  (current_admin : CurrentAdmin.t) (s : store) :
  OrgUpdate.organization_name payload = None ->
  In (CurrentAdmin.org_id current_admin)
    (map Org.organization_name (organizations s)) ->
  update_org payload current_admin s = (inl AttributeError, s).
Proof.
  intros N I. apply find_name_in in I. destruct I as [d F].
  run. now rewrite F, N.
Qed.

(** C10: a create or an update that ends in 400 has left the store as it
    found it, log of writes included.  A create of a stored name ends so, and
    so does an update, of a stored organization, to another name that is
    stored. *)
Theorem conflict_writes_nothing :
  (forall utcnow payload s detail s',
      create_org utcnow payload s = (inl (HTTPException 400 detail), s') ->
      s' = s)
  /\
  (forall payload current_admin s detail s',
      update_org payload current_admin s
      = (inl (HTTPException 400 detail), s') ->
      s' = s)
  /\
  (forall utcnow payload s,
      In (normalize (OrgCreate.organization_name payload))
        (map Org.organization_name (organizations s)) ->
      create_org utcnow payload s
      = (inl (HTTPException 400 "Organization already exists"), s))
  /\
  (forall payload current_admin s raw,
      In (CurrentAdmin.org_id current_admin)
        (map Org.organization_name (organizations s)) ->
      OrgUpdate.organization_name payload = Some raw ->
      normalize raw <> CurrentAdmin.org_id current_admin ->
      In (normalize raw) (map Org.organization_name (organizations s)) ->
      update_org payload current_admin s
      = (inl (HTTPException 400 "New organization name already exists"), s)).
Proof.
  split; [|split; [|split]]; cycle 2.
  - intros utcnow payload s I. apply find_name_in in I. destruct I as [d F].
    run. now rewrite F.
  - intros payload current_admin s raw I N Q J.
    apply find_name_in in I. destruct I as [org F].
    apply find_name_in in J. destruct J as [d G].
    run. rewrite F, N. cbn.
    destruct (String.eqb_spec (normalize raw)
                (CurrentAdmin.org_id current_admin)) as [E|_];
      [contradiction|].
    cbn. now rewrite G.
  - intros utcnow payload s detail s'. run.
    destruct (find _ (organizations s)); cbn; intros H; now inversion H.
  - intros payload current_admin s detail s'. run.
    destruct (find _ (organizations s)) as [org|]; cbn;
      [|intros H; now inversion H].
    destruct (OrgUpdate.organization_name payload) as [raw|]; cbn;
      [|intros H; now inversion H].
    destruct (negb _); cbn.
    + destruct (find _ (organizations s)); cbn; [intros H; now inversion H|].
      destruct (ObjectId _); cbn; [|intros H; now inversion H].
      destruct (truthy (OrgUpdate.email payload) || truthy _); cbn.
      * destruct (truthy (OrgUpdate.email payload)); cbn;
          destruct (truthy (OrgUpdate.password payload)); cbn;
          match goal with
          | |- context [find ?p ?l] => destruct (find p l)
          end; cbn; intros H; inversion H.
      * match goal with
          | |- context [find ?p ?l] => destruct (find p l)
          end; cbn; intros H; inversion H.
    + destruct (truthy (OrgUpdate.email payload) || truthy _); cbn.
      * destruct (ObjectId _); cbn;
          destruct (truthy (OrgUpdate.email payload)); cbn;
          destruct (truthy (OrgUpdate.password payload)); cbn;
          try match goal with
          | |- context [find ?p ?l] => destruct (find p l)
          end; cbn; intros H; inversion H.
      * match goal with
          | |- context [find ?p ?l] => destruct (find p l)
          end; cbn; intros H; inversion H.
Qed.


Lemma find_name_unique (l : list Org.doc) (d : Org.doc) :
  NoDup (map Org.organization_name l) -> In d l ->
  find (name_is (Org.organization_name d)) l = Some d.
Proof.
  intros D I. apply find_unique; [exact I | apply String.eqb_refl|].
  intros x Ix E. apply String.eqb_eq in E.
  now apply (NoDup_map_eq Org.organization_name l).
Qed.


(** ** Looking names up after a rename *)

Lemma find_renamed_old (l : list Org.doc) (org : Org.doc) (n c : string) :
  NoDup (map Org._id l) -> NoDup (map Org.organization_name l) ->
  In org l -> n <> Org.organization_name org ->
  find (name_is (Org.organization_name org))
    (update_first (org_id_is (Org._id org)) (set_org_names n c) l) = None.
Proof.
  intros Di Dn I N.
  destruct (find _ (update_first _ _ l)) as [x|] eqn:F; [|reflexivity].
  exfalso. apply find_name_some in F. destruct F as [Ix Ex].
  apply in_rename in Ix; [|exact Di | exact I].
  destruct Ix as [->|[Ix Q]]; [cbn in Ex; contradiction|].
  apply Q. f_equal.
  now apply (NoDup_map_eq Org.organization_name l).
Qed.

Lemma find_renamed_new (l : list Org.doc) (org : Org.doc) (n c : string) :
  NoDup (map Org._id l) -> In org l ->
  ~ In n (map Org.organization_name l) ->
  find (name_is n)
    (update_first (org_id_is (Org._id org)) (set_org_names n c) l)
  = Some (set_org_names n c org).
Proof.
  intros Di I N. apply find_unique.
  - now apply rename_in.
  - apply String.eqb_refl.
  - intros x Ix E. apply String.eqb_eq in E.
    apply in_rename in Ix; [|exact Di | exact I].
    destruct Ix as [->|[Ix _]]; [reflexivity|].
    exfalso. apply N. rewrite <- E. now apply in_map.
Qed.

Lemma find_admin_in (i : oid) (l : list Admin.doc) :
  In i (map Admin._id l) ->
  exists a, find (admin_id_is i) l = Some a /\ Admin._id a = i.
Proof.
  intros I. destruct (find (admin_id_is i) l) as [a|] eqn:F.
  - exists a. split; [reflexivity|].
    apply find_some in F. now apply oid_eqb_eq.
  - exfalso. apply in_map_iff in I. destruct I as [a [E I]].
    apply (find_none _ _ F) in I. unfold admin_id_is in I.
    rewrite E, oid_eqb_refl in I. discriminate.
Qed.

Lemma credentials_keep (payload : OrgUpdate.t) (a : Admin.doc) :
  Admin._id (credentials_of payload a) = Admin._id a
  /\ Admin.role (credentials_of payload a) = Admin.role a
  /\ Admin.organization (credentials_of payload a) = Admin.organization a.
Proof.
  unfold credentials_of.
  destruct (truthy (OrgUpdate.email payload));
    destruct (truthy (OrgUpdate.password payload)); cbn; auto.
Qed.

(** C1: in a reachable store where [org] is stored under [A], an update by
    [A]'s admin whose payload name normalizes to [B], other than [A], and
    that succeeds, leaves a store where get of [A] answers 404, get of [B]
    answers [org]'s record under the name [B] with collection name
    ["org_" ++ B], and the admin that [org] refers to has [B] as its
    organization. *)
Theorem rename_consistency (A B raw : string) (org : Org.doc)
  (payload : OrgUpdate.t) (current_admin : CurrentAdmin.t)
  (s s' : store) (out : OrgView.t) :
  reachable s ->
  In org (organizations s) -> Org.organization_name org = A ->
  CurrentAdmin.org_id current_admin = A ->
  CurrentAdmin.admin_id current_admin = Org.admin_id org ->
  OrgUpdate.organization_name payload = Some raw -> normalize raw = B ->
  B <> A ->
  update_org payload current_admin s = (inr out, s') ->
  get_org A s' = (inl (HTTPException 404 "Organization not found"), s')
  /\ get_org B s' = (inr (view (set_org_names B ("org_" ++ B) org)), s')
  /\ OrgView.collection_name (view (set_org_names B ("org_" ++ B) org))
     = "org_" ++ B
  /\ exists i a,
       ObjectId (Org.admin_id org) = Some i
       /\ find (admin_id_is i) (admins s') = Some a
       /\ Admin._id a = i
       /\ Admin.organization a = B.
Proof.
  intros R I NA Own Adm Name NB Neq U.
  apply reachable_consistent in R.
  pose proof (unique_org_ids s R) as Di.
  pose proof (unique_names s R) as Dn.
  assert (normalize A = A) as NormA.
  { pose proof (normal_names s R) as Nn. rewrite Forall_forall in Nn.
    rewrite <- NA. exact (Nn org I). }
  assert (normalize B = B) as NormB.
  { rewrite <- NB. apply normalize_idem. }
  destruct (consistent_admin_ref s org R I) as [i [_ [P Ji]]].
  destruct (find_admin_in i (admins s) Ji) as [a0 [Fa Ea]].
  rewrite update_org_steps, Own, <- NA, (find_name_unique _ _ Dn I), Name, NB,
    NA in U.
  destruct (rename_org_cases org A B current_admin s)
    as [[_ E]|[_ [[_ Q]|[F [[_ Q]|[j [Pj Q]]]]]]];
    [contradiction | rewrite Q in U; discriminate
    | rewrite Q in U; discriminate |].
  rewrite Adm, P in Pj. injection Pj as <-.
  rewrite Q in U. clear Q.
  apply find_name_none in F.
  match type of U with
  | match update_credentials _ _ ?st with _ => _ end = _ => set (s1 := st) in *
  end.
  assert (organizations s1
          = update_first (org_id_is (Org._id org))
              (set_org_names B ("org_" ++ B)) (organizations s)) as Os1
    by reflexivity.
  assert (find (admin_id_is i) (admins s1)
          = Some (set_admin_organization B a0)) as F1.
  { subst s1. cbn. rewrite find_update_first by reflexivity.
    now rewrite Fa. }
  clearbody s1.
  assert (exists s2, update_credentials payload current_admin s1 = (inr tt, s2)
            /\ organizations s2 = organizations s1
            /\ exists a, find (admin_id_is i) (admins s2) = Some a
                         /\ Admin._id a = i /\ Admin.organization a = B)
    as [s2 [Cr [Os [a [Fa2 [Ia Oa]]]]]].
  { destruct (update_credentials_cases payload current_admin s1)
      as [[_ Q]|[_ [[Pn _]|[j [Pj Q]]]]].
    - exists s1. repeat split; [exact Q|].
      exists (set_admin_organization B a0). repeat split; [exact F1 | exact Ea].
    - rewrite Adm, P in Pn. discriminate.
    - rewrite Adm, P in Pj. injection Pj as <-.
      eexists. split; [exact Q|]. split; [reflexivity|]. cbn.
      rewrite find_update_first, F1.
      + eexists. split; [reflexivity|].
        destruct (credentials_keep payload (set_admin_organization B a0))
          as [K1 [_ K3]].
        rewrite K1, K3. split; [exact Ea | reflexivity].
      + intros x. unfold admin_id_is.
        now destruct (credentials_keep payload x) as [-> _]. }
  rewrite Cr in U.
  assert (find (name_is B) (organizations s2)
          = Some (set_org_names B ("org_" ++ B) org)) as FB.
  { rewrite Os, Os1. now apply find_renamed_new. }
  rewrite FB in U. injection U as _ <-.
  repeat split.
  - run. rewrite NormA, Os, Os1, <- NA.
    rewrite find_renamed_old; auto. congruence.
  - run. now rewrite NormB, FB.
  - exists i, a. auto.
Qed.

(** What a create, an update and a delete do to [db.organizations]. *)
Lemma create_org_inserts (utcnow : N) (payload : OrgCreate.t) (s s' : store)
  (out : OrgOut.t) :
  create_org utcnow payload s = (inr out, s') ->
  let org_name := normalize (OrgCreate.organization_name payload) in
  exists i d,
    organizations s' = (organizations s ++ [d])%list
    /\ admins s'
       = (admins s ++ [Admin.Build_doc _ i (OrgCreate.email payload)
                         (hash_password (OrgCreate.password payload))
                         "admin" org_name])%list
    /\ Org.organization_name d = org_name
    /\ Org.collection_name d = "org_" ++ org_name
    /\ Org.admin_id d = str_oid i
    /\ out = {| OrgOut.organization_name := org_name;
                OrgOut.collection_name := "org_" ++ org_name;
                OrgOut.admin_id := str_oid i |}.
Proof.
  run. destruct (find _ (organizations s)); cbn; [discriminate|].
  intros H. injection H as <- <-. cbn. eexists. eexists.
  repeat split.
Qed.

Lemma update_org_organizations (payload : OrgUpdate.t)
  (current_admin : CurrentAdmin.t) (s : store) (d : Org.doc) :
  In d (organizations (snd (update_org payload current_admin s))) ->
  In d (organizations s)
  \/ exists raw,
       OrgUpdate.organization_name payload = Some raw
       /\ Org.organization_name d = normalize raw
       /\ Org.collection_name d = "org_" ++ normalize raw.
Proof.
  rewrite update_org_steps.
  destruct (find _ (organizations s)) as [org|]; [|now left].
  destruct (OrgUpdate.organization_name payload) as [raw|]; [|now left].
  assert (forall s2, organizations s2
                     = organizations
                         (snd (rename_org org
                                 (CurrentAdmin.org_id current_admin)
                                 (normalize raw) current_admin s)) ->
                     In d (organizations s2) ->
                     In d (organizations s)
                     \/ exists raw0,
                          Some raw = Some raw0
                          /\ Org.organization_name d = normalize raw0
                          /\ Org.collection_name d = "org_" ++ normalize raw0)
    as G.
  { intros s2 ->.
    destruct (rename_org_cases org (CurrentAdmin.org_id current_admin)
                (normalize raw) current_admin s)
      as [[-> _]|[_ [[_ ->]|[_ [[_ ->]|[i [_ ->]]]]]]]; cbn [snd organizations];
      auto; intros I; apply in_update_first in I;
      (destruct I as [I|[y [_ [_ ->]]]]; [now left|]);
      right; exists raw; repeat split. }
  destruct (rename_org _ _ _ _ s) as [[e|target] s1]; [now apply G|].
  cbn [snd] in G.
  assert (organizations (snd (update_credentials payload current_admin s1))
          = organizations s1) as K.
  { destruct (update_credentials_cases payload current_admin s1)
      as [[_ ->]|[_ [[_ ->]|[i [_ ->]]]]]; reflexivity. }
  destruct (update_credentials _ _ s1) as [[e|u] s2]; cbn [snd] in K;
    [now apply G|].
  destruct (find _ (organizations s2)); now apply G.
Qed.

Lemma delete_org_organizations (organization_name : string)
  (current_admin : CurrentAdmin.t) (s : store) (d : Org.doc) :
  In d (organizations (snd (delete_org organization_name current_admin s))) ->
  In d (organizations s).
Proof.
  rewrite delete_org_steps. cbv zeta.
  destruct (negb _); [auto|].
  destruct (find _ (organizations s)) as [org|]; [|auto].
  destruct (ObjectId (Org.admin_id org)); cbn; [|auto].
  apply in_delete_first.
Qed.

(** C4: in every reachable store, and so in the store that any request
    leaves, each organization has ["org_" ++ organization_name] as its
    collection name.  A create appends one document, with both fields made
    of the normalized name; an update leaves documents as they were or with
    both fields made of the normalized new name; get and delete write
    neither field. *)
Theorem derived_naming :
  (forall s, reachable s ->
     forall d, In d (organizations s) ->
       Org.collection_name d = "org_" ++ Org.organization_name d)
  /\ (forall s r, reachable s ->
        forall d, In d (organizations (serve s r)) ->
          Org.collection_name d = "org_" ++ Org.organization_name d)
  /\ (forall utcnow payload s out s',
        create_org utcnow payload s = (inr out, s') ->
        exists d,
          organizations s' = (organizations s ++ [d])%list
          /\ Org.organization_name d
             = normalize (OrgCreate.organization_name payload)
          /\ Org.collection_name d
             = "org_" ++ normalize (OrgCreate.organization_name payload))
  /\ (forall payload current_admin s d,
        In d (organizations (snd (update_org payload current_admin s))) ->
        In d (organizations s)
        \/ exists raw,
             OrgUpdate.organization_name payload = Some raw
             /\ Org.organization_name d = normalize raw
             /\ Org.collection_name d = "org_" ++ normalize raw)
  /\ (forall n s, organizations (snd (get_org n s)) = organizations s)
  /\ (forall n current_admin s d,
        In d (organizations (snd (delete_org n current_admin s))) ->
        In d (organizations s)).
Proof.
  assert (forall s, reachable s ->
            forall d, In d (organizations s) ->
              Org.collection_name d = "org_" ++ Org.organization_name d) as G.
  { intros s R. apply reachable_consistent in R.
    apply Forall_forall. exact (derived_names s R). }
  split; [exact G|].
  split; [intros s r R; apply G; now apply reachable_serve|].
  split.
  { intros utcnow payload s out s' H.
    destruct (create_org_inserts utcnow payload s s' out H)
      as [i [d [O [_ [N [C _]]]]]].
    exists d. auto. }
  split; [exact update_org_organizations|].
  split; [intros n s; now rewrite get_org_reads|].
  exact delete_org_organizations.
Qed.

Lemma credentials_password (payload : OrgUpdate.t) (a : Admin.doc) :
  Admin.password (credentials_of payload a)
  = if truthy (OrgUpdate.password payload)
    then hash_password (field (OrgUpdate.password payload))
    else Admin.password a.
Proof.
  unfold credentials_of.
  destruct (truthy (OrgUpdate.email payload));
    destruct (truthy (OrgUpdate.password payload)); reflexivity.
Qed.

Lemma field_truthy (o : option string) (v : string) :
  o = Some v -> v <> "" -> truthy o = true /\ field o = v.
Proof. intros -> N. destruct v; [contradiction | now split]. Qed.

(** The first match of a list that is given by the documents in front of it
    and behind it. *)
Lemma find_split {A : Type} (p : A -> bool) (l1 l2 : list A) (x : A) :
  (forall y, In y l1 -> p y = false) -> p x = true ->
  find p (l1 ++ x :: l2) = Some x.
Proof.
  intros N P. induction l1 as [|y l1 IH]; cbn.
  - now rewrite P.
  - rewrite (N y (or_introl eq_refl)). apply IH. intros z I. apply N.
    now right.
Qed.

Lemma update_first_split {A : Type} (p : A -> bool) (f : A -> A)
  (l1 l2 : list A) (x : A) :
  (forall y, In y l1 -> p y = false) -> p x = true ->
  update_first p f (l1 ++ x :: l2) = (l1 ++ f x :: l2)%list.
Proof.
  intros N P. induction l1 as [|y l1 IH]; cbn.
  - now rewrite P.
  - rewrite (N y (or_introl eq_refl)). f_equal. apply IH. intros z I.
    apply N. now right.
Qed.

Lemma update_first_no_match {A : Type} (p : A -> bool) (f : A -> A)
  (l : list A) :
  (forall y, In y l -> p y = false) -> update_first p f l = l.
Proof.
  intros N. induction l as [|y l IH]; cbn; [reflexivity|].
  rewrite (N y (or_introl eq_refl)). f_equal. apply IH. intros z I.
  apply N. now right.
Qed.

Lemma find_no_match {A : Type} (p : A -> bool) (l : list A) :
  (forall y, In y l -> p y = false) -> find p l = None.
Proof.
  intros N. induction l as [|y l IH]; cbn; [reflexivity|].
  rewrite (N y (or_introl eq_refl)). apply IH. intros z I. apply N.
  now right.
Qed.

(** Step 4 of [update_org] on the admin document it matches, for a payload
    that carries the password [plaintext]. *)
Lemma credentials_with_password (payload : OrgUpdate.t) (plaintext : string)
  (a : Admin.doc) :
  OrgUpdate.password payload = Some plaintext -> plaintext <> "" ->
  credentials_of payload a
  = {| Admin._id := Admin._id a;
       Admin.email := match OrgUpdate.email payload with
                      | Some (String c e) => String c e
                      | _ => Admin.email a
                      end;
       Admin.password := hash_password plaintext;
       Admin.role := Admin.role a;
       Admin.organization := Admin.organization a |}.
Proof.
  intros Pw Ne. unfold credentials_of. rewrite Pw.
  destruct plaintext as [|c p]; [contradiction|].
  destruct (OrgUpdate.email payload) as [[|c' e]|]; reflexivity.
Qed.

(** The writes of step 4 for such a payload. *)
Lemma writes_with_password (payload : OrgUpdate.t) (plaintext : string)
  (i : oid) :
  OrgUpdate.password payload = Some plaintext -> plaintext <> "" ->
  credential_writes payload i
  = (match OrgUpdate.email payload with
     | Some (String c e) => [SetAdminEmail i (String c e)]
     | _ => []
     end
     ++ [SetAdminPassword i (hash_password plaintext)])%list.
Proof.
  intros Pw Ne. unfold credential_writes. rewrite Pw.
  destruct plaintext as [|c p]; [contradiction|].
  destruct (OrgUpdate.email payload) as [[|c' e]|]; reflexivity.
Qed.

(** An update under the caller's own name, with a password: the lookup, the
    reading of the caller's admin identifier, the rewrite of the admin
    document. *)
Lemma update_org_same_name (payload : OrgUpdate.t)
  (current_admin : CurrentAdmin.t) (raw : string) (s : store) :
  OrgUpdate.organization_name payload = Some raw ->
  normalize raw = CurrentAdmin.org_id current_admin ->
  truthy (OrgUpdate.password payload) = true ->
  update_org payload current_admin s
  = match find (name_is (CurrentAdmin.org_id current_admin))
            (organizations s) with
    | None => (inl (HTTPException 404 "Organization not found"), s)
    | Some org =>
        match ObjectId (CurrentAdmin.admin_id current_admin) with
        | None => (inl InvalidId, s)
        | Some i =>
            (inr (view org),
             {| organizations := organizations s;
                admins := update_first (admin_id_is i)
                            (credentials_of payload) (admins s);
                collections := collections s;
                log := log s ++ credential_writes payload i |})
        end
    end.
Proof.
  intros Name Same Pw.
  assert (forall org,
            rename_org org (CurrentAdmin.org_id current_admin)
              (normalize raw) current_admin s
            = (inr (CurrentAdmin.org_id current_admin), s)) as Rn.
  { intros org. unfold rename_org. now rewrite Same, String.eqb_refl. }
  rewrite update_org_steps, Name.
  destruct (find _ (organizations s)) as [org|] eqn:F; [|reflexivity].
  rewrite Rn.
  destruct (update_credentials_cases payload current_admin s)
    as [[Q _]|[_ [[P ->]|[i [P ->]]]]].
  - rewrite Pw, orb_true_r in Q. discriminate.
  - now rewrite P.
  - rewrite P. cbn [organizations]. now rewrite F.
Qed.

(** C6: an update whose payload name normalizes to the caller's organization
    name and that carries the password [plaintext] leaves every document of
    [db.organizations] and the tenant collections as they were.  With no
    organization stored under the caller's name it answers 404 and writes
    nothing.  With [org] the first document stored under that name: if the
    caller's admin identifier is not the print of one, the call ends in
    [InvalidId] and writes nothing; if it reads as [i], the call answers
    [org]'s fields, its writes are the e-mail, if one is supplied, and then
    the hash of [plaintext], both on the admin of identifier [i]; the first
    admin document of identifier [i] becomes the same document with the hash
    of [plaintext] as its password and the supplied e-mail, if there is one,
    as its e-mail, every other admin document stays as it was and where it
    was, and with no admin of identifier [i] stored [db.admins] stays as it
    was. *)
Theorem credential_only_update (payload : OrgUpdate.t)
  (current_admin : CurrentAdmin.t) (raw plaintext : string) (s : store) :
  OrgUpdate.organization_name payload = Some raw ->
  normalize raw = CurrentAdmin.org_id current_admin ->
  OrgUpdate.password payload = Some plaintext ->
  plaintext <> "" ->
  organizations (snd (update_org payload current_admin s)) = organizations s
  /\ collections (snd (update_org payload current_admin s)) = collections s
  /\ ((forall d, In d (organizations s) ->
         Org.organization_name d <> CurrentAdmin.org_id current_admin) ->
      update_org payload current_admin s
      = (inl (HTTPException 404 "Organization not found"), s))
  /\ (forall l1 org l2,
        organizations s = (l1 ++ org :: l2)%list ->
        Org.organization_name org = CurrentAdmin.org_id current_admin ->
        (forall d, In d l1 ->
           Org.organization_name d <> CurrentAdmin.org_id current_admin) ->
        (ObjectId (CurrentAdmin.admin_id current_admin) = None ->
         update_org payload current_admin s = (inl InvalidId, s))
        /\ (forall i,
              ObjectId (CurrentAdmin.admin_id current_admin) = Some i ->
              fst (update_org payload current_admin s)
              = inr {| OrgView._id := str_oid (Org._id org);
                       OrgView.organization_name := Org.organization_name org;
                       OrgView.collection_name := Org.collection_name org;
                       OrgView.admin_id := Org.admin_id org;
                       OrgView.created_at := Org.created_at org |}
              /\ log (snd (update_org payload current_admin s))
                 = (log s
                    ++ match OrgUpdate.email payload with
                       | Some (String c e) => [SetAdminEmail i (String c e)]
                       | _ => []
                       end
                    ++ [SetAdminPassword i (hash_password plaintext)])%list
              /\ (forall m1 a m2,
                    admins s = (m1 ++ a :: m2)%list ->
                    Admin._id a = i ->
                    (forall x, In x m1 -> Admin._id x <> i) ->
                    admins (snd (update_org payload current_admin s))
                    = (m1
                       ++ {| Admin._id := Admin._id a;
                             Admin.email :=
                               match OrgUpdate.email payload with
                               | Some (String c e) => String c e
                               | _ => Admin.email a
                               end;
                             Admin.password := hash_password plaintext;
                             Admin.role := Admin.role a;
                             Admin.organization := Admin.organization a |}
                       :: m2)%list)
              /\ ((forall x, In x (admins s) -> Admin._id x <> i) ->
                  admins (snd (update_org payload current_admin s))
                  = admins s))).
Proof.
  intros Name Same Pw Ne.
  destruct (field_truthy _ plaintext Pw Ne) as [Tr _].
  rewrite (update_org_same_name payload current_admin raw s Name Same Tr).
  split; [|split; [|split]].
  - destruct (find _ (organizations s)); [|reflexivity].
    now destruct (ObjectId _).
  - destruct (find _ (organizations s)); [|reflexivity].
    now destruct (ObjectId _).
  - intros N. rewrite find_no_match; [reflexivity|].
    intros d I. apply String.eqb_neq. now apply N.
  - intros l1 org l2 O En N. rewrite O.
    rewrite find_split;
      [| intros d I; apply String.eqb_neq; now apply N
       | now apply String.eqb_eq].
    split; [now intros ->|]. intros i ->. cbn [fst snd log admins].
    split; [reflexivity|].
    split; [|split].
    + now rewrite (writes_with_password payload plaintext i Pw Ne).
    + intros m1 a m2 Ad Ia Nm. rewrite Ad.
      rewrite update_first_split.
      * now rewrite (credentials_with_password payload plaintext a Pw Ne).
      * intros x I. apply oid_eqb_neq. now apply Nm.
      * now apply oid_eqb_eq.
    + intros Nm. apply update_first_no_match.
      intros x I. apply oid_eqb_neq. now apply Nm.
Qed.

(** The passwords of [db.admins] after the rename step are those of before. *)
Lemma rename_org_passwords (org : Org.doc) (target new : string)
  (current_admin : CurrentAdmin.t) (s : store) (a : Admin.doc) :
  In a (admins (snd (rename_org org target new current_admin s))) ->
  exists a0, In a0 (admins s) /\ Admin.password a = Admin.password a0.
Proof.
  destruct (rename_org_cases org target new current_admin s)
    as [[-> _]|[_ [[_ ->]|[_ [[_ ->]|[i [_ ->]]]]]]]; cbn [snd admins];
    intros I; try (now exists a).
  apply in_update_first in I. destruct I as [I|[y [I [_ ->]]]].
  - now exists a.
  - now exists y.
Qed.

Lemma update_org_passwords (payload : OrgUpdate.t)
  (current_admin : CurrentAdmin.t) (s : store) (a : Admin.doc) :
  In a (admins (snd (update_org payload current_admin s))) ->
  (exists a0, In a0 (admins s) /\ Admin.password a = Admin.password a0)
  \/ (truthy (OrgUpdate.password payload) = true
      /\ Admin.password a
         = hash_password (field (OrgUpdate.password payload))).
Proof.
  rewrite update_org_steps.
  destruct (find _ (organizations s)) as [org|]; [|left; now exists a].
  destruct (OrgUpdate.organization_name payload) as [raw|];
    [|left; now exists a].
  pose proof (rename_org_passwords org (CurrentAdmin.org_id current_admin)
                (normalize raw) current_admin s) as G.
  destruct (rename_org _ _ _ _ s) as [[e|target] s1]; cbn [snd] in *;
    [intros I; left; now apply G|].
  assert (In a (admins (snd (update_credentials payload current_admin s1))) ->
          (exists a0, In a0 (admins s)
                      /\ Admin.password a = Admin.password a0)
          \/ (truthy (OrgUpdate.password payload) = true
              /\ Admin.password a
                 = hash_password (field (OrgUpdate.password payload)))) as K.
  { destruct (update_credentials_cases payload current_admin s1)
      as [[_ ->]|[_ [[_ ->]|[i [_ ->]]]]]; cbn [snd admins]; intros I;
      try (left; now apply G).
    apply in_update_first in I. destruct I as [I|[y [I [_ ->]]]];
      [left; now apply G|].
    rewrite credentials_password.
    destruct (truthy (OrgUpdate.password payload)); [now right|].
    left. now apply G. }
  destruct (update_credentials _ _ s1) as [[e|u] s2]; cbn [snd] in K;
    [exact K|].
  now destruct (find _ (organizations s2)).
Qed.

(** C8: with a credential store whose hash of a plaintext is never that
    plaintext, the admin that a create inserts holds the hash of the
    payload's password and not the password; after an update that carries a
    password, the caller's admin holds the hash of it and not the password;
    and every password in [db.admins] after a request was there before or is
    the hash of the password that the request supplied. *)
Theorem passwords_stored_hashed :
  (forall plaintext, hash_password plaintext <> plaintext) ->
  (forall utcnow payload s out s',
      create_org utcnow payload s = (inr out, s') ->
      exists a,
        admins s' = (admins s ++ [a])%list
        /\ str_oid (Admin._id a) = OrgOut.admin_id out
        /\ Admin.password a = hash_password (OrgCreate.password payload)
        /\ Admin.password a <> OrgCreate.password payload)
  /\ (forall payload current_admin s out s' plaintext i a,
        OrgUpdate.password payload = Some plaintext -> plaintext <> "" ->
        update_org payload current_admin s = (inr out, s') ->
        ObjectId (CurrentAdmin.admin_id current_admin) = Some i ->
        find (admin_id_is i) (admins s') = Some a ->
        Admin.password a = hash_password plaintext
        /\ Admin.password a <> plaintext)
  /\ (forall utcnow payload s a,
        In a (admins (snd (create_org utcnow payload s))) ->
        In a (admins s)
        \/ Admin.password a = hash_password (OrgCreate.password payload))
  /\ (forall payload current_admin s a,
        In a (admins (snd (update_org payload current_admin s))) ->
        (exists a0, In a0 (admins s) /\ Admin.password a = Admin.password a0)
        \/ (truthy (OrgUpdate.password payload) = true
            /\ Admin.password a
               = hash_password (field (OrgUpdate.password payload))))
  /\ (forall n s, admins (snd (get_org n s)) = admins s)
  /\ (forall n current_admin s a,
        In a (admins (snd (delete_org n current_admin s))) ->
        In a (admins s)).
Proof.
  intros Hash. repeat apply conj.
  - intros utcnow payload s out s' H.
    destruct (create_org_inserts utcnow payload s s' out H)
      as [i [d [_ [Ad [_ [_ [_ ->]]]]]]].
    eexists. split; [exact Ad|]. cbn. repeat split. apply Hash.
  - intros payload current_admin s out s' plaintext i a Pw Ne U Pi Fa.
    destruct (field_truthy _ plaintext Pw Ne) as [Tr Fi].
    assert (Admin.password a = hash_password plaintext) as E;
      [|split; [exact E | rewrite E; apply Hash]].
    rewrite update_org_steps in U.
    destruct (find _ (organizations s)) as [org|]; [|discriminate].
    destruct (OrgUpdate.organization_name payload) as [raw|]; [|discriminate].
    destruct (rename_org _ _ _ _ s) as [[e|target] s1]; [discriminate|].
    destruct (update_credentials_cases payload current_admin s1)
      as [[Q _]|[_ [[_ Q]|[j [Pj Q]]]]].
    + rewrite Tr, orb_true_r in Q. discriminate.
    + rewrite Q in U. discriminate.
    + rewrite Q in U. rewrite Pi in Pj. injection Pj as <-.
      match type of U with
      | match find _ (organizations ?st) with _ => _ end = _ =>
          destruct (find _ (organizations st)); [|discriminate]
      end.
      injection U as _ <-. cbn [admins] in Fa.
      rewrite find_update_first in Fa.
      * destruct (find _ (admins s1)) as [a1|]; [|discriminate].
        injection Fa as <-. now rewrite credentials_password, Tr, Fi.
      * intros x. unfold admin_id_is.
        now destruct (credentials_keep payload x) as [-> _].
  - intros utcnow payload s a. run.
    destruct (find _ (organizations s)); cbn; [now left|].
    intros I. apply in_app_or in I. destruct I as [I|[<-|[]]];
      [now left | now right].
  - exact update_org_passwords.
  - intros n s. now rewrite get_org_reads.
  - intros n current_admin s a. rewrite delete_org_steps. cbv zeta.
    destruct (negb _); [auto|].
    destruct (find _ (organizations s)) as [org|]; [|auto].
    destruct (ObjectId (Org.admin_id org)); cbn; [|auto].
    apply in_delete_first.
Qed.

(** * Further properties of the handlers *)

(** ** Create *)

Lemma find_snoc_new {A : Type} (p : A -> bool) (l : list A) (x : A) :
  find p l = None -> p x = true -> find p (l ++ [x]) = Some x.
Proof.
  induction l as [|y l IH]; cbn; [now intros _ ->|].
  destruct (p y); [discriminate | exact IH].
Qed.

Lemma find_snoc_other {A : Type} (p : A -> bool) (l : list A) (x : A) :
  p x = false -> find p (l ++ [x]) = find p l.
Proof.
  intros H. induction l as [|y l IH]; cbn; [now rewrite H|].
  now destruct (p y).
Qed.

Lemma delete_first_snoc {A : Type} (p : A -> bool) (l : list A) (x : A) :
  find p l = None -> p x = true -> delete_first p (l ++ [x]) = l.
Proof.
  induction l as [|y l IH]; cbn; [now intros _ ->|].
  destruct (p y); [discriminate|]. intros F H. now rewrite IH.
Qed.

Lemma find_admin_none (i : oid) (l : list Admin.doc) :
  ~ In i (map Admin._id l) -> find (admin_id_is i) l = None.
Proof.
  intros N. destruct (find (admin_id_is i) l) as [a|] eqn:F; [|reflexivity].
  exfalso. apply N. apply find_some in F. destruct F as [I E].
  apply oid_eqb_eq in E. rewrite <- E. now apply in_map.
Qed.

(** A create whose normalized name is not stored succeeds. *)
Lemma create_org_free (utcnow : N) (payload : OrgCreate.t) (s : store) :
  let org_name := normalize (OrgCreate.organization_name payload) in
  let i := new_oid (map Admin._id (admins s)) in
  let a := Admin.Build_doc _ i (OrgCreate.email payload)
             (hash_password (OrgCreate.password payload)) "admin" org_name in
  let d := Org.Build_doc _ (new_oid (map Org._id (organizations s))) org_name
             ("org_" ++ org_name) (str_oid i) utcnow in
  find (name_is org_name) (organizations s) = None ->
  create_org utcnow payload s
  = (inr {| OrgOut.organization_name := org_name;
            OrgOut.collection_name := "org_" ++ org_name;
            OrgOut.admin_id := str_oid i |},
     {| organizations := organizations s ++ [as_stored d];
        admins := admins s ++ [a];
        collections := create_org_collection org_name (collections s);
        log := log s ++ [CreateCollection org_name; InsertAdmin a;
                         InsertOrg d] |}).
Proof.
  intros org_name i a d F. run. fold org_name. rewrite F. cbn.
  now rewrite <- !app_assoc.
Qed.

(** X1: create fails only by the name being stored.  With the normalized name
    not stored it answers the three public fields and has issued three
    writes in this order: the tenant collection is provisioned, the admin is
    inserted (role ["admin"], the organization's name, the hashed password,
    an identifier that no stored admin has), the organization is inserted
    (the admin's identifier in print, [utcnow]); the documents that were
    stored stay as they were, in front of the new ones, and the store holds
    the new organization with its creation time cut to the millisecond. *)
Theorem create_org_outcome (utcnow : N) (payload : OrgCreate.t) (s : store) :
  let org_name := normalize (OrgCreate.organization_name payload) in
  let i := new_oid (map Admin._id (admins s)) in
  let a := Admin.Build_doc _ i (OrgCreate.email payload)
             (hash_password (OrgCreate.password payload)) "admin" org_name in
  let d := Org.Build_doc _ (new_oid (map Org._id (organizations s))) org_name
             ("org_" ++ org_name) (str_oid i) utcnow in
  let kept := Org.Build_doc _ (new_oid (map Org._id (organizations s)))
                org_name ("org_" ++ org_name) (str_oid i)
                (utcnow / 1000 * 1000)%N in
  (In org_name (map Org.organization_name (organizations s))
   /\ create_org utcnow payload s
      = (inl (HTTPException 400 "Organization already exists"), s))
  \/
  (~ In org_name (map Org.organization_name (organizations s))
   /\ ~ In i (map Admin._id (admins s))
   /\ ~ In (Org._id d) (map Org._id (organizations s))
   /\ create_org utcnow payload s
      = (inr {| OrgOut.organization_name := org_name;
                OrgOut.collection_name := "org_" ++ org_name;
                OrgOut.admin_id := str_oid i |},
         {| organizations := organizations s ++ [kept];
            admins := admins s ++ [a];
            collections := create_org_collection org_name (collections s);
            log := log s ++ [CreateCollection org_name; InsertAdmin a;
                             InsertOrg d] |})).
Proof.
  intros org_name i a d kept.
  destruct (find (name_is org_name) (organizations s)) as [x|] eqn:F.
  - left. apply find_name_some in F. destruct F as [I E]. split.
    + rewrite <- E. now apply in_map.
    + run. fold org_name.
      destruct (find_name_in org_name (organizations s)) as [y ->];
        [rewrite <- E; now apply in_map | reflexivity].
  - right. split; [now apply find_name_none|].
    split; [apply new_oid_fresh|]. split; [apply new_oid_fresh|].
    now apply create_org_free.
Qed.

(** X2: after a successful create, get under any name that normalizes like
    the payload's answers the record that create announced, with [utcnow]
    cut to the millisecond as its creation time, and get under a name that
    normalizes otherwise answers what it answered before. *)
Theorem get_org_after_create (utcnow : N) (payload : OrgCreate.t)
  (s s' : store) (out : OrgOut.t) :
  create_org utcnow payload s = (inr out, s') ->
  (forall n,
      normalize n = normalize (OrgCreate.organization_name payload) ->
      exists v,
        get_org n s' = (inr v, s')
        /\ OrgView.organization_name v = OrgOut.organization_name out
        /\ OrgView.collection_name v = OrgOut.collection_name out
        /\ OrgView.admin_id v = OrgOut.admin_id out
        /\ OrgView.created_at v = (utcnow / 1000 * 1000)%N)
  /\ (forall n,
        normalize n <> normalize (OrgCreate.organization_name payload) ->
        fst (get_org n s') = fst (get_org n s)).
Proof.
  intros H.
  destruct (find (name_is (normalize (OrgCreate.organization_name payload)))
              (organizations s)) as [x|] eqn:F.
  { run. rewrite F in H. discriminate. }
  rewrite (create_org_free utcnow payload s F) in H.
  injection H as <- <-. split.
  - intros n E. eexists. split.
    + run. cbn [organizations]. rewrite E.
      rewrite (find_snoc_new _ _ _ F); [reflexivity|].
      unfold name_is. cbn. apply String.eqb_refl.
    + cbn. repeat split.
  - intros n E. run. cbn [organizations].
    rewrite find_snoc_other;
      [destruct (find (name_is (normalize n)) (organizations s));
       reflexivity|].
    unfold name_is. cbn. apply String.eqb_neq. congruence.
Qed.

(** X3: a create that succeeded is undone, in [db.organizations] and in
    [db.admins], by the delete of the new organization by its admin: both
    collections are as they were before the create. *)
Theorem delete_org_after_create (utcnow : N) (payload : OrgCreate.t)
  (s s1 : store) (out : OrgOut.t) (n : string)
  (current_admin : CurrentAdmin.t) :
  create_org utcnow payload s = (inr out, s1) ->
  normalize n = OrgOut.organization_name out ->
  CurrentAdmin.org_id current_admin = OrgOut.organization_name out ->
  exists s2,
    delete_org n current_admin s1 = (inr {| Deleted.status := "deleted" |}, s2)
    /\ organizations s2 = organizations s
    /\ admins s2 = admins s.
Proof.
  intros H En Own.
  destruct (find (name_is (normalize (OrgCreate.organization_name payload)))
              (organizations s)) as [x|] eqn:F.
  { run. rewrite F in H. discriminate. }
  rewrite (create_org_free utcnow payload s F) in H.
  injection H as <- <-. cbn in En, Own.
  rewrite delete_org_steps. cbv zeta. rewrite Own, En, String.eqb_refl.
  cbn [negb organizations admins collections log].
  rewrite (find_snoc_new _ _ _ F);
    [|unfold name_is; cbn; apply String.eqb_refl].
  cbn [Org.admin_id as_stored]. rewrite ObjectId_str.
  eexists. split; [reflexivity|]. cbn [organizations admins]. split.
  - apply delete_first_snoc; [exact F|].
    unfold name_is. cbn. apply String.eqb_refl.
  - apply delete_first_snoc.
    + apply find_admin_none. apply new_oid_fresh.
    + unfold admin_id_is. cbn. apply oid_eqb_refl.
Qed.

(** ** Get *)

(** X4: in a reachable store every stored organization is fetched under its
    own name, and under every name that normalizes to it, and get writes
    nothing; in any store, get under a name whose normalized form is not
    stored answers 404 and writes nothing. *)
Theorem get_org_stored (s : store) :
  reachable s ->
  (forall d n,
      In d (organizations s) -> normalize n = Org.organization_name d ->
      get_org n s = (inr (view d), s))
  /\ (forall d,
        In d (organizations s) ->
        get_org (Org.organization_name d) s = (inr (view d), s))
  /\ (forall n,
        ~ In (normalize n) (map Org.organization_name (organizations s)) ->
        get_org n s
        = (inl (HTTPException 404 "Organization not found"), s)).
Proof.
  intros R. apply reachable_consistent in R.
  assert (forall d n,
            In d (organizations s) -> normalize n = Org.organization_name d ->
            get_org n s = (inr (view d), s)) as G.
  { intros d n I E. run. rewrite E, find_name_unique;
      [reflexivity | exact (unique_names s R) | exact I]. }
  split; [exact G|]. split.
  - intros d I. apply G; [exact I|].
    pose proof (normal_names s R) as Nn. rewrite Forall_forall in Nn.
    exact (Nn d I).
  - intros n N. run.
    destruct (find (name_is (normalize n)) (organizations s)) as [d|] eqn:F;
      [|reflexivity].
    apply find_name_some in F. destruct F as [I E].
    exfalso. apply N. rewrite <- E. now apply in_map.
Qed.

(** ** The stored names *)

(** X5: in a reachable store no two organizations have the same name, each
    name is its own [strip] and its own [lower] (no white space at either
    end, no capital), each organization's admin reference reads back as the
    identifier of a stored admin, and no two organizations refer to the same
    admin. *)
Theorem reachable_names (s : store) :
  reachable s ->
  NoDup (map Org.organization_name (organizations s))
  /\ (forall d,
        In d (organizations s) ->
        strip (Org.organization_name d) = Org.organization_name d
        /\ lower (Org.organization_name d) = Org.organization_name d)
  /\ (forall d,
        In d (organizations s) ->
        exists i a,
          ObjectId (Org.admin_id d) = Some i
          /\ find (admin_id_is i) (admins s) = Some a
          /\ Admin._id a = i)
  /\ NoDup (map Org.admin_id (organizations s)).
Proof.
  intros R. apply reachable_consistent in R.
  split; [exact (unique_names s R)|]. split; [|split].
  - intros d I. pose proof (normal_names s R) as Nn.
    rewrite Forall_forall in Nn. specialize (Nn d I).
    split; [now apply normal_strip | now apply normal_lower].
  - intros d I. destruct (consistent_admin_ref s d R I) as [i [_ [P J]]].
    destruct (find_admin_in i (admins s) J) as [a [F E]].
    exists i, a. auto.
  - exact (unique_admin_refs s R).
Qed.

(** ** Names of white space *)

(** *** Names of white space *)

Lemma lstrip_blank (l : list N) :
  (forall c, In c l -> isspace c = true) -> lstrip l = [].
Proof.
  induction l as [|c l IH]; cbn [lstrip]; [reflexivity|].
  intros H. rewrite (H c) by now left. apply IH. intros x I. apply H.
  now right.
Qed.

Lemma rstrip_empty (l : list N) :
  rstrip l = [] -> forall c, In c l -> isspace c = true.
Proof.
  induction l as [|c l IH]; cbn [rstrip]; [intros _ c []|].
  destruct (rstrip l) as [|d r] eqn:E; [|discriminate].
  destruct (isspace c) eqn:Ec; [|discriminate].
  intros _ x [<-|I]; [exact Ec | now apply IH].
Qed.

Lemma lstrip_empty (l : list N) :
  (forall c, In c (lstrip l) -> isspace c = true) ->
  forall c, In c l -> isspace c = true.
Proof.
  induction l as [|c l IH]; cbn [lstrip]; [intros _ c []|].
  destruct (isspace c) eqn:Ec.
  - intros H x [<-|I]; [exact Ec | now apply IH].
  - intros H. specialize (H c (or_introl eq_refl)). congruence.
Qed.

Lemma normalize_blank (n : string) : normalize n = "" <-> blank_name n.
Proof.
  unfold blank_name. rewrite normalize_decoded. split.
  - intros E. apply encode_empty in E.
    unfold normalize_points, lower_points in E.
    apply lower_from_sound in E. unfold strip_points in E.
    apply lstrip_empty, rstrip_empty. now rewrite E.
  - intros B. unfold normalize_points, strip_points.
    now rewrite lstrip_blank.
Qed.

(** X6: a name normalizes to the empty string exactly when it is made of
    white space only, the empty name included; the handlers have no check
    against it: with no organization stored under the empty name, create
    under such a name succeeds and stores an organization named [""] whose
    collection name is ["org_"]. *)
Theorem create_org_blank_name :
  (forall n, normalize n = "" <-> blank_name n)
  /\ (forall utcnow payload s,
        blank_name (OrgCreate.organization_name payload) ->
        ~ In "" (map Org.organization_name (organizations s)) ->
        exists i s' d,
          create_org utcnow payload s
          = (inr {| OrgOut.organization_name := "";
                    OrgOut.collection_name := "org_";
                    OrgOut.admin_id := i |}, s')
          /\ In d (organizations s')
          /\ Org.organization_name d = ""
          /\ Org.collection_name d = "org_").
Proof.
  split; [exact normalize_blank|].
  intros utcnow payload s B N. apply normalize_blank in B.
  assert (find (name_is (normalize (OrgCreate.organization_name payload)))
            (organizations s) = None) as F.
  { rewrite B.
    destruct (find (name_is "") (organizations s)) as [d|] eqn:F;
      [|reflexivity].
    apply find_name_some in F. destruct F as [I E].
    exfalso. apply N. rewrite <- E. now apply in_map. }
  rewrite (create_org_free utcnow payload s F), B.
  eexists. eexists. eexists. split; [reflexivity|].
  cbn [organizations]. split; [apply in_or_app; right; now left|].
  split; reflexivity.
Qed.

(** ** Update *)

Lemma update_first_same {A : Type} (p : A -> bool) (f : A -> A) (l : list A) :
  (forall x, In x l -> p x = true -> f x = x) -> update_first p f l = l.
Proof.
  induction l as [|x l IH]; cbn; [reflexivity|].
  intros H. destruct (p x) eqn:E.
  - rewrite H; auto.
  - rewrite IH; [reflexivity|]. intros y I. apply H. now right.
Qed.

Lemma credentials_absent (payload : OrgUpdate.t) (i : oid) :
  truthy (OrgUpdate.email payload) || truthy (OrgUpdate.password payload)
  = false ->
  (forall a, credentials_of payload a = a)
  /\ credential_writes payload i = [].
Proof.
  intros H. apply orb_false_elim in H. destruct H as [E P].
  unfold credentials_of, credential_writes. rewrite E, P. now split.
Qed.

(** X7: a caller whose organization is not stored changes nothing: update
    answers 404 whatever the payload, delete answers 403 or 404, and the
    store is as it was.  In a reachable store this is the case of every
    caller whose [org_id] is not in normal form, since update looks the
    caller's [org_id] up as it is. *)
Theorem stale_caller (current_admin : CurrentAdmin.t) (s : store) :
  (~ In (CurrentAdmin.org_id current_admin)
       (map Org.organization_name (organizations s)) ->
   (forall payload,
       update_org payload current_admin s
       = (inl (HTTPException 404 "Organization not found"), s))
   /\ (forall n,
         delete_org n current_admin s
         = (inl (HTTPException 403
                   "You are not authorized to delete this organization"), s)
         \/ delete_org n current_admin s
            = (inl (HTTPException 404 "Organization not found"), s)))
  /\ (reachable s ->
      normalize (CurrentAdmin.org_id current_admin)
      <> CurrentAdmin.org_id current_admin ->
      ~ In (CurrentAdmin.org_id current_admin)
          (map Org.organization_name (organizations s))).
Proof.
  split.
  - intros N.
    assert (find (name_is (CurrentAdmin.org_id current_admin))
              (organizations s) = None) as F.
    { destruct (find _ (organizations s)) as [d|] eqn:F; [|reflexivity].
      apply find_name_some in F. destruct F as [I E].
      exfalso. apply N. rewrite <- E. now apply in_map. }
    split.
    + intros payload. rewrite update_org_steps. now rewrite F.
    + intros n. rewrite delete_org_steps. cbv zeta.
      destruct (String.eqb_spec (CurrentAdmin.org_id current_admin)
                  (normalize n)) as [E|E]; cbn [negb]; [|now left].
      right. now rewrite <- E, F.
  - intros R Q I. apply reachable_consistent in R.
    apply in_map_iff in I. destruct I as [d [E I]].
    pose proof (normal_names s R) as Nn. rewrite Forall_forall in Nn.
    specialize (Nn d I). unfold normal_name in Nn. rewrite E in Nn.
    contradiction.
Qed.

(** X8: an update whose payload name normalizes to the caller's organization
    name and whose e-mail and password are absent or empty writes nothing
    and answers the stored record; the caller's admin identifier is not
    read. *)
Theorem update_org_no_change (payload : OrgUpdate.t)
  (current_admin : CurrentAdmin.t) (raw : string) (org : Org.doc)
  (s : store) :
  find (name_is (CurrentAdmin.org_id current_admin)) (organizations s)
  = Some org ->
  OrgUpdate.organization_name payload = Some raw ->
  normalize raw = CurrentAdmin.org_id current_admin ->
  truthy (OrgUpdate.email payload) = false ->
  truthy (OrgUpdate.password payload) = false ->
  update_org payload current_admin s = (inr (view org), s).
Proof.
  intros F N E Te Tp. rewrite update_org_steps, F, N.
  unfold rename_org. rewrite E, String.eqb_refl. cbn [negb]. unfold ret.
  unfold update_credentials, when. rewrite Te, Tp. cbn [orb]. unfold ret.
  now rewrite F.
Qed.

(** The outcome of a rename to a name that is not stored. *)
Lemma update_org_renames (payload : OrgUpdate.t)
  (current_admin : CurrentAdmin.t) (raw : string) (org : Org.doc) (i : oid)
  (s : store) :
  let A := CurrentAdmin.org_id current_admin in
  let B := normalize raw in
  consistent s ->
  In org (organizations s) -> Org.organization_name org = A ->
  OrgUpdate.organization_name payload = Some raw ->
  B <> A ->
  ~ In B (map Org.organization_name (organizations s)) ->
  ObjectId (CurrentAdmin.admin_id current_admin) = Some i ->
  update_org payload current_admin s
  = (inr (view (set_org_names B ("org_" ++ B) org)),
     {| organizations :=
          update_first (org_id_is (Org._id org))
            (set_org_names B ("org_" ++ B)) (organizations s);
        admins :=
          update_first (admin_id_is i)
            (fun a => credentials_of payload (set_admin_organization B a))
            (admins s);
        collections := rename_and_sync_collection A B (collections s);
        log := log s
               ++ [SetOrgNames (Org._id org) B ("org_" ++ B);
                   SetAdminOrganization i B; RenameAndSync A B]
               ++ credential_writes payload i |}).
Proof.
  intros A B R I NA Name Neq Free Pi.
  rewrite update_org_steps. fold A. rewrite <- NA.
  rewrite (find_name_unique _ _ (unique_names s R) I), Name, NA. fold B.
  destruct (rename_org_cases org A B current_admin s)
    as [[_ E]|[_ [[[d F] _]|[_ [[Pn _]|[j [Pj ->]]]]]]].
  - contradiction.
  - apply find_name_some in F. destruct F as [Id Ed].
    exfalso. apply Free. rewrite <- Ed. now apply in_map.
  - congruence.
  - rewrite Pi in Pj. injection Pj as <-.
    match goal with
    | |- context [update_credentials _ _ ?st] => set (s1 := st)
    end.
    assert (find (name_is B) (organizations s1)
            = Some (set_org_names B ("org_" ++ B) org)) as FB.
    { subst s1. cbn [organizations].
      apply find_renamed_new; [exact (unique_org_ids s R) | exact I | exact Free]. }
    destruct (update_credentials_cases payload current_admin s1)
      as [[Q ->]|[_ [[Pn _]|[j [Pj ->]]]]].
    + rewrite FB. destruct (credentials_absent payload i Q) as [Ca ->].
      subst s1.
      rewrite (update_first_ext (admin_id_is i)
                 (fun a => credentials_of payload (set_admin_organization B a))
                 (set_admin_organization B)) by (intros a; apply Ca).
      now rewrite app_nil_r, <- !app_assoc.
    + congruence.
    + rewrite Pi in Pj. injection Pj as <-. cbn [organizations].
      rewrite FB. subst s1. cbn [admins organizations collections log].
      rewrite update_first_twice by reflexivity.
      now rewrite <- !app_assoc.
Qed.

(** X9: in a reachable store, an update that renames the caller's
    organization [org] to a name [B] that is not stored, by a caller whose
    admin identifier reads as [i], answers [org]'s record under [B] after
    these writes, in this order: the organization gets the name [B] and the
    collection name ["org_" ++ B]; the admin of identifier [i] gets [B] as
    its organization; the tenant collection is renamed and synchronized; the
    e-mail and the password are set if supplied.  Nothing else changes. *)
Theorem update_org_rename (payload : OrgUpdate.t)
  (current_admin : CurrentAdmin.t) (raw : string) (org : Org.doc) (i : oid)
  (s : store) :
  let A := CurrentAdmin.org_id current_admin in
  let B := normalize raw in
  reachable s ->
  In org (organizations s) -> Org.organization_name org = A ->
  OrgUpdate.organization_name payload = Some raw ->
  B <> A ->
  ~ In B (map Org.organization_name (organizations s)) ->
  ObjectId (CurrentAdmin.admin_id current_admin) = Some i ->
  update_org payload current_admin s
  = (inr (view (set_org_names B ("org_" ++ B) org)),
     {| organizations :=
          update_first (org_id_is (Org._id org))
            (set_org_names B ("org_" ++ B)) (organizations s);
        admins :=
          update_first (admin_id_is i)
            (fun a => credentials_of payload (set_admin_organization B a))
            (admins s);
        collections := rename_and_sync_collection A B (collections s);
        log := log s
               ++ [SetOrgNames (Org._id org) B ("org_" ++ B);
                   SetAdminOrganization i B; RenameAndSync A B]
               ++ credential_writes payload i |}).
Proof.
  intros A B R. apply reachable_consistent in R.
  now apply update_org_renames.
Qed.

(** X10: the handlers do not undo what they wrote before an exception.  An
    update that renames to a name that is not stored, by a caller whose admin
    identifier does not read as an identifier, ends in [InvalidId] with the
    organization renamed and nothing else written; a delete of an
    organization whose admin reference does not read as an identifier ends
    in [InvalidId] with the tenant collection dropped and both documents
    still stored. *)
Theorem no_rollback :
  (forall payload current_admin raw org s,
      find (name_is (CurrentAdmin.org_id current_admin)) (organizations s)
      = Some org ->
      OrgUpdate.organization_name payload = Some raw ->
      normalize raw <> CurrentAdmin.org_id current_admin ->
      ~ In (normalize raw) (map Org.organization_name (organizations s)) ->
      ObjectId (CurrentAdmin.admin_id current_admin) = None ->
      update_org payload current_admin s
      = (inl InvalidId,
         {| organizations :=
              update_first (org_id_is (Org._id org))
                (set_org_names (normalize raw) ("org_" ++ normalize raw))
                (organizations s);
            admins := admins s;
            collections := collections s;
            log := log s
                   ++ [SetOrgNames (Org._id org) (normalize raw)
                         ("org_" ++ normalize raw)] |}))
  /\ (forall n current_admin org s,
        CurrentAdmin.org_id current_admin = normalize n ->
        find (name_is (normalize n)) (organizations s) = Some org ->
        ObjectId (Org.admin_id org) = None ->
        delete_org n current_admin s
        = (inl InvalidId,
           {| organizations := organizations s;
              admins := admins s;
              collections := drop_org_collection (normalize n) (collections s);
              log := log s ++ [DropCollection (normalize n)] |})).
Proof.
  split.
  - intros payload current_admin raw org s F Name Neq Free Pn.
    rewrite update_org_steps, F, Name.
    destruct (rename_org_cases org (CurrentAdmin.org_id current_admin)
                (normalize raw) current_admin s)
      as [[_ E]|[_ [[[d G] _]|[_ [[_ ->]|[j [Pj _]]]]]]].
    + contradiction.
    + apply find_name_some in G. destruct G as [Id Ed].
      exfalso. apply Free. rewrite <- Ed. now apply in_map.
    + reflexivity.
    + congruence.
  - intros n current_admin org s Own F Pn.
    rewrite delete_org_steps. cbv zeta.
    now rewrite Own, String.eqb_refl, F, Pn.
Qed.

(** What an update makes of the two collections: each is as it was, or has
    had its first document of some identifier rewritten. *)
Lemma update_org_shape (payload : OrgUpdate.t) (current_admin : CurrentAdmin.t)
  (s : store) :
  (organizations (snd (update_org payload current_admin s)) = organizations s
   \/ exists i n,
        organizations (snd (update_org payload current_admin s))
        = update_first (org_id_is i) (set_org_names n ("org_" ++ n))
            (organizations s))
  /\ (admins (snd (update_org payload current_admin s)) = admins s
      \/ exists i g,
           admins (snd (update_org payload current_admin s))
           = update_first (admin_id_is i) g (admins s)
           /\ forall a,
                Admin._id (g a) = Admin._id a
                /\ Admin.role (g a) = Admin.role a
                /\ (Admin.password (g a) = Admin.password a
                    \/ exists p, Admin.password (g a) = hash_password p)).
Proof.
  rewrite update_org_steps.
  destruct (find _ (organizations s)) as [org|]; [|now split; left].
  destruct (OrgUpdate.organization_name payload) as [raw|];
    [|now split; left].
  assert (forall a, Admin._id (credentials_of payload a) = Admin._id a
                    /\ Admin.role (credentials_of payload a) = Admin.role a
                    /\ (Admin.password (credentials_of payload a)
                        = Admin.password a
                        \/ exists p, Admin.password (credentials_of payload a)
                                     = hash_password p)) as Kc.
  { intros a. destruct (credentials_keep payload a) as [K1 [K2 _]].
    split; [exact K1|]. split; [exact K2|]. rewrite credentials_password.
    destruct (truthy (OrgUpdate.password payload)); [right; eauto | now left]. }
  destruct (rename_org_cases org (CurrentAdmin.org_id current_admin)
              (normalize raw) current_admin s)
    as [[-> _]|[_ [[_ ->]|[_ [[_ ->]|[i [Pi ->]]]]]]].
  - destruct (update_credentials_cases payload current_admin s)
      as [[_ ->]|[_ [[_ ->]|[j [_ ->]]]]].
    + destruct (find _ (organizations s)); now split; left.
    + now split; left.
    + cbn [organizations].
      destruct (find _ (organizations s)); cbn [snd organizations admins];
        (split; [now left|]); right; exists j, (credentials_of payload);
        (split; [reflexivity | exact Kc]).
  - now split; left.
  - cbn [snd organizations admins]. split; [right; eauto | now left].
  - match goal with
    | |- context [update_credentials _ _ ?st] => set (s1 := st)
    end.
    destruct (update_credentials_cases payload current_admin s1)
      as [[_ ->]|[_ [[_ ->]|[j [Pj ->]]]]].
    + assert (organizations (snd
                (match find (name_is (normalize raw)) (organizations s1) with
                 | Some updated_org => (inr (view updated_org), s1)
                 | None => (@inl exn OrgView.t TypeError, s1)
                 end)) = organizations s1
              /\ admins (snd
                (match find (name_is (normalize raw)) (organizations s1) with
                 | Some updated_org => (inr (view updated_org), s1)
                 | None => (@inl exn OrgView.t TypeError, s1)
                 end)) = admins s1) as [-> ->]
        by (destruct (find _ (organizations s1)); now split).
      subst s1. cbn [organizations admins]. split; [right; eauto|].
      right. exists i, (set_admin_organization (normalize raw)).
      split; [reflexivity|]. intros a. cbn. auto.
    + subst s1. cbn [snd organizations admins]. split; [right; eauto|].
      right. exists i, (set_admin_organization (normalize raw)).
      split; [reflexivity|]. intros a. cbn. auto.
    + rewrite Pi in Pj. injection Pj as <-. cbn [organizations].
      assert (forall (st : store) (r : (exn + OrgView.t) * store),
                snd r = st ->
                organizations (snd r) = organizations st
                /\ admins (snd r) = admins st) as Fr
        by (intros st r <-; now split).
      match goal with
      | |- context [match find ?p ?l with
                    | Some u => (inr (view u), ?st)
                    | None => (inl TypeError, ?st)
                    end] =>
          destruct (Fr st (match find p l with
                           | Some u => (inr (view u), st)
                           | None => (inl TypeError, st)
                           end)) as [-> ->];
            [now destruct (find p l)|]
      end.
      subst s1. cbn [organizations admins]. split; [right; eauto|].
      right. exists i, (fun a => credentials_of payload
                                   (set_admin_organization (normalize raw) a)).
      split; [now rewrite update_first_twice|].
      intros a. destruct (Kc (set_admin_organization (normalize raw) a))
        as [K1 [K2 K3]].
      rewrite K1, K2. cbn. split; [reflexivity|]. split; [reflexivity|].
      exact K3.
Qed.

(** X11: an update, whatever its payload, caller and outcome, inserts and
    deletes no document and keeps, position by position, the identifier, the
    admin reference and the creation time of every organization and the
    identifier and the role of every admin. *)
Theorem update_org_keeps (payload : OrgUpdate.t)
  (current_admin : CurrentAdmin.t) (s : store) :
  let s' := snd (update_org payload current_admin s) in
  map Org._id (organizations s') = map Org._id (organizations s)
  /\ map Org.admin_id (organizations s') = map Org.admin_id (organizations s)
  /\ map Org.created_at (organizations s')
     = map Org.created_at (organizations s)
  /\ map Admin._id (admins s') = map Admin._id (admins s)
  /\ map Admin.role (admins s') = map Admin.role (admins s)
  /\ List.length (organizations s') = List.length (organizations s)
  /\ List.length (admins s') = List.length (admins s).
Proof.
  intros s'. subst s'.
  destruct (update_org_shape payload current_admin s) as [O Ad].
  assert (map Org._id (organizations (snd (update_org payload current_admin s)))
          = map Org._id (organizations s)) as E1.
  { destruct O as [->|[i [n ->]]]; [reflexivity|].
    now apply map_update_first. }
  assert (map Admin._id (admins (snd (update_org payload current_admin s)))
          = map Admin._id (admins s)) as E2.
  { destruct Ad as [->|[i [g [-> K]]]]; [reflexivity|].
    apply map_update_first. intros a. now destruct (K a). }
  repeat split.
  - exact E1.
  - destruct O as [->|[i [n ->]]]; [reflexivity|]. now apply map_update_first.
  - destruct O as [->|[i [n ->]]]; [reflexivity|]. now apply map_update_first.
  - exact E2.
  - destruct Ad as [->|[i [g [-> K]]]]; [reflexivity|].
    apply map_update_first. intros a. now destruct (K a) as [_ [? _]].
  - apply (f_equal (@List.length _)) in E1. now rewrite !length_map in E1.
  - apply (f_equal (@List.length _)) in E2. now rewrite !length_map in E2.
Qed.

(** ** The admins of a reachable store *)

Lemma length_delete_first {A : Type} (p : A -> bool) (l : list A) (x : A) :
  find p l = Some x -> S (List.length (delete_first p l)) = List.length l.
Proof.
  induction l as [|y l IH]; cbn; [discriminate|].
  destruct (p y); [reflexivity|]. intros F. cbn. now rewrite IH.
Qed.

Lemma serve_admins (s : store) (r : request) :
  consistent s ->
  Forall proper_admin (admins s)
  /\ List.length (admins s) = List.length (organizations s) ->
  Forall proper_admin (admins (serve s r))
  /\ List.length (admins (serve s r)) = List.length (organizations (serve s r)).
Proof.
  intros C [P L]. destruct r as [utcnow payload|n|payload ca|n ca];
    cbn [serve].
  - destruct (find (name_is (normalize (OrgCreate.organization_name payload)))
                (organizations s)) as [x|] eqn:F.
    + run. rewrite F. now split.
    + rewrite (create_org_free utcnow payload s F). cbn [snd admins organizations].
      split.
      * apply Forall_app. split; [exact P|]. repeat constructor. now eexists.
      * rewrite !length_app. cbn. now rewrite L.
  - rewrite get_org_reads. now split.
  - destruct (update_org_keeps payload ca s) as [_ [_ [_ [_ [_ [Lo La]]]]]].
    split; [|now rewrite Lo, La].
    destruct (update_org_shape payload ca s) as [_ [->|[i [g [-> K]]]]];
      [exact P|].
    apply Forall_update_first; [exact P|]. intros a I _.
    rewrite Forall_forall in P. destruct (P a I) as [Ra [p Pa]].
    destruct (K a) as [_ [K2 K3]]. split; [now rewrite K2|].
    destruct K3 as [->|Q]; [now exists p | exact Q].
  - rewrite delete_org_steps. cbv zeta.
    destruct (negb _); [now split|].
    destruct (find _ (organizations s)) as [org|] eqn:F; [|now split].
    pose proof F as F'. apply find_name_some in F'. destruct F' as [I _].
    destruct (consistent_admin_ref s org C I) as [i [_ [Pi J]]].
    rewrite Pi. cbn [snd admins organizations].
    destruct (find_admin_in i (admins s) J) as [a [Fa _]].
    split; [now apply Forall_delete_first|].
    apply length_delete_first in F. apply length_delete_first in Fa. lia.
Qed.

(** X12: in a reachable store every admin has the role ["admin"] and a
    password that is a value of [hash_password], and there are as many admins
    as organizations. *)
Theorem reachable_admins (s : store) :
  reachable s ->
  (forall a,
      In a (admins s) ->
      Admin.role a = "admin" /\ exists p, Admin.password a = hash_password p)
  /\ List.length (admins s) = List.length (organizations s).
Proof.
  intros [t [rs ->]].
  assert (G : forall s0,
             consistent s0 ->
             Forall proper_admin (admins s0)
             /\ List.length (admins s0) = List.length (organizations s0) ->
             Forall proper_admin (admins (fold_left serve rs s0))
             /\ List.length (admins (fold_left serve rs s0))
                = List.length (organizations (fold_left serve rs s0))).
  { induction rs as [|r rs IH]; cbn; [auto|].
    intros s0 C H. apply IH; [now apply serve_consistent|].
    now apply serve_admins. }
  destruct (G (blank t) (blank_consistent t)) as [P L];
    [split; [constructor | reflexivity]|].
  split; [|exact L]. intros a I. rewrite Forall_forall in P. exact (P a I).
Qed.

(** ** After a delete *)

(** X13: in a reachable store, after a delete that succeeded the name is
    free: get under it answers 404, a second delete by the same caller
    answers 404, and a create under a name that normalizes alike succeeds;
    the organizations under other names are all still stored, and no
    document was added. *)
Theorem delete_org_frees_name (n : string) (current_admin : CurrentAdmin.t)
  (s s' : store) (r : Deleted.t) :
  reachable s ->
  delete_org n current_admin s = (inr r, s') ->
  get_org n s' = (inl (HTTPException 404 "Organization not found"), s')
  /\ delete_org n current_admin s'
     = (inl (HTTPException 404 "Organization not found"), s')
  /\ (forall utcnow payload,
        normalize (OrgCreate.organization_name payload) = normalize n ->
        exists out s'', create_org utcnow payload s' = (inr out, s''))
  /\ (forall d,
        In d (organizations s) -> Org.organization_name d <> normalize n ->
        In d (organizations s'))
  /\ (forall d, In d (organizations s') -> In d (organizations s))
  /\ (forall a, In a (admins s') -> In a (admins s)).
Proof.
  intros R. apply reachable_consistent in R.
  rewrite delete_org_steps. cbv zeta.
  destruct (String.eqb_spec (CurrentAdmin.org_id current_admin) (normalize n))
    as [Own|]; cbn [negb]; [|discriminate].
  destruct (find _ (organizations s)) as [org|] eqn:F; [|discriminate].
  destruct (ObjectId (Org.admin_id org)) as [i|]; [|discriminate].
  intros H. injection H as _ <-.
  pose proof (deleted_name_gone (normalize n) (organizations s)
                (unique_names s R)) as Gone.
  assert (find (name_is (normalize n))
            (delete_first (name_is (normalize n)) (organizations s)) = None)
    as FN.
  { destruct (find _ (delete_first _ _)) as [d|] eqn:G; [|reflexivity].
    apply find_name_some in G. destruct G as [I E].
    exfalso. apply Gone. apply in_map_iff. exists d. now split. }
  repeat split.
  - run. cbn [organizations]. now rewrite FN.
  - rewrite delete_org_steps. cbv zeta.
    rewrite Own, String.eqb_refl. cbn [negb organizations]. now rewrite FN.
  - intros utcnow payload E. eexists. eexists.
    apply create_org_free. cbn [organizations]. now rewrite E.
  - intros d I N. cbn [organizations]. apply delete_first_keeps; [exact I|].
    unfold name_is. now apply String.eqb_neq.
  - intros d. cbn [organizations]. apply in_delete_first.
  - intros a. cbn [admins]. apply in_delete_first.
Qed.

(** ** The admins' back-references *)

Lemma find_app_some {A : Type} (p : A -> bool) (l l' : list A) (x : A) :
  find p l = Some x -> find p (l ++ l') = Some x.
Proof.
  induction l as [|y l IH]; cbn; [discriminate|].
  now destruct (p y).
Qed.

Lemma find_admin_updated (i j : oid) (h : Admin.doc -> Admin.doc)
  (l : list Admin.doc) :
  (forall a, Admin._id (h a) = Admin._id a) ->
  find (admin_id_is j) (update_first (admin_id_is i) h l)
  = if oid_eqb j i then option_map h (find (admin_id_is i) l)
    else find (admin_id_is j) l.
Proof.
  intros K. destruct (oid_eqb j i) eqn:E.
  - apply oid_eqb_eq in E. subst j. apply find_update_first.
    intros a. unfold admin_id_is. now rewrite K.
  - induction l as [|x l IH]; [reflexivity|].
    cbn [update_first].
    change (admin_id_is i x) with (oid_eqb (Admin._id x) i).
    destruct (oid_eqb (Admin._id x) i) eqn:Ex; cbn [find].
    + change (admin_id_is j (h x)) with (oid_eqb (Admin._id (h x)) j).
      change (admin_id_is j x) with (oid_eqb (Admin._id x) j).
      rewrite K. apply oid_eqb_eq in Ex. rewrite Ex.
      destruct (oid_eqb i j) eqn:Q; [|reflexivity].
      apply oid_eqb_eq in Q. subst j. rewrite oid_eqb_refl in E. discriminate.
    + destruct (admin_id_is j x); [reflexivity | exact IH].
Qed.

Lemma find_admin_deleted (i j : oid) (l : list Admin.doc) :
  j <> i ->
  find (admin_id_is j) (delete_first (admin_id_is i) l)
  = find (admin_id_is j) l.
Proof.
  intros N. induction l as [|x l IH]; [reflexivity|].
  cbn [delete_first find].
  change (admin_id_is i x) with (oid_eqb (Admin._id x) i).
  change (admin_id_is j x) with (oid_eqb (Admin._id x) j).
  destruct (oid_eqb (Admin._id x) i) eqn:Ex.
  - apply oid_eqb_eq in Ex. rewrite Ex.
    now rewrite (oid_eqb_neq i j) by congruence.
  - cbn [find]. change (admin_id_is j x) with (oid_eqb (Admin._id x) j).
    destruct (oid_eqb (Admin._id x) j); [reflexivity | exact IH].
Qed.

(** Two organizations of a consistent store with one admin are one. *)
Lemma consistent_admin_shared (s : store) (d d' : Org.doc) (i : oid) :
  consistent s -> In d (organizations s) -> In d' (organizations s) ->
  ObjectId (Org.admin_id d) = Some i -> ObjectId (Org.admin_id d') = Some i ->
  d = d'.
Proof.
  intros C I I' P P'.
  destruct (consistent_admin_ref s d C I) as [j [E [Q _]]].
  destruct (consistent_admin_ref s d' C I') as [j' [E' [Q' _]]].
  apply (NoDup_map_eq Org.admin_id (organizations s));
    [exact (unique_admin_refs s C) | exact I | exact I' |].
  congruence.
Qed.

Lemma back_referenced_frame (s s' : store) :
  organizations s' = organizations s -> admins s' = admins s ->
  back_referenced s -> back_referenced s'.
Proof.
  intros O Ad B d a I F. unfold admin_of in F. rewrite O in I.
  rewrite Ad in F. now apply B.
Qed.

Lemma create_org_back_referenced (utcnow : N) (payload : OrgCreate.t)
  (s : store) :
  consistent s -> back_referenced s ->
  back_referenced (snd (create_org utcnow payload s)).
Proof.
  intros C B.
  destruct (find (name_is (normalize (OrgCreate.organization_name payload)))
              (organizations s)) as [x|] eqn:F.
  { run. now rewrite F. }
  rewrite (create_org_free utcnow payload s F). cbn [snd].
  intros d a I. unfold admin_of. cbn [organizations admins] in *.
  apply in_app_or in I. destruct I as [I|[<-|[]]].
  - destruct (consistent_admin_ref s d C I) as [i [_ [P J]]].
    destruct (find_admin_in i (admins s) J) as [a0 [Fa _]].
    rewrite P, (find_app_some _ _ _ _ Fa). intros Q. injection Q as <-.
    apply B; [exact I|]. unfold admin_of. now rewrite P.
  - cbn [Org.admin_id Org.organization_name as_stored]. rewrite ObjectId_str.
    rewrite find_snoc_new.
    + intros Q. now injection Q as <-.
    + apply find_admin_none, new_oid_fresh.
    + unfold admin_id_is. cbn. apply oid_eqb_refl.
Qed.

Lemma delete_org_back_referenced (n : string) (current_admin : CurrentAdmin.t)
  (s : store) :
  consistent s -> back_referenced s ->
  back_referenced (snd (delete_org n current_admin s)).
Proof.
  intros C B. rewrite delete_org_steps. cbv zeta.
  destruct (negb _); [exact B|].
  destruct (find _ (organizations s)) as [org|] eqn:F; [|exact B].
  apply find_name_some in F. destruct F as [Io No].
  destruct (consistent_admin_ref s org C Io) as [i [_ [P _]]].
  rewrite P. cbn [snd]. intros d a I. unfold admin_of.
  cbn [organizations admins] in *.
  assert (Org.organization_name d <> normalize n) as Nd.
  { intros Q. apply (deleted_name_gone (normalize n) (organizations s)
                       (unique_names s C)).
    apply in_map_iff. exists d. now split. }
  apply in_delete_first in I.
  destruct (ObjectId (Org.admin_id d)) as [j|] eqn:Pj; [|discriminate].
  rewrite find_admin_deleted.
  - intros Fa. apply B; [exact I|]. unfold admin_of. now rewrite Pj.
  - intros ->. apply Nd. rewrite <- No. f_equal.
    now apply (consistent_admin_shared s d org i).
Qed.

Lemma update_org_back_referenced (payload : OrgUpdate.t)
  (current_admin : CurrentAdmin.t) (s : store) :
  consistent s -> back_referenced s ->
  own_admin s (Update payload current_admin) ->
  back_referenced (snd (update_org payload current_admin s)).
Proof.
  intros C B Own. cbn in Own. rewrite update_org_steps.
  destruct (find _ (organizations s)) as [org|] eqn:F; [|exact B].
  specialize (Own org eq_refl).
  apply find_name_some in F. destruct F as [Io No].
  destruct (consistent_admin_ref s org C Io) as [i [_ [P _]]].
  rewrite <- Own in P.
  destruct (OrgUpdate.organization_name payload) as [raw|]; [|exact B].
  assert (forall s1 target,
            back_referenced s1 ->
            back_referenced
              (snd (match update_credentials payload current_admin s1 with
                    | (inl e, s2) => (@inl exn OrgView.t e, s2)
                    | (inr _, s2) =>
                        match find (name_is target) (organizations s2) with
                        | None => (inl TypeError, s2)
                        | Some u => (inr (view u), s2)
                        end
                    end))) as Cred.
  { intros s1 target B1.
    destruct (update_credentials_cases payload current_admin s1)
      as [[_ ->]|[_ [[_ ->]|[j [_ ->]]]]]; [| exact B1 |].
    - now destruct (find _ (organizations s1)).
    - cbn [organizations].
      assert (back_referenced
                {| organizations := organizations s1;
                   admins := update_first (admin_id_is j)
                               (credentials_of payload) (admins s1);
                   collections := collections s1;
                   log := log s1 ++ credential_writes payload j |}) as B2.
      { intros d a I. unfold admin_of. cbn [organizations admins] in *.
        destruct (ObjectId (Org.admin_id d)) as [k|] eqn:Pk; [|discriminate].
        rewrite find_admin_updated by (intros x; apply credentials_keep).
        destruct (oid_eqb k j) eqn:E.
        - apply oid_eqb_eq in E. subst k.
          destruct (find (admin_id_is j) (admins s1)) as [a0|] eqn:Fa;
            [|discriminate].
          intros Q. injection Q as <-.
          destruct (credentials_keep payload a0) as [_ [_ ->]].
          apply B1; [exact I|]. unfold admin_of. now rewrite Pk.
        - intros Fa. apply B1; [exact I|]. unfold admin_of. now rewrite Pk. }
      now destruct (find _ (organizations s1)). }
  destruct (rename_org_cases org (CurrentAdmin.org_id current_admin)
              (normalize raw) current_admin s)
    as [[-> _]|[_ [[_ ->]|[Free [[Pn _]|[j [Pj ->]]]]]]].
  - now apply Cred.
  - exact B.
  - congruence.
  - rewrite P in Pj. injection Pj as <-. apply Cred.
    apply find_name_none in Free.
    intros d a I. unfold admin_of. cbn [organizations admins] in *.
    destruct (ObjectId (Org.admin_id d)) as [k|] eqn:Pk; [|discriminate].
    rewrite find_admin_updated by reflexivity.
    apply in_rename in I; [|exact (unique_org_ids s C) | exact Io].
    destruct I as [->|[I Nid]].
    + cbn [set_org_names Org.admin_id Org.organization_name] in *.
      rewrite <- Own, P in Pk. injection Pk as <-. rewrite oid_eqb_refl.
      destruct (find (admin_id_is i) (admins s)); [|discriminate].
      intros Q. now injection Q as <-.
    + destruct (oid_eqb k i) eqn:E.
      * apply oid_eqb_eq in E. subst k. exfalso. apply Nid. f_equal.
        apply (consistent_admin_shared s d org i); auto.
        now rewrite <- Own.
      * intros Fa. apply B; [exact I|]. unfold admin_of. now rewrite Pk.
Qed.

(** X14: served from a blank store, a sequence of requests whose updates all
    come from the admin of the organization they update leaves a store in
    which the admin of every organization has that organization's name as
    its [organization], renames and credential changes included. *)
Theorem back_references_kept (t : tenants) (rs : list request) :
  own_admins (blank t) rs ->
  forall d,
    In d (organizations (fold_left serve rs (blank t))) ->
    exists a,
      admin_of (fold_left serve rs (blank t)) d = Some a
      /\ Admin.organization a = Org.organization_name d.
Proof.
  assert (G : forall s0,
             consistent s0 -> back_referenced s0 -> own_admins s0 rs ->
             consistent (fold_left serve rs s0)
             /\ back_referenced (fold_left serve rs s0)).
  { induction rs as [|r rs IH]; cbn; [auto|].
    intros s0 C B [O Os]. apply IH; [now apply serve_consistent | | exact Os].
    destruct r as [utcnow payload|n|payload ca|n ca]; cbn [serve].
    - now apply create_org_back_referenced.
    - now rewrite get_org_reads.
    - now apply update_org_back_referenced.
    - now apply delete_org_back_referenced. }
  intros O d I.
  destruct (G (blank t) (blank_consistent t)) as [C B];
    [intros x a [] | exact O |].
  destruct (consistent_admin_ref _ d C I) as [i [_ [P J]]].
  destruct (find_admin_in i _ J) as [a [Fa _]].
  assert (admin_of (fold_left serve rs (blank t)) d = Some a) as Q
    by (unfold admin_of; now rewrite P).
  exists a. split; [exact Q | now apply B].
Qed.

(** ** A rename and the rename back *)

(** X15: in a reachable store, a rename of [org] from [A] to a name [B] that
    is not stored, followed by an update by the same admin, now under [B],
    whose payload name normalizes to [A], leaves [db.organizations] as it
    was before the two, and get under [A] answers [org]'s record again. *)
Theorem rename_and_back (payload1 payload2 : OrgUpdate.t)
  (caller1 caller2 : CurrentAdmin.t) (raw1 raw2 : string) (org : Org.doc)
  (i : oid) (s : store) :
  let A := CurrentAdmin.org_id caller1 in
  let B := normalize raw1 in
  let s1 := snd (update_org payload1 caller1 s) in
  let s2 := snd (update_org payload2 caller2 s1) in
  reachable s ->
  In org (organizations s) -> Org.organization_name org = A ->
  OrgUpdate.organization_name payload1 = Some raw1 ->
  B <> A ->
  ~ In B (map Org.organization_name (organizations s)) ->
  ObjectId (CurrentAdmin.admin_id caller1) = Some i ->
  CurrentAdmin.org_id caller2 = B ->
  CurrentAdmin.admin_id caller2 = CurrentAdmin.admin_id caller1 ->
  OrgUpdate.organization_name payload2 = Some raw2 ->
  normalize raw2 = A ->
  organizations s2 = organizations s
  /\ get_org A s2 = (inr (view org), s2).
Proof.
  intros A B s1 s2 R I NA N1 Neq Free Pi O2 A2 N2 E2.
  apply reachable_consistent in R.
  pose proof (update_org_consistent payload1 caller1 s R) as C1.
  fold s1 in C1.
  pose proof (update_org_renames payload1 caller1 raw1 org i s R I NA N1 Neq
                Free Pi) as U1.
  assert (organizations s1
          = update_first (org_id_is (Org._id org))
              (set_org_names B ("org_" ++ B)) (organizations s)) as O1.
  { subst s1. fold A B in U1. now rewrite U1. }
  assert (In (set_org_names B ("org_" ++ B) org) (organizations s1)) as I1.
  { rewrite O1. apply rename_in; [exact (unique_org_ids s R) | exact I]. }
  assert (~ In (normalize raw2)
              (map Org.organization_name (organizations s1))) as Free1.
  { rewrite E2, O1, <- NA. apply find_name_none.
    apply find_renamed_old;
      [exact (unique_org_ids s R) | exact (unique_names s R) | exact I |].
    now rewrite NA. }
  assert (ObjectId (CurrentAdmin.admin_id caller2) = Some i) as Pi2
    by now rewrite A2.
  assert (normalize raw2 <> CurrentAdmin.org_id caller2) as Neq2
    by (rewrite E2, O2; congruence).
  assert (Org.organization_name (set_org_names B ("org_" ++ B) org)
          = CurrentAdmin.org_id caller2) as NB by now rewrite O2.
  pose proof (update_org_renames payload2 caller2 raw2
                (set_org_names B ("org_" ++ B) org) i s1 C1 I1 NB N2 Neq2
                Free1 Pi2) as U2.
  cbv zeta in U2.
  assert (organizations s2 = organizations s) as Os.
  { subst s2. rewrite U2. cbn [snd organizations set_org_names Org._id].
    rewrite O1, update_first_twice by reflexivity.
    apply update_first_same. intros x Ix Ex.
    apply oid_eqb_eq in Ex.
    assert (x = org) as ->
      by (apply (NoDup_map_eq Org._id (organizations s));
          auto; exact (unique_org_ids s R)).
    pose proof (derived_names s R) as Dn. rewrite Forall_forall in Dn.
    specialize (Dn org I). unfold derived_name in Dn.
    rewrite E2. destruct org. cbn in *. now rewrite Dn, NA. }
  split; [exact Os|].
  run. rewrite Os.
  assert (normalize A = A) as ->.
  { pose proof (normal_names s R) as Nn. rewrite Forall_forall in Nn.
    rewrite <- NA. exact (Nn org I). }
  rewrite <- NA.
  now rewrite (find_name_unique _ _ (unique_names s R) I).
Qed.

(** ** Other callers' organizations *)

Lemma update_first_keeps {A : Type} (p : A -> bool) (f : A -> A) (l : list A)
  (x : A) :
  In x l -> p x = false -> In x (update_first p f l).
Proof.
  induction l as [|y l IH]; cbn; [tauto|].
  intros [->|I] E.
  - rewrite E. now left.
  - destruct (p y); right; [exact I | now apply IH].
Qed.

(** X16: in a reachable store, an organization stored under another name
    than the caller's [org_id] is still stored, as it was, after any update
    and after any delete by that caller. *)
Theorem other_organizations_kept (current_admin : CurrentAdmin.t)
  (d : Org.doc) (s : store) :
  reachable s ->
  In d (organizations s) ->
  Org.organization_name d <> CurrentAdmin.org_id current_admin ->
  (forall payload,
      In d (organizations (snd (update_org payload current_admin s))))
  /\ (forall n, In d (organizations (snd (delete_org n current_admin s)))).
Proof.
  intros R I N. apply reachable_consistent in R. split.
  - intros payload. rewrite update_org_steps.
    destruct (find _ (organizations s)) as [org|] eqn:F; [|exact I].
    apply find_name_some in F. destruct F as [Io No].
    destruct (OrgUpdate.organization_name payload) as [raw|]; [|exact I].
    assert (In d (update_first (org_id_is (Org._id org))
                    (set_org_names (normalize raw) ("org_" ++ normalize raw))
                    (organizations s))) as Ir.
    { apply update_first_keeps; [exact I|]. unfold org_id_is.
      apply oid_eqb_neq. intros Q. apply N. rewrite <- No. f_equal.
      apply (NoDup_map_eq Org._id (organizations s)); auto.
      exact (unique_org_ids s R). }
    assert (forall s1 target,
              In d (organizations s1) ->
              In d (organizations
                      (snd (match update_credentials payload current_admin s1
                            with
                            | (inl e, s2) => (@inl exn OrgView.t e, s2)
                            | (inr _, s2) =>
                                match find (name_is target) (organizations s2)
                                with
                                | None => (inl TypeError, s2)
                                | Some u => (inr (view u), s2)
                                end
                            end)))) as Cred.
    { intros s1 target I1.
      destruct (update_credentials_cases payload current_admin s1)
        as [[_ ->]|[_ [[_ ->]|[j [_ ->]]]]]; [| exact I1 |].
      - now destruct (find _ (organizations s1)).
      - cbn [organizations]. now destruct (find _ (organizations s1)). }
    destruct (rename_org_cases org (CurrentAdmin.org_id current_admin)
                (normalize raw) current_admin s)
      as [[-> _]|[_ [[_ ->]|[_ [[_ ->]|[j [_ ->]]]]]]];
      [now apply Cred | exact I | exact Ir | now apply Cred].
  - intros n. rewrite delete_org_steps. cbv zeta.
    destruct (String.eqb_spec (CurrentAdmin.org_id current_admin)
                (normalize n)) as [Own|]; cbn [negb]; [|exact I].
    destruct (find _ (organizations s)) as [org|]; [|exact I].
    destruct (ObjectId (Org.admin_id org)); [|exact I].
    cbn [snd organizations]. apply delete_first_keeps; [exact I|].
    unfold name_is. apply String.eqb_neq. congruence.
Qed.

(** ** The ways the handlers fail *)

Lemma renamed_found (org : Org.doc) (n c : string) (l : list Org.doc) :
  In org l ->
  exists d, find (name_is n)
              (update_first (org_id_is (Org._id org)) (set_org_names n c) l)
            = Some d.
Proof.
  intros I. apply find_name_in.
  induction l as [|y l IH]; cbn; [destruct I|].
  change (org_id_is (Org._id org) y) with (oid_eqb (Org._id y) (Org._id org)).
  destruct (oid_eqb (Org._id y) (Org._id org)) eqn:E; cbn; [now left|].
  right. apply IH. destruct I as [->|I]; [|exact I].
  rewrite oid_eqb_refl in E. discriminate.
Qed.

(** X17: the exceptions that leave the handlers, in any store.  Create ends
    in no other than the 400 of a stored name, get in no other than 404.
    Update ends in 404, in the 400 of a taken name, in [AttributeError] (only
    with the name left out) or in [InvalidId] (only with a caller whose admin
    identifier does not read as one): it never reads back a missing record.
    Delete ends in 403, 404 or [InvalidId], and never in [InvalidId] in a
    reachable store. *)
Theorem failure_modes :
  (forall utcnow payload s e,
      fst (create_org utcnow payload s) = inl e ->
      e = HTTPException 400 "Organization already exists")
  /\ (forall n s e,
        fst (get_org n s) = inl e ->
        e = HTTPException 404 "Organization not found")
  /\ (forall payload current_admin s e,
        fst (update_org payload current_admin s) = inl e ->
        e = HTTPException 404 "Organization not found"
        \/ e = HTTPException 400 "New organization name already exists"
        \/ (e = AttributeError /\ OrgUpdate.organization_name payload = None)
        \/ (e = InvalidId
            /\ ObjectId (CurrentAdmin.admin_id current_admin) = None))
  /\ (forall n current_admin s e,
        fst (delete_org n current_admin s) = inl e ->
        e = HTTPException 403
              "You are not authorized to delete this organization"
        \/ e = HTTPException 404 "Organization not found"
        \/ (e = InvalidId /\ ~ reachable s)).
Proof.
  repeat apply conj.
  - intros utcnow payload s e. run.
    destruct (find _ (organizations s)); cbn; [|discriminate].
    intros H. now injection H as <-.
  - intros n s e. run.
    destruct (find _ (organizations s)); cbn; [discriminate|].
    intros H. now injection H as <-.
  - intros payload current_admin s e. rewrite update_org_steps.
    destruct (find _ (organizations s)) as [org|] eqn:F;
      [|intros H; injection H as <-; now left].
    apply find_name_some in F. destruct F as [Io No].
    destruct (OrgUpdate.organization_name payload) as [raw|];
      [|intros H; injection H as <-; right; right; left; now split].
    assert (forall s1 target,
              (exists u, find (name_is target) (organizations s1) = Some u) ->
              fst (match update_credentials payload current_admin s1 with
                   | (inl e, s2) => (@inl exn OrgView.t e, s2)
                   | (inr _, s2) =>
                       match find (name_is target) (organizations s2) with
                       | None => (inl TypeError, s2)
                       | Some u => (inr (view u), s2)
                       end
                   end) = inl e ->
              e = InvalidId
              /\ ObjectId (CurrentAdmin.admin_id current_admin) = None)
      as Cred.
    { intros s1 target [u Fu].
      destruct (update_credentials_cases payload current_admin s1)
        as [[_ ->]|[_ [[Pn ->]|[j [_ ->]]]]]; cbn [organizations].
      - rewrite Fu. discriminate.
      - intros H. injection H as <-. now split.
      - rewrite Fu. discriminate. }
    destruct (rename_org_cases org (CurrentAdmin.org_id current_admin)
                (normalize raw) current_admin s)
      as [[-> _]|[_ [[_ ->]|[_ [[Pn ->]|[j [_ ->]]]]]]].
    + intros H. right. right. right. apply (Cred s _) in H; [exact H|].
      apply find_name_in. rewrite <- No. now apply in_map.
    + intros H. injection H as <-. right. now left.
    + intros H. injection H as <-. right. right. right. now split.
    + intros H. right. right. right. eapply Cred; [|exact H].
      cbn [organizations]. now apply renamed_found.
  - intros n current_admin s e. rewrite delete_org_steps. cbv zeta.
    destruct (negb _); [intros H; injection H as <-; now left|].
    destruct (find _ (organizations s)) as [org|] eqn:F;
      [|intros H; injection H as <-; right; now left].
    destruct (ObjectId (Org.admin_id org)) eqn:P; [discriminate|].
    intros H. injection H as <-. right. right. split; [reflexivity|].
    intros R. apply reachable_consistent in R.
    apply find_name_some in F. destruct F as [I _].
    destruct (consistent_admin_ref s org R I) as [i [_ [Q _]]]. congruence.
Qed.

End Properties.

(** * The theorems at Acme

    Each theorem above that has premises is applied here to the store that
    [create("  Acme ", "a@x.com", "pw1")] builds, with the model collaborators
    of [Sample]. *)

Lemma hash_password_marks (plaintext : string) :
  Sample.hash_password plaintext <> plaintext.
Proof.
  intros H. apply (f_equal String.length) in H. cbn in H. lia.
Qed.

Lemma acme_reachable : reachable Sample.acme.
Proof. exists [], [Sample.acme_request]. reflexivity. Qed.

(** C1 at Acme, renamed to ["acme2"] by its admin. *)
Lemma rename_consistency_witness :
  Sample.update_org Sample.to_acme2 Sample.acme_admin Sample.acme
  = (inr (view (set_org_names "acme2" "org_acme2" Sample.acme_org)),
     snd (Sample.update_org Sample.to_acme2 Sample.acme_admin Sample.acme))
  /\ Sample.get_org "acme"
       (snd (Sample.update_org Sample.to_acme2 Sample.acme_admin Sample.acme))
     = (inl (HTTPException 404 "Organization not found"),
        snd (Sample.update_org Sample.to_acme2 Sample.acme_admin Sample.acme))
  /\ fst (Sample.get_org "acme2"
            (snd (Sample.update_org Sample.to_acme2 Sample.acme_admin
                    Sample.acme)))
     = inr (view (set_org_names "acme2" "org_acme2" Sample.acme_org)).
Proof.
  assert (U : Sample.update_org Sample.to_acme2 Sample.acme_admin Sample.acme
              = (inr (view (set_org_names "acme2" "org_acme2"
                              Sample.acme_org)),
                 snd (Sample.update_org Sample.to_acme2 Sample.acme_admin
                        Sample.acme)))
    by reflexivity.
  assert (I : In Sample.acme_org (organizations Sample.acme))
    by (left; reflexivity).
  assert (N : "acme2" <> "acme") by discriminate.
  destruct (@rename_consistency Sample.bson Sample.collab "acme" "acme2"
              " Acme2 " Sample.acme_org Sample.to_acme2 Sample.acme_admin
              Sample.acme _ _ acme_reachable I eq_refl eq_refl eq_refl
              eq_refl eq_refl N U) as [G1 [G2 _]].
  split; [exact U|]. split; [exact G1|].
  unfold Sample.get_org. now rewrite G2.
Defined.

(** C2 at Acme: its admin may not delete ["other"]. *)
Lemma delete_org_forbidden_witness :
  CurrentAdmin.org_id Sample.acme_admin <> PyStr.normalize " Other "
  /\ Sample.delete_org " Other " Sample.acme_admin Sample.acme
     = (inl (HTTPException 403
               "You are not authorized to delete this organization"),
        Sample.acme).
Proof.
  assert (H : CurrentAdmin.org_id Sample.acme_admin
              <> PyStr.normalize " Other ") by (vm_compute; discriminate).
  split; [exact H|].
  exact (@delete_org_forbidden Sample.bson Sample.collab " Other "
           Sample.acme_admin Sample.acme H).
Defined.

(** C3 at Acme: a second create, of ["ACME"]. *)
Lemma create_org_conflict_witness :
  In (PyStr.normalize "ACME")
    (map Org.organization_name (organizations Sample.acme))
  /\ fst (Sample.create_org 8 (OrgCreate.Build_t "ACME" "b@x.com" "pw2")
            Sample.acme)
     = inl (HTTPException 400 "Organization already exists").
Proof.
  assert (H : In (PyStr.normalize "ACME")
                (map Org.organization_name (organizations Sample.acme)))
    by (left; reflexivity).
  split; [exact H|].
  exact (proj1 (@create_org_conflict Sample.bson Sample.collab) 8%N
           (OrgCreate.Build_t "ACME" "b@x.com" "pw2") Sample.acme H).
Defined.

(** C4 at Acme. *)
Lemma derived_naming_witness :
  reachable Sample.acme
  /\ Org.collection_name Sample.acme_org
     = "org_" ++ Org.organization_name Sample.acme_org.
Proof.
  split; [exact acme_reachable|].
  apply (proj1 (@derived_naming Sample.bson Sample.collab) Sample.acme
           acme_reachable).
  left. reflexivity.
Defined.

(** C5 at the names ["  Acme "] and ["ACME"]. *)
Lemma handlers_use_normalized_name_witness :
  PyStr.normalize "  Acme " = PyStr.normalize "ACME"
  /\ forall s, Sample.get_org "  Acme " s = Sample.get_org "ACME" s.
Proof.
  split; [reflexivity|].
  exact (proj1 (proj2 (proj2 (proj2 (@handlers_use_normalized_name
                                       Sample.bson Sample.collab)))
                  "  Acme " "ACME" eq_refl)).
Defined.

(** C6 at Acme: its admin sends the name ["ACME"] and the password
    ["newpw"].  The organization document stays, the writes are the one of
    the password, and the admin document holds the marked ["newpw"] with
    the e-mail it had. *)
Lemma credential_only_update_witness :
  organizations
    (snd (Sample.update_org Sample.new_password Sample.acme_admin
            Sample.acme))
  = [Sample.acme_org]
  /\ fst (Sample.update_org Sample.new_password Sample.acme_admin
            Sample.acme)
     = inr {| OrgView._id := "0x1";
              OrgView.organization_name := "acme";
              OrgView.collection_name := "org_acme";
              OrgView.admin_id := "0x1";
              OrgView.created_at := 0 |}
  /\ log
       (snd (Sample.update_org Sample.new_password Sample.acme_admin
               Sample.acme))
     = (log Sample.acme ++ [@SetAdminPassword Sample.bson 1%N "$2b$newpw"])%list
  /\ admins
       (snd (Sample.update_org Sample.new_password Sample.acme_admin
               Sample.acme))
     = [@Admin.Build_doc Sample.bson 1%N "a@x.com" "$2b$newpw" "admin"
          "acme"].
Proof.
  destruct (@credential_only_update Sample.bson Sample.collab
              Sample.new_password Sample.acme_admin "ACME" "newpw"
              Sample.acme eq_refl eq_refl eq_refl
              (fun E : "newpw" = "" =>
                 eq_ind "newpw"
                   (fun x => match x with
                             | EmptyString => False
                             | String _ _ => True
                             end) I "" E))
    as [O [_ [_ K]]].
  destruct (K [] Sample.acme_org [] eq_refl eq_refl
              (fun d (I : In d []) => match I with end)) as [_ K1].
  destruct (K1 1%N eq_refl) as [V [L [Ad _]]].
  split; [exact O|]. split; [exact V|]. split; [exact L|].
  exact (Ad [] (@Admin.Build_doc Sample.bson 1%N "a@x.com" "$2b$pw1" "admin"
                  "acme") [] eq_refl eq_refl
           (fun x (I : In x []) => match I with end)).
Defined.

(** C8 at the create of Acme. *)
Lemma passwords_stored_hashed_witness :
  (forall plaintext, Sample.hash_password plaintext <> plaintext)
  /\ exists a,
       admins Sample.acme = (admins Sample.blank ++ [a])%list
       /\ Admin.password a = Sample.hash_password "pw1"
       /\ Admin.password a <> "pw1".
Proof.
  split; [exact hash_password_marks|].
  destruct (proj1 (@passwords_stored_hashed Sample.bson Sample.collab
                     hash_password_marks)
              7%N (OrgCreate.Build_t "  Acme " "a@x.com" "pw1") Sample.blank
              _ Sample.acme eq_refl) as [a [G1 [_ [G2 G3]]]].
  exists a. auto.
Defined.


(** C10 at Acme: the refused create of ["ACME"] wrote nothing. *)
Lemma conflict_writes_nothing_witness :
  fst (Sample.create_org 8 (OrgCreate.Build_t "ACME" "b@x.com" "pw2")
         Sample.acme)
  = inl (HTTPException 400 "Organization already exists")
  /\ snd (Sample.create_org 8 (OrgCreate.Build_t "ACME" "b@x.com" "pw2")
            Sample.acme)
     = Sample.acme.
Proof.
  split; [reflexivity|].
  exact (proj1 (@conflict_writes_nothing Sample.bson Sample.collab) 8%N
           (OrgCreate.Build_t "ACME" "b@x.com" "pw2") Sample.acme
           "Organization already exists" _ eq_refl).
Defined.

(** C7 at Acme: its admin sends a new password and no name, and the call
    ends in [AttributeError]. *)
Lemma update_org_password_only :
  Sample.update_org Sample.password_only Sample.acme_admin Sample.acme
  = (inl AttributeError, Sample.acme).
Proof. reflexivity. Qed.

(** * The further properties at Acme *)

Lemma two_reachable : reachable Sample.two.
Proof. exists [], [Sample.acme_request; Sample.globex_request]. reflexivity. Qed.

(** X2 at a create of Acme at the reading 1234567 microseconds, fetched as
    ["ACME"]: the record's creation time is 1234000. *)
Lemma get_org_after_create_witness :
  exists v,
    Sample.get_org "ACME"
      (snd (Sample.create_org 1234567
              (OrgCreate.Build_t "  Acme " "a@x.com" "pw1") Sample.blank))
    = (inr v,
       snd (Sample.create_org 1234567
              (OrgCreate.Build_t "  Acme " "a@x.com" "pw1") Sample.blank))
    /\ OrgView.organization_name v = "acme"
    /\ OrgView.collection_name v = "org_acme"
    /\ OrgView.admin_id v = "0x1"
    /\ OrgView.created_at v = 1234000%N.
Proof.
  exact (proj1 (@get_org_after_create Sample.bson Sample.collab 1234567%N
                  (OrgCreate.Build_t "  Acme " "a@x.com" "pw1") Sample.blank
                  _ _ eq_refl) "ACME" eq_refl).
Defined.

(** X3 at the create of Acme, deleted by its admin. *)
Lemma delete_org_after_create_witness :
  exists s2,
    Sample.delete_org "ACME" Sample.acme_admin Sample.acme
    = (inr {| Deleted.status := "deleted" |}, s2)
    /\ organizations s2 = organizations Sample.blank
    /\ admins s2 = admins Sample.blank.
Proof.
  exact (@delete_org_after_create Sample.bson Sample.collab 7%N
           (OrgCreate.Build_t "  Acme " "a@x.com" "pw1") Sample.blank
           Sample.acme _ "ACME" Sample.acme_admin eq_refl eq_refl eq_refl).
Defined.

(** X4 at Acme. *)
Lemma get_org_stored_witness :
  reachable Sample.acme
  /\ Sample.get_org "acme" Sample.acme
     = (inr (view Sample.acme_org), Sample.acme).
Proof.
  split; [exact acme_reachable|].
  exact (proj1 (proj2 (@get_org_stored Sample.bson Sample.collab Sample.acme
                         acme_reachable))
           Sample.acme_org (or_introl eq_refl)).
Defined.

(** X5 at the store of Acme and Globex. *)
Lemma reachable_names_witness :
  reachable Sample.two
  /\ NoDup (map Org.organization_name (organizations Sample.two)).
Proof.
  split; [exact two_reachable|].
  exact (proj1 (@reachable_names Sample.bson Sample.collab Sample.two
                  two_reachable)).
Defined.

(** X6 at a name of two spaces, created on the blank store. *)
Lemma create_org_blank_name_witness :
  blank_name "  "
  /\ exists i s' d,
       Sample.create_org 7 (OrgCreate.Build_t "  " "a@x.com" "pw1")
         Sample.blank
       = (inr {| OrgOut.organization_name := "";
                 OrgOut.collection_name := "org_";
                 OrgOut.admin_id := i |}, s')
       /\ In d (organizations s')
       /\ Org.organization_name d = ""
       /\ Org.collection_name d = "org_".
Proof.
  assert (B : blank_name "  ")
    by (intros c [<-|[<-|[]]]; reflexivity).
  split; [exact B|].
  exact (proj2 (@create_org_blank_name Sample.bson Sample.collab) 7%N
           (OrgCreate.Build_t "  " "a@x.com" "pw1") Sample.blank B
           (fun H : False => H)).
Defined.

(** X7 at Acme, with a caller of no stored organization. *)
Lemma stale_caller_witness :
  ~ In (CurrentAdmin.org_id Sample.ghost_admin)
      (map Org.organization_name (organizations Sample.acme))
  /\ Sample.update_org Sample.to_acme2 Sample.ghost_admin Sample.acme
     = (inl (HTTPException 404 "Organization not found"), Sample.acme).
Proof.
  assert (N : ~ In (CurrentAdmin.org_id Sample.ghost_admin)
                  (map Org.organization_name (organizations Sample.acme)))
    by (intros [H|[]]; discriminate H).
  split; [exact N|].
  exact (proj1 (proj1 (@stale_caller Sample.bson Sample.collab
                         Sample.ghost_admin Sample.acme) N)
           Sample.to_acme2).
Defined.

(** X8 at Acme: its name in other letters and an empty e-mail. *)
Lemma update_org_no_change_witness :
  PyStr.truthy (OrgUpdate.email Sample.nothing_new) = false
  /\ Sample.update_org Sample.nothing_new Sample.acme_admin Sample.acme
     = (inr (view Sample.acme_org), Sample.acme).
Proof.
  split; [reflexivity|].
  exact (@update_org_no_change Sample.bson Sample.collab Sample.nothing_new
           Sample.acme_admin " Acme" Sample.acme_org Sample.acme eq_refl
           eq_refl eq_refl eq_refl eq_refl).
Defined.

(** X9 at Acme, renamed to ["acme2"]. *)
Lemma update_org_rename_witness :
  reachable Sample.acme
  /\ fst (Sample.update_org Sample.to_acme2 Sample.acme_admin Sample.acme)
     = inr (view (set_org_names "acme2" "org_acme2" Sample.acme_org))
  /\ log (snd (Sample.update_org Sample.to_acme2 Sample.acme_admin
                 Sample.acme))
     = (log Sample.acme
        ++ [SetOrgNames (1%N : @oid Sample.bson) "acme2" "org_acme2";
            SetAdminOrganization (1%N : @oid Sample.bson) "acme2";
            RenameAndSync "acme" "acme2"])%list.
Proof.
  split; [exact acme_reachable|].
  assert (N : "acme2" <> "acme") by discriminate.
  assert (F : ~ In "acme2"
                  (map Org.organization_name (organizations Sample.acme)))
    by (intros [H|[]]; discriminate H).
  pose proof (@update_org_rename Sample.bson Sample.collab Sample.to_acme2
                Sample.acme_admin " Acme2 " Sample.acme_org 1%N Sample.acme
                acme_reachable (or_introl eq_refl) eq_refl eq_refl N F
                eq_refl) as U.
  unfold Sample.update_org. rewrite U. split; reflexivity.
Defined.

(** X10 at Acme, renamed by a caller whose admin identifier is ["zz"]. *)
Lemma no_rollback_witness :
  @ObjectId Sample.bson (CurrentAdmin.admin_id Sample.odd_admin) = None
  /\ fst (Sample.update_org Sample.to_acme2 Sample.odd_admin Sample.acme)
     = inl InvalidId
  /\ map Org.organization_name
       (organizations
          (snd (Sample.update_org Sample.to_acme2 Sample.odd_admin
                  Sample.acme)))
     = ["acme2"]
  /\ admins (snd (Sample.update_org Sample.to_acme2 Sample.odd_admin
                    Sample.acme))
     = admins Sample.acme.
Proof.
  split; [reflexivity|].
  assert (N : PyStr.normalize " Acme2 "
              <> CurrentAdmin.org_id Sample.odd_admin) by discriminate.
  assert (F : ~ In (PyStr.normalize " Acme2 ")
                  (map Org.organization_name (organizations Sample.acme)))
    by (intros [H|[]]; discriminate H).
  pose proof (proj1 (@no_rollback Sample.bson Sample.collab)
                Sample.to_acme2 Sample.odd_admin " Acme2 " Sample.acme_org
                Sample.acme eq_refl eq_refl N F eq_refl) as U.
  unfold Sample.update_org. rewrite U. repeat split.
Defined.

(** X12 at the store of Acme and Globex. *)
Lemma reachable_admins_witness :
  reachable Sample.two
  /\ List.length (admins Sample.two) = List.length (organizations Sample.two).
Proof.
  split; [exact two_reachable|].
  exact (proj2 (@reachable_admins Sample.bson Sample.collab Sample.two
                  two_reachable)).
Defined.

(** X13 at Acme, deleted by its admin. *)
Lemma delete_org_frees_name_witness :
  reachable Sample.acme
  /\ Sample.get_org "ACME"
       (snd (Sample.delete_org "ACME" Sample.acme_admin Sample.acme))
     = (inl (HTTPException 404 "Organization not found"),
        snd (Sample.delete_org "ACME" Sample.acme_admin Sample.acme)).
Proof.
  split; [exact acme_reachable|].
  exact (proj1 (@delete_org_frees_name Sample.bson Sample.collab "ACME"
                  Sample.acme_admin Sample.acme _ _ acme_reachable eq_refl)).
Defined.

(** X14 at the create of Acme followed by its rename to ["acme2"]. *)
Lemma back_references_kept_witness :
  own_admins Sample.blank
    [Sample.acme_request; Update Sample.to_acme2 Sample.acme_admin]
  /\ exists a,
       admin_of
         (fold_left serve
            [Sample.acme_request; Update Sample.to_acme2 Sample.acme_admin]
            Sample.blank)
         (set_org_names "acme2" "org_acme2" Sample.acme_org) = Some a
       /\ Admin.organization a = "acme2".
Proof.
  assert (O : own_admins Sample.blank
                [Sample.acme_request;
                 Update Sample.to_acme2 Sample.acme_admin]).
  { split; [exact I|]. split; [|exact I].
    intros org H. injection H as <-. reflexivity. }
  split; [exact O|].
  exact (@back_references_kept Sample.bson Sample.collab []
           [Sample.acme_request; Update Sample.to_acme2 Sample.acme_admin] O
           (set_org_names "acme2" "org_acme2" Sample.acme_org)
           (or_introl eq_refl)).
Defined.

(** X15 at Acme, renamed to ["acme2"] and back. *)
Lemma rename_and_back_witness :
  reachable Sample.acme
  /\ organizations
       (snd (Sample.update_org Sample.to_acme Sample.acme2_admin
               (snd (Sample.update_org Sample.to_acme2 Sample.acme_admin
                       Sample.acme))))
     = organizations Sample.acme.
Proof.
  split; [exact acme_reachable|].
  assert (N : PyStr.normalize " Acme2 "
              <> CurrentAdmin.org_id Sample.acme_admin) by discriminate.
  assert (F : ~ In (PyStr.normalize " Acme2 ")
                  (map Org.organization_name (organizations Sample.acme)))
    by (intros [H|[]]; discriminate H).
  exact (proj1 (@rename_and_back Sample.bson Sample.collab Sample.to_acme2
                  Sample.to_acme Sample.acme_admin Sample.acme2_admin
                  " Acme2 " "ACME" Sample.acme_org 1%N Sample.acme
                  acme_reachable (or_introl eq_refl) eq_refl eq_refl N F
                  eq_refl eq_refl eq_refl eq_refl eq_refl)).
Defined.

(** X16 at the store of Acme and Globex: Acme's admin leaves Globex. *)
Lemma other_organizations_kept_witness :
  reachable Sample.two
  /\ In Sample.globex_org
       (organizations
          (snd (Sample.delete_org "ACME" Sample.acme_admin Sample.two))).
Proof.
  split; [exact two_reachable|].
  assert (N : Org.organization_name Sample.globex_org
              <> CurrentAdmin.org_id Sample.acme_admin) by discriminate.
  exact (proj2 (@other_organizations_kept Sample.bson Sample.collab
                  Sample.acme_admin Sample.globex_org Sample.two
                  two_reachable (or_intror (or_introl eq_refl)) N) "ACME").
Defined.
